(** * Sniffles2 SNF block store: a shallow embedding of [sniffles/snf.py]

    The development follows the Python module class by class: [SNFile]
    (block aggregation, coverage annotation, writing, random-access reading)
    and [LazySNFile] (the bounded residency registry).

    Conventions of the embedding.
    - Python integers are [Z].  [int(a / b)] is true division followed by
      truncation; [math.ceil(a / float(n))] is a float division followed by a
      ceiling.  Both go through a double: the quotient is rounded to the
      nearest double, ties to even, before it is truncated or taken to its
      ceiling.  The result is the exact one as long as the operands stay
      below 2^53 in magnitude, and differs from it beyond.  Doubles have no
      upper limit here: the [OverflowError] of a quotient beyond 1.8e308 is
      left out.
    - A candidate is a Python object, held by reference: its identity is the
      field [oid], and two entries with the same [oid] are the same object.
      An assignment to an attribute of the object shows in every entry of
      the store that is this object.  References held outside the store (the
      caller's own) are not part of the state.
    - A raised exception is a [Raise] result; state changes made before the
      raise persist, as they do in Python.
    - [pickle], [gzip] and [json] are library code: they are parameters of
      the model. *)

From Stdlib Require Import ZArith List Lia Bool.
From Stdlib Require Import Strings.String Strings.Byte.
From stdpp Require Import base option list functions gmap strings sorting pretty.

Local Open Scope string_scope.
Local Open Scope Z_scope.
Local Open Scope list_scope.

(** ** Exceptions and the state-and-exception monad *)

(** The exceptions the module can raise.  A [ZeroDivisionError] carries the
    source line of the division that raised it. *)
Inductive exn : Type :=
| ZeroDivisionError (line : nat)
| KeyError
| AttributeError
| TypeError
| ValueError
| IndexError
| FileNotFoundError
| OSError
| UnsupportedOperation
| DecodeError.

Inductive result (A : Type) : Type :=
| Ok (a : A)
| Raise (e : exn).
Arguments Ok {A} a.
Arguments Raise {A} e.

Definition M (S A : Type) : Type := S -> result A * S.

Definition mret {S A} (a : A) : M S A := fun s => (Ok a, s).

Definition mbind {S A B} (m : M S A) (k : A -> M S B) : M S B :=
  fun s => match m s with
           | (Ok a, s') => k a s'
           | (Raise e, s') => (Raise e, s')
           end.

Definition mraise {S A} (e : exn) : M S A := fun s => (Raise e, s).
Definition mget {S} : M S S := fun s => (Ok s, s).
Definition mput {S} (s : S) : M S unit := fun _ => (Ok tt, s).
Definition mmodify {S} (f : S -> S) : M S unit := fun s => (Ok tt, f s).

(** [try: m except Exception as e: h e] *)
Definition mtry {S A} (m : M S A) (h : exn -> M S A) : M S A :=
  fun s => match m s with
           | (Ok a, s') => (Ok a, s')
           | (Raise e, s') => h e s'
           end.

Notation "x <- m ;; k" := (mbind m (fun x => k))
  (at level 20, m at level 99, k at level 200, only parsing).
Notation "'_' <- m ;; k" := (mbind m (fun _ => k))
  (at level 20, m at level 99, k at level 200, only parsing).

(** [if c: m] *)
Definition mwhen {S} (c : bool) (m : M S unit) : M S unit :=
  if c then m else mret tt.

(** A [for] loop that threads the loop-carried local variables [acc]. *)
Fixpoint mfor {S A L} (l : list A) (body : A -> L -> M S L) (acc : L) : M S L :=
  match l with
  | [] => mret acc
  | x :: l' => acc' <- body x acc ;; mfor l' body acc'
  end.

(** ** Python arithmetic *)

(** *** Doubles *)

(** A finite double, by its value [m * 2^x]. *)
Definition double : Type := (Z * Z)%type.

(** [P / Q] rounded to the nearest integer, ties to even, for [0 <= P] and
    [0 < Q]. *)
Definition rne (P Q : Z) : Z :=
  let d := P / Q in
  let r := P mod Q in
  if 2 * r <? Q then d
  else if Q <? 2 * r then d + 1
  else if Z.even d then d else d + 1.

(** [Q * 2^e <= P], for an exponent of either sign. *)
Definition scale_le (Q e P : Z) : bool :=
  if 0 <=? e then Q * 2 ^ e <=? P else Q <=? P * 2 ^ (- e).

(** The binary exponent of [P / Q], for [0 < P] and [0 < Q]: the [e] with
    [2^e <= P / Q < 2^(e+1)]. *)
Definition binade (P Q : Z) : Z :=
  let e0 := Z.log2 P - Z.log2 Q in
  if scale_le Q e0 P then e0 else e0 - 1.

(** The double nearest to [P / Q], ties to even, for [0 <= P] and [0 < Q]:
    53 bits of mantissa scaled by the binary exponent; below [2^-1022] the
    spacing stays [2^-1074].  A quotient of [2^1024] or more has no double
    (Python raises [OverflowError]); the rounded value is kept here. *)
Definition round_pos (P Q : Z) : double :=
  if decide (P = 0) then (0, 0)
  else
    let x := Z.max (binade P Q) (-1022) - 52 in
    (if 0 <? x then rne P (Q * 2 ^ x) else rne (P * 2 ^ (- x)) Q, x).

(** The double nearest to [P / Q], for [Q <> 0]. *)
Definition round_div (P Q : Z) : double :=
  let P' := if 0 <? Q then P else - P in
  if 0 <=? P' then round_pos P' (Z.abs Q)
  else let (m, x) := round_pos (- P') (Z.abs Q) in (- m, x).

(** [float(z)] *)
Definition double_of_Z (z : Z) : double := round_div z 1.

(** The quotient of two doubles, the second one not zero: the exact quotient,
    rounded. *)
Definition double_div (d1 d2 : double) : double :=
  let (m1, x1) := d1 in
  let (m2, x2) := d2 in
  if 0 <=? x1 - x2 then round_div (m1 * 2 ^ (x1 - x2)) m2
  else round_div m1 (m2 * 2 ^ (x2 - x1)).

(** [int(d)]: truncation towards zero. *)
Definition double_trunc (d : double) : Z :=
  let (m, x) := d in
  if 0 <? x then m * 2 ^ x else Z.quot m (2 ^ (- x)).

(** [math.ceil(d)] *)
Definition double_ceil (d : double) : Z :=
  let (m, x) := d in
  if 0 <? x then m * 2 ^ x else - ((- m) / 2 ^ (- x)).

(** [int(a / b)] for integers [a] and [b <> 0]: the quotient of two integers
    is rounded once, from its exact value. *)
Definition truediv_int (a b : Z) : Z := double_trunc (round_div a b).

(** The exact ceiling of the quotient [a / n], for [n <> 0]. *)
Definition ceil_div (a n : Z) : Z := - ((- a) / n).

(** [math.ceil(a / float(n))] for integers [a] and [n <> 0]: both operands
    are converted to doubles, then divided. *)
Definition truediv_ceil (a n : Z) : Z :=
  double_ceil (double_div (double_of_Z a) (double_of_Z n)).

(** [int(a / b)]: [line] is the source line of the division. *)
Definition int_truediv {S} (line : nat) (a b : Z) : M S Z :=
  if decide (b = 0) then mraise (ZeroDivisionError line) else mret (truediv_int a b).

(** [a % b] *)
Definition py_mod {S} (line : nat) (a b : Z) : M S Z :=
  if decide (b = 0) then mraise (ZeroDivisionError line) else mret (a mod b).

(** [math.ceil(a / float(n))] *)
Definition ceil_truediv {S} (line : nat) (a n : Z) : M S Z :=
  if decide (n = 0) then mraise (ZeroDivisionError line) else mret (truediv_ceil a n).

(** [range(start, stop, step)]; a zero step raises [ValueError]. *)
Definition range_len (start stop step : Z) : Z :=
  if decide (0 < step) then Z.max 0 ((stop - start + step - 1) / step)
  else Z.max 0 ((start - stop - step - 1) / (- step)).

Definition py_range (start stop step : Z) : list Z :=
  (fun i : nat => start + Z.of_nat i * step) <$> seq 0 (Z.to_nat (range_len start stop step)).

Definition range {S} (start stop step : Z) : M S (list Z) :=
  if decide (step = 0) then mraise ValueError else mret (py_range start stop step).

(** ** Data model *)

Abbreviation bytes := (list byte).

Record config_t : Type := {
  snf_block_size : Z;
  coverage_binsize : Z;
  coverage_binsize_combine : Z;
  output_rnames : bool;
  combine_close_handles : bool }.

(** The depth source ([lead_provider]); [end_] is its attribute [end]. *)
Record lead_provider_t : Type := {
  covrtab_min_bin : Z;
  end_ : Z;
  covrtab_fwd : gmap Z Z;
  covrtab_rev : gmap Z Z }.

Section Store.

(** The attributes of a candidate the store never looks at. *)
Context {Payload : Type}.

(** [sv.TYPES], the enumeration of SV type tags (module [sv] is imported). *)
Variable TYPES : list string.

(** A candidate object: [oid] is its identity, the other fields are its
    attributes. *)
Record svcand : Type := {
  oid : nat;
  pos : Z;
  svtype : string;
  rnames : option (list string);
  payload : Payload }.

(** A block is a dict: one list of candidates per type tag, and the coverage
    dict under the key ["_COVERAGE"]. *)
Inductive bval : Type :=
| BCands (l : list svcand)
| BCov (m : gmap Z Z).

Abbreviation block := (gmap string bval).

(** [{svtype: [] for svtype in sv.TYPES}] followed by
    [block["_COVERAGE"] = {}] *)
Definition new_block : block :=
  <["_COVERAGE" := BCov ∅]> (list_to_map ((fun t => (t, BCands [])) <$> TYPES)).

(** [pickle.dumps] / [pickle.loads], [gzip.compress] / [gzip.decompress];
    a [None] result is a raised exception. *)
Variable pickle_dumps : block -> bytes.
Variable pickle_loads : bytes -> option block.
Variable gzip_compress : bytes -> bytes.
Variable gzip_decompress : bytes -> option bytes.

(** Keys and arguments that may be an integer or a string. *)
Inductive pyval : Type :=
| PInt (z : Z)
| PStr (s : string).

#[export] Instance pyval_eq_dec : EqDecision pyval.
Proof. solve_decision. Defined.

#[export] Instance pyval_countable : Countable pyval.
Proof.
  refine (inj_countable'
            (fun v => match v with PInt z => inl z | PStr s => inr s end)
            (fun x => match x with inl z => PInt z | inr s => PStr s end) _).
  intros []; reflexivity.
Defined.

(** The index.  [write_and_index] stores one [(offset, length)] tuple per
    block id; a header read back from a file nests, per contig, a dict from
    block id to a list of [[offset, length]] pairs. *)
Inductive ival : Type :=
| IRange (r : Z * Z)
| ISub (m : gmap pyval (list (Z * Z))).

Abbreviation index_t := (gmap pyval ival).

(** The header: a dict with an optional ["index"] entry; everything else in
    it is the caller's metadata. *)
Context {Meta : Type}.

Record header_t : Type := {
  index_entry : option index_t;
  metadata : Meta }.

(** [json.loads] on the header line. *)
Variable json_loads : bytes -> option header_t.

(** An open file object. *)
Inductive fmode : Type := RB | WB.

Record device : Type := {
  dev_mode : fmode;
  dev_path : string;
  dev_pos : nat }.

(** An [SNFile] object ([lazy] tells a [LazySNFile]).  [handle = None] is the
    Python value [False]; [header_length = None] is the attribute not being
    set yet. *)
Record snfile : Type := {
  lazy : bool;
  config : config_t;
  handle : option device;
  filename : option string;
  blocks : gmap Z block;
  _header : option header_t;
  _index : option index_t;
  total_length : Z;
  header_length : option Z }.

Definition set_handle (h : option device) (o : snfile) : snfile :=
  {| lazy := lazy o; config := config o; handle := h; filename := filename o;
     blocks := blocks o; _header := _header o; _index := _index o;
     total_length := total_length o; header_length := header_length o |}.

Definition set_blocks (b : gmap Z block) (o : snfile) : snfile :=
  {| lazy := lazy o; config := config o; handle := handle o; filename := filename o;
     blocks := b; _header := _header o; _index := _index o;
     total_length := total_length o; header_length := header_length o |}.

Definition set_header (h : option header_t) (o : snfile) : snfile :=
  {| lazy := lazy o; config := config o; handle := handle o; filename := filename o;
     blocks := blocks o; _header := h; _index := _index o;
     total_length := total_length o; header_length := header_length o |}.

Definition set_index (i : option index_t) (o : snfile) : snfile :=
  {| lazy := lazy o; config := config o; handle := handle o; filename := filename o;
     blocks := blocks o; _header := _header o; _index := i;
     total_length := total_length o; header_length := header_length o |}.

Definition set_total_length (n : Z) (o : snfile) : snfile :=
  {| lazy := lazy o; config := config o; handle := handle o; filename := filename o;
     blocks := blocks o; _header := _header o; _index := _index o;
     total_length := n; header_length := header_length o |}.

Definition set_header_length (n : option Z) (o : snfile) : snfile :=
  {| lazy := lazy o; config := config o; handle := handle o; filename := filename o;
     blocks := blocks o; _header := _header o; _index := _index o;
     total_length := total_length o; header_length := n |}.

(** [LazySNFile.__init__] is inherited. *)
Definition LazySNFile (config0 : config_t) (handle0 : option device)
    (filename0 : option string) : snfile :=
  {| lazy := true; config := config0; handle := handle0; filename := filename0;
     blocks := ∅; _header := None; _index := Some ∅;
     total_length := 0; header_length := None |}.

(** [SNFile.__init__] *)
Definition SNFile (config0 : config_t) (handle0 : option device)
    (filename0 : option string) : snfile :=
  {| lazy := false; config := config0; handle := handle0; filename := filename0;
     blocks := ∅; _header := None; _index := Some ∅;
     total_length := 0; header_length := None |}.

(** ** [SNFile.store] *)

Definition clear_rnames (c : svcand) : svcand :=
  {| oid := oid c; pos := pos c; svtype := svtype c; rnames := None;
     payload := payload c |}.

(** [svcand.rnames = None], seen from an entry of a block: the entry that is
    the object [i] loses its read names. *)
Definition clear_alias (i : nat) (c : svcand) : svcand :=
  if decide (oid c = i) then clear_rnames c else c.

Definition bval_clear (i : nat) (v : bval) : bval :=
  match v with
  | BCands l => BCands (clear_alias i <$> l)
  | BCov m => BCov m
  end.

(** The assignment seen from all the blocks held. *)
Definition clear_aliases (i : nat) (blks : gmap Z block) : gmap Z block :=
  fmap (M := gmap Z) (fmap (M := gmap string) (bval_clear i)) blks.

(** [if block_index not in self.blocks: ...] *)
Definition ensure_block (block_index : Z) : M snfile unit :=
  self <- mget ;;
  mwhen (bool_decide (blocks self !! block_index = None))
        (mput (set_blocks (<[block_index := new_block]> (blocks self)) self)).

(** The object [svcand0] is appended as it is after the assignment
    [svcand.rnames = None] of line 56, which is made on the object itself:
    the entries already held that are this object lose their read names
    with it, also when line 57 raises. *)
Definition store (svcand0 : svcand) : M snfile unit :=
  self <- mget ;;
  q <- int_truediv 51 (pos svcand0) (snf_block_size (config self)) ;;
  let block_index := q * snf_block_size (config self) in
  _ <- ensure_block block_index ;;
  _ <- mwhen (negb (output_rnames (config self)))
             (self <- mget ;;
              mput (set_blocks (clear_aliases (oid svcand0) (blocks self)) self)) ;;
  let svcand1 := if output_rnames (config self) then svcand0 else clear_rnames svcand0 in
  self <- mget ;;
  match blocks self !! block_index with
  | None => mraise KeyError
  | Some blk =>
      match blk !! svtype svcand1 with
      | None => mraise KeyError
      | Some (BCov _) => mraise AttributeError
      | Some (BCands l) =>
          mput (set_blocks
                  (<[block_index := <[svtype svcand1 := BCands (l ++ [svcand1])]> blk]>
                     (blocks self)) self)
      end
  end.

(** ** [SNFile.annotate_block_coverages] *)

(** The loop-carried local variables. *)
Record cov_locals : Type := {
  coverage_fwd : Z;
  coverage_rev : Z;
  coverage_sum : Z;
  bin_count : Z }.

(** Lines 73-80: the running forward and reverse totals, the window sum and
    the window's bin count. *)
Definition cov_accumulate (lead_provider : lead_provider_t) (bin : Z)
    (loc : cov_locals) : cov_locals :=
  let fwd := match covrtab_fwd lead_provider !! bin with
             | Some d => coverage_fwd loc + d
             | None => coverage_fwd loc
             end in
  let rev := match covrtab_rev lead_provider !! bin with
             | Some d => coverage_rev loc + d
             | None => coverage_rev loc
             end in
  {| coverage_fwd := fwd; coverage_rev := rev;
     coverage_sum := coverage_sum loc + (fwd + rev);
     bin_count := bin_count loc + 1 |}.

(** Lines 87-91.  A list under ["_COVERAGE"] is never created by this module;
    item assignment into it is only modelled as failing. *)
Definition attach_coverage (block_index bin v : Z) : M snfile unit :=
  _ <- ensure_block block_index ;;
  self <- mget ;;
  match blocks self !! block_index with
  | None => mraise KeyError
  | Some blk =>
      match blk !! "_COVERAGE" with
      | None => mraise KeyError
      | Some (BCands _) => mraise IndexError
      | Some (BCov m) =>
          mput (set_blocks
                  (<[block_index := <["_COVERAGE" := BCov (<[bin := v]> m)]> blk]>
                     (blocks self)) self)
      end
  end.

(** Lines 82-94. *)
Definition cov_flush (coverage_binsize_combine0 snf_block_size0 : Z) (bin : Z)
    (loc : cov_locals) : M snfile cov_locals :=
  r <- py_mod 82 bin coverage_binsize_combine0 ;;
  if decide (r = 0) then
    q <- int_truediv 83 bin snf_block_size0 ;;
    let block_index := q * snf_block_size0 in
    coverage_total_curr <- ceil_truediv 85 (coverage_sum loc) (bin_count loc) ;;
    _ <- mwhen (bool_decide (0 < coverage_total_curr))
               (attach_coverage block_index bin coverage_total_curr) ;;
    mret {| coverage_fwd := coverage_fwd loc; coverage_rev := coverage_rev loc;
            coverage_sum := 0; bin_count := 0 |}
  else mret loc.

Definition annotate_body (lead_provider : lead_provider_t)
    (coverage_binsize_combine0 snf_block_size0 : Z) (bin : Z) (loc : cov_locals)
    : M snfile cov_locals :=
  cov_flush coverage_binsize_combine0 snf_block_size0 bin
            (cov_accumulate lead_provider bin loc).

Definition cov_init : cov_locals :=
  {| coverage_fwd := 0; coverage_rev := 0; coverage_sum := 0; bin_count := 0 |}.

(** The argument [resolution] is not used by the method. *)
Definition annotate_block_coverages (lead_provider : lead_provider_t)
    (resolution : Z) : M snfile unit :=
  self <- mget ;;
  let config0 := config self in
  let start_bin := covrtab_min_bin lead_provider in
  q <- int_truediv 62 (end_ lead_provider) (coverage_binsize config0) ;;
  let end_bin := q * coverage_binsize config0 in
  let coverage_binsize_combine0 := coverage_binsize_combine config0 in
  let snf_block_size0 := snf_block_size config0 in
  bins <- range start_bin (end_bin + coverage_binsize config0) (coverage_binsize config0) ;;
  _ <- mfor bins (annotate_body lead_provider coverage_binsize_combine0 snf_block_size0)
            cov_init ;;
  mret tt.

(** ** The world: storage, standard output, objects, the registry *)

(** What the two [print] calls of the module write. *)
Inductive report : Type :=
| HeaderError (filename0 : option string) (e : exn)
| BlockError (contig : pyval) (block_index : string) (filename0 : option string) (e : exn).

(** [_ACTIVE] is the class attribute of [LazySNFile]: the registered objects,
    least recently registered first.  Objects are named by their identity. *)
Record world : Type := {
  fs : gmap string bytes;
  stdout : list report;
  heap : nat -> snfile;
  _ACTIVE : list nat }.

Definition set_fs (f : gmap string bytes) (w : world) : world :=
  {| fs := f; stdout := stdout w; heap := heap w; _ACTIVE := _ACTIVE w |}.
Definition set_stdout (l : list report) (w : world) : world :=
  {| fs := fs w; stdout := l; heap := heap w; _ACTIVE := _ACTIVE w |}.
Definition set_heap (h : nat -> snfile) (w : world) : world :=
  {| fs := fs w; stdout := stdout w; heap := h; _ACTIVE := _ACTIVE w |}.
Definition set_ACTIVE (l : list nat) (w : world) : world :=
  {| fs := fs w; stdout := stdout w; heap := heap w; _ACTIVE := l |}.

Definition get_self (self : nat) : M world snfile :=
  fun w => (Ok (heap w self), w).

Definition upd_self (self : nat) (f : snfile -> snfile) : M world unit :=
  fun w => (Ok tt, set_heap (<[self := f (heap w self)]> (heap w)) w).

(** Run a method that only touches its own object. *)
Definition on_self {A} (self : nat) (m : M snfile A) : M world A :=
  fun w => match m (heap w self) with
           | (r, o) => (r, set_heap (<[self := o]> (heap w)) w)
           end.

Definition print (r : report) : M world unit :=
  fun w => (Ok tt, set_stdout (stdout w ++ [r]) w).

(** ** File objects *)

Definition newline : byte := x0a.

Definition is_space (b : byte) : bool :=
  match b with
  | x09 | x0a | x0b | x0c | x0d | x20 => true
  | _ => false
  end.

Fixpoint lstrip (l : bytes) : bytes :=
  match l with
  | [] => []
  | b :: l' => if is_space b then lstrip l' else l
  end.

(** [bytes.strip()] *)
Definition strip (l : bytes) : bytes := rev (lstrip (rev (lstrip l))).

(** The bytes up to and including the first newline. *)
Fixpoint take_line (l : bytes) : bytes :=
  match l with
  | [] => []
  | b :: l' => if Byte.eqb b newline then [b] else b :: take_line l'
  end.

(** Writing [data] at position [p]: a gap past the end is zero-filled. *)
Definition write_at (p : nat) (data content : bytes) : bytes :=
  take p (content ++ replicate (p - length content) x00) ++ data
    ++ drop (p + length data) content.

Definition file_content (w : world) (d : device) : bytes :=
  default [] (fs w !! dev_path d).

Definition set_pos (p : nat) (d : device) : device :=
  {| dev_mode := dev_mode d; dev_path := dev_path d; dev_pos := p |}.

(** [self.handle.write(data)] *)
Definition handle_write (self : nat) (data : bytes) : M world unit :=
  o <- get_self self ;;
  match handle o with
  | None => mraise AttributeError
  | Some d =>
      match dev_mode d with
      | RB => mraise UnsupportedOperation
      | WB =>
          w <- mget ;;
          _ <- mput (set_fs (<[dev_path d := write_at (dev_pos d) data (file_content w d)]>
                              (fs w)) w) ;;
          upd_self self (set_handle (Some (set_pos (dev_pos d + length data) d)))
      end
  end.

(** [self.handle.readline()] *)
Definition handle_readline (self : nat) : M world bytes :=
  o <- get_self self ;;
  match handle o with
  | None => mraise AttributeError
  | Some d =>
      match dev_mode d with
      | WB => mraise UnsupportedOperation
      | RB =>
          w <- mget ;;
          let line := take_line (drop (dev_pos d) (file_content w d)) in
          _ <- upd_self self (set_handle (Some (set_pos (dev_pos d + length line) d))) ;;
          mret line
      end
  end.

(** [self.handle.seek(n)] *)
Definition handle_seek (self : nat) (n : Z) : M world unit :=
  o <- get_self self ;;
  match handle o with
  | None => mraise AttributeError
  | Some d =>
      if decide (n < 0) then mraise OSError
      else upd_self self (set_handle (Some (set_pos (Z.to_nat n) d)))
  end.

(** [self.handle.read(n)]: [-1] reads to the end of the file, a length
    below [-1] is refused. *)
Definition handle_read (self : nat) (n : Z) : M world bytes :=
  o <- get_self self ;;
  match handle o with
  | None => mraise AttributeError
  | Some d =>
      match dev_mode d with
      | WB => mraise UnsupportedOperation
      | RB =>
          if decide (n < -1) then mraise ValueError
          else
          w <- mget ;;
          let rest := drop (dev_pos d) (file_content w d) in
          let data := if decide (n < 0) then rest else take (Z.to_nat n) rest in
          _ <- upd_self self (set_handle (Some (set_pos (dev_pos d + length data) d))) ;;
          mret data
      end
  end.

(** ** [SNFile]: opening, closing, writing *)

Definition is_open (o : snfile) : bool :=
  match handle o with Some _ => true | None => false end.

Definition close (self : nat) : M world unit :=
  o <- get_self self ;;
  mwhen (is_open o) (upd_self self (set_handle None)).

(** [open(self.filename, "rb")] needs a file name and an existing file. *)
Definition open (self : nat) : M world unit :=
  o <- get_self self ;;
  _ <- mwhen (is_open o) (close self) ;;
  match filename o with
  | None => mraise TypeError
  | Some name =>
      w <- mget ;;
      match fs w !! name with
      | None => mraise FileNotFoundError
      | Some _ =>
          upd_self self (set_handle (Some {| dev_mode := RB; dev_path := name; dev_pos := 0 |}))
      end
  end.

(** [if self.config.combine_close_handles: self.close()] *)
Definition close_if_configured (self : nat) : M world unit :=
  o <- get_self self ;;
  mwhen (combine_close_handles (config o)) (close self).

(** [if not self.is_open(): self.open()] *)
Definition ensure_open (self : nat) : M world unit :=
  o <- get_self self ;;
  mwhen (negb (is_open o)) (open self).

Definition serialize_block (self : nat) (block_id : Z) : M world bytes :=
  o <- get_self self ;;
  match blocks o !! block_id with
  | None => mraise KeyError
  | Some blk => mret (pickle_dumps blk)
  end.

Definition unserialize_block (data : bytes) : M world block :=
  match pickle_loads data with
  | None => mraise DecodeError
  | Some blk => mret blk
  end.

(** [sorted(self.blocks)] *)
Definition sorted_block_ids (b : gmap Z block) : list Z :=
  merge_sort Z.le (map_to_list b).*1.

(** The body of the loop of [write_and_index]; [offset] is loop-carried. *)
Definition write_block (self : nat) (block_id : Z) (offset : Z) : M world Z :=
  pickled <- serialize_block self block_id ;;
  let data := gzip_compress pickled in
  _ <- handle_write self data ;;
  let data_len := Z.of_nat (length data) in
  o <- get_self self ;;
  match _index o with
  | None => mraise TypeError
  | Some idx =>
      _ <- upd_self self (set_index (Some (<[PInt block_id := IRange (offset, data_len)]> idx))) ;;
      _ <- upd_self self (fun o => set_total_length (total_length o + data_len) o) ;;
      mret (offset + data_len)
  end.

Definition write_and_index (self : nat) : M world unit :=
  _ <- ensure_open self ;;
  o <- get_self self ;;
  _ <- mfor (sorted_block_ids (blocks o)) (write_block self) 0 ;;
  close_if_configured self.

(** ** [SNFile.read_header] *)

Definition SNFile_read_header (self : nat) : M world unit :=
  _ <- ensure_open self ;;
  _ <- mtry (header_text <- handle_readline self ;;
             _ <- upd_self self (set_header_length (Some (Z.of_nat (length header_text)))) ;;
             match json_loads (strip header_text) with
             | None => mraise DecodeError
             | Some h => upd_self self (set_header (Some h))
             end)
            (fun e => o <- get_self self ;;
                      _ <- print (HeaderError (filename o) e) ;;
                      mraise e) ;;
  o <- get_self self ;;
  _ <- match _header o with
       | None => mraise TypeError
       | Some h =>
           match index_entry h with
           | None => mraise KeyError
           | Some idx => upd_self self (set_index (Some idx))
           end
       end ;;
  close_if_configured self.

(** ** [LazySNFile] *)

Definition _MAX_ACTIVE : nat := 50.

(** [OrderedDict.move_to_end] *)
Definition move_to_end (self : nat) (l : list nat) : list nat :=
  filter (fun x => x <> self) l ++ [self].

Definition unload (self : nat) : M world unit :=
  w <- mget ;;
  _ <- mwhen (bool_decide (self ∈ _ACTIVE w))
             (mput (set_ACTIVE (filter (fun x => x <> self) (_ACTIVE w)) w)) ;;
  _ <- upd_self self (set_header None) ;;
  upd_self self (set_index None).

(** Lines 211-218: register [self] as most recently used, then evict the
    least recently used object when the registry has grown past the cap. *)
Definition registry_touch (self : nat) : M world unit :=
  w <- mget ;;
  _ <- (if bool_decide (self ∈ _ACTIVE w)
        then mput (set_ACTIVE (move_to_end self (_ACTIVE w)) w)
        else mput (set_ACTIVE (_ACTIVE w ++ [self]) w)) ;;
  w <- mget ;;
  mwhen (bool_decide (_MAX_ACTIVE < length (_ACTIVE w))%nat)
        match _ACTIVE w with
        | [] => mraise KeyError
        | oldest_snf :: rest =>
            _ <- mput (set_ACTIVE rest w) ;;
            unload oldest_snf
        end.

Definition LazySNFile_read_header (self : nat) : M world unit :=
  _ <- registry_touch self ;;
  o <- get_self self ;;
  _ <- mwhen (is_open o) (handle_seek self 0) ;;
  SNFile_read_header self.

(** Method dispatch on the class of the object. *)
Definition read_header (self : nat) : M world unit :=
  o <- get_self self ;;
  if lazy o then LazySNFile_read_header self else SNFile_read_header self.

(** The property [index]. *)
Definition index (self : nat) : M world (option index_t) :=
  o <- get_self self ;;
  _ <- mwhen (lazy o && bool_decide (_header o = None)) (read_header self) ;;
  o <- get_self self ;;
  mret (_index o).

(** The property [header]. *)
Definition header (self : nat) : M world (option header_t) :=
  o <- get_self self ;;
  _ <- mwhen (lazy o && bool_decide (_header o = None)) (read_header self) ;;
  o <- get_self self ;;
  mret (_header o).

(** ** [SNFile.read_blocks] *)

(** [str(v)] *)
Definition py_str (v : pyval) : string :=
  match v with
  | PInt z => pretty z
  | PStr s => s
  end.

(** The [try] body of the loop: seek, read, decompress, unpickle. *)
Definition read_range (self : nat) (block_data_start block_data_length : Z)
    : M world block :=
  o <- get_self self ;;
  match header_length o with
  | None => mraise AttributeError
  | Some hl =>
      _ <- handle_seek self (hl + block_data_start) ;;
      raw <- handle_read self block_data_length ;;
      match gzip_decompress raw with
      | None => mraise DecodeError
      | Some data => unserialize_block data
      end
  end.

(** One iteration of the loop; [blocks0] is the list being built. *)
Definition read_blocks_body (self : nat) (contig : pyval) (block_index : string)
    (range0 : Z * Z) (blocks0 : list block) : M world (list block) :=
  mtry (blk <- read_range self (fst range0) (snd range0) ;;
        mret (blocks0 ++ [blk]))
       (fun e => o <- get_self self ;;
                 _ <- print (BlockError contig block_index (filename o) e) ;;
                 _ <- close_if_configured self ;;
                 mraise e).

(** [self.index[contig]], evaluated through the property [index]. *)
Definition index_getitem (self : nat) (contig : pyval) : M world ival :=
  idx <- index self ;;
  match idx with
  | None => mraise TypeError
  | Some idx =>
      match idx !! contig with
      | None => mraise KeyError
      | Some v => mret v
      end
  end.

(** The property [index] is evaluated three times, as in the source.  A tuple
    stored by [write_and_index] holds two integers, so no string is [in] it,
    and it cannot be subscripted by a string. *)
Definition read_blocks (self : nat) (contig block_index0 : pyval)
    : M world (option (list block)) :=
  _ <- ensure_open self ;;
  let block_index := py_str block_index0 in
  idx <- index self ;;
  match idx with
  | None => mraise TypeError
  | Some idx =>
      if bool_decide (idx !! contig = None)
      then _ <- close_if_configured self ;; mret None
      else
        entry <- index_getitem self contig ;;
        let absent := match entry with
                      | IRange _ => true
                      | ISub sub => bool_decide (sub !! PStr block_index = None)
                      end in
        if absent
        then _ <- close_if_configured self ;; mret None
        else
          entry <- index_getitem self contig ;;
          match entry with
          | IRange _ => mraise TypeError
          | ISub sub =>
              match sub !! PStr block_index with
              | None => mraise KeyError
              | Some ranges =>
                  blocks0 <- mfor ranges (read_blocks_body self contig block_index) [] ;;
                  _ <- close_if_configured self ;;
                  mret (Some blocks0)
              end
          end
  end.

End Store.

(** ** Coverage windows, as the specification describes them *)

Section CoverageSpec.

Context {Payload : Type}.
Variable TYPES : list string.

Local Abbreviation block := (gmap string (@bval Payload)).

(** The entry of a depth table at a bin; a missing entry counts as [0]. *)
Definition table_get (t : gmap Z Z) (bin : Z) : Z := default 0 (t !! bin).

Definition table_entry (lp : lead_provider_t) (bin : Z) : Z :=
  table_get (covrtab_fwd lp) bin + table_get (covrtab_rev lp) bin.

Definition sum_Z (l : list Z) : Z := foldr Z.add 0 l.

(** The running forward+reverse total once the bins [walked] have been
    walked: the sum of their table entries. *)
Definition running_total (lp : lead_provider_t) (walked : list Z) : Z :=
  sum_Z (table_entry lp <$> walked).

(** Every walked bin with the running total at that bin. *)
Definition depths (lp : lead_provider_t) (bins : list Z) : list (Z * Z) :=
  imap (fun i bin => (bin, running_total lp (take (S i) bins))) bins.

(** The same pairs, computed by one pass that carries the total [t]. *)
Fixpoint scan_from (lp : lead_provider_t) (t : Z) (bins : list Z) : list (Z * Z) :=
  match bins with
  | [] => []
  | bin :: rest =>
      let t' := t + table_entry lp bin in
      (bin, t') :: scan_from lp t' rest
  end.

(** The walk cut into windows: a window is closed by a bin divisible by [R];
    [cur] is the window being filled.  Bins after the last divisible one
    form no window. *)
Fixpoint windows_from (R : Z) (cur : list (Z * Z)) (l : list (Z * Z))
    : list (list (Z * Z)) :=
  match l with
  | [] => []
  | e :: l' =>
      if decide (e.1 mod R = 0) then (cur ++ [e]) :: windows_from R [] l'
      else windows_from R (cur ++ [e]) l'
  end.

Definition windows (R : Z) (l : list (Z * Z)) : list (list (Z * Z)) :=
  windows_from R [] l.

(** The bin that closes a window. *)
Definition window_bin (w : list (Z * Z)) : Z :=
  match last w with Some e => e.1 | None => 0 end.

(** The value the method computes for a window: the sum of the running
    totals divided by their number as doubles, then the ceiling. *)
Definition window_value (w : list (Z * Z)) : Z :=
  truediv_ceil (sum_Z (w.*2)) (Z.of_nat (length w)).

(** The entries attached: one per window with a positive value. *)
Definition emissions (R : Z) (lp : lead_provider_t) (bins : list Z) : list (Z * Z) :=
  filter (fun e => 0 < e.2)
         ((fun w => (window_bin w, window_value w)) <$> windows R (depths lp bins)).

Definition coverage_of (blk : block) : gmap Z Z :=
  match blk !! "_COVERAGE" with
  | Some (BCov m) => m
  | _ => ∅
  end.

(** Attaching one entry to the block of its bin, the block being created
    when it is absent. *)
Definition attach (block_size : Z) (blks : gmap Z block) (e : Z * Z) : gmap Z block :=
  let block_index := truediv_int e.1 block_size * block_size in
  let blk := default (new_block TYPES) (blks !! block_index) in
  <[block_index := <["_COVERAGE" := BCov (<[e.1 := e.2]> (coverage_of blk))]> blk]> blks.

(** Every block carries its coverage dict. *)
Definition blocks_wf (blks : gmap Z block) : Prop :=
  forall i blk, blks !! i = Some blk -> exists m, blk !! "_COVERAGE" = Some (BCov m).


(** The bins the method walks. *)
Definition walked_bins (cfg : config_t) (lp : lead_provider_t) : list Z :=
  py_range (covrtab_min_bin lp)
           (truediv_int (end_ lp) (coverage_binsize cfg) * coverage_binsize cfg
            + coverage_binsize cfg)
           (coverage_binsize cfg).


End CoverageSpec.

(** ** Grouping of stored candidates, as the specification describes it *)

Section StoreSpec.

Context {Payload Meta : Type}.
Variable TYPES : list string.

Local Abbreviation block := (gmap string (@bval Payload)).

(** A caller storing candidates one after another. *)
Definition store_all (cands : list svcand) : M (@snfile Payload Meta) unit :=
  mfor cands (fun c _ => store TYPES c) tt.

(** The block id of a position: [floor(position / block_size) * block_size]. *)
Definition block_id_of (block_size position : Z) : Z :=
  position / block_size * block_size.

(** The candidate as it is held: its read names are absent when read-name
    output is disabled, and its own otherwise. *)
Definition stored_form (cfg : config_t) (c : @svcand Payload) : svcand :=
  {| oid := oid c; pos := pos c; svtype := svtype c;
     rnames := if output_rnames cfg then rnames c else None;
     payload := payload c |}.

(** An entry none of whose candidates has read names. *)
Definition cleared_bval (v : @bval Payload) : Prop :=
  match v with
  | BCands l => Forall (fun c => rnames c = None) l
  | BCov _ => True
  end.

(** Two candidates with the same attributes; their identities may differ. *)
Definition same_cand (c c' : @svcand Payload) : Prop :=
  pos c = pos c' /\ svtype c = svtype c' /\ rnames c = rnames c' /\
  payload c = payload c'.

Definition same_bval (v v' : @bval Payload) : Prop :=
  match v, v' with
  | BCands l, BCands l' => Forall2 same_cand l l'
  | BCov m, BCov m' => m = m'
  | _, _ => False
  end.

(** Two blocks with the same keys and, under each key, the same coverage dict
    or candidates with the same attributes in the same order. *)
Definition same_block (b b' : block) : Prop :=
  forall k, option_Forall2 same_bval (b !! k) (b' !! k).

(** The candidates of one block and one type tag, in insertion order. *)
Definition group (cfg : config_t) (cands : list (@svcand Payload)) (block_id : Z)
    (t : string) : list svcand :=
  filter (fun c => block_id_of (snf_block_size cfg) (pos c) = block_id /\ svtype c = t)
         (stored_form cfg <$> cands).

(** The block the candidates of [cands] with this block id make up. *)
Definition grouped_block (cfg : config_t) (cands : list (@svcand Payload))
    (block_id : Z) : block :=
  <["_COVERAGE" := BCov ∅]>
    (list_to_map ((fun t => (t, BCands (group cfg cands block_id t))) <$> TYPES)).

(** A block exists once a candidate falls into it. *)
Definition expected_block (cfg : config_t) (cands : list (@svcand Payload))
    (block_id : Z) : option block :=
  if decide (Exists (fun c => block_id_of (snf_block_size cfg) (pos c) = block_id) cands)
  then Some (grouped_block cfg cands block_id)
  else None.

(** The blocks buffered by storing [cands] into a new object. *)
Definition buffered (cfg : config_t) (cands : list (@svcand Payload)) : gmap Z block :=
  blocks (snd (store_all cands (SNFile cfg None None))).

End StoreSpec.

(** ** What a write pass leaves behind *)

Section WriterSpec.

Context {Payload : Type}.
Variable pickle_dumps : gmap string (@bval Payload) -> bytes.
Variable gzip_compress : bytes -> bytes.

Local Abbreviation block := (gmap string (@bval Payload)).

(** The compressed payload of a buffered block. *)
Definition block_payload (blks : gmap Z block) (block_id : Z) : bytes :=
  match blks !! block_id with
  | Some blk => gzip_compress (pickle_dumps blk)
  | None => []
  end.

Definition payload_len (blks : gmap Z block) (block_id : Z) : Z :=
  Z.of_nat (length (block_payload blks block_id)).

(** The file body: the payloads of the given block ids, one after another. *)
Definition body_of (blks : gmap Z block) (ids : list Z) : bytes :=
  concat (block_payload blks <$> ids).

(** The sum of the compressed lengths of all blocks with a smaller id. *)
Definition offset_of (blks : gmap Z block) (block_id : Z) : Z :=
  sum_Z (payload_len blks <$> filter (fun i => i < block_id) (map_to_list blks).*1).

(** The index entries a pass over [ids] records, starting at [offset]. *)
Fixpoint index_entries (blks : gmap Z block) (ids : list Z) (offset : Z)
    : list (Z * (Z * Z)) :=
  match ids with
  | [] => []
  | i :: ids' =>
      (i, (offset, payload_len blks i))
        :: index_entries blks ids' (offset + payload_len blks i)
  end.

Definition record_entries (idx : gmap pyval ival) (es : list (Z * (Z * Z)))
    : gmap pyval ival :=
  foldl (fun m e => <[PInt e.1 := IRange e.2]> m) idx es.

(** What a method leaves untouched besides its own object and storage. *)
Definition frame {Meta : Type} (self : nat) (w w' : @world Payload Meta) : Prop :=
  stdout w' = stdout w /\ _ACTIVE w' = _ACTIVE w /\
  forall i, i <> self -> heap w' i = heap w i.

End WriterSpec.

(** ** What a read finds *)

Section ReaderSpec.

Context {Payload Meta : Type}.
Variable pickle_loads : bytes -> option (gmap string (@bval Payload)).
Variable gzip_decompress : bytes -> option bytes.
Variable json_loads : bytes -> option (@header_t Meta).

Local Abbreviation block := (gmap string (@bval Payload)).
Local Abbreviation snfile := (@snfile Payload Meta).
Local Abbreviation world := (@world Payload Meta).

(** The file object a method works with once [if not self.is_open():
    self.open()] has run; [None] when [open] raises. *)
Definition opened_device (w : world) (o : snfile) : option device :=
  match handle o with
  | Some d => Some d
  | None =>
      match filename o with
      | Some name =>
          match fs w !! name with
          | Some _ => Some {| dev_mode := RB; dev_path := name; dev_pos := 0 |}
          | None => None
          end
      | None => None
      end
  end.

(** The outcome of reading one range out of a file whose header is [hl]
    bytes long: seeking before the start of the file is an [OSError], a
    length below [-1] a [ValueError], the length [-1] reads to the end. *)
Definition decode_range (content : bytes) (hl : Z) (r : Z * Z) : result block :=
  if decide (hl + r.1 < 0) then Raise OSError
  else if decide (r.2 < -1) then Raise ValueError
  else
    let rest := drop (Z.to_nat (hl + r.1)) content in
    let raw := if decide (r.2 < 0) then rest else take (Z.to_nat r.2) rest in
    match gzip_decompress raw with
    | None => Raise DecodeError
    | Some data =>
        match pickle_loads data with
        | None => Raise DecodeError
        | Some blk => Ok blk
        end
    end.

(** The outcome of the loop over the ranges of one block id: the blocks in
    index order, or the first failure. *)
Fixpoint decode_all (content : bytes) (hl : Z) (ranges : list (Z * Z))
    (acc : list block) : result (list block) :=
  match ranges with
  | [] => Ok acc
  | r :: ranges' =>
      match decode_range content hl r with
      | Ok blk => decode_all content hl ranges' (acc ++ [blk])
      | Raise e => Raise e
      end
  end.

(** What a failed read prints. *)
Definition failure_report {A} (contig : pyval) (block_index : string)
    (filename0 : option string) (r : result A) : list report :=
  match r with
  | Ok _ => []
  | Raise e => [BlockError contig block_index filename0 e]
  end.

(** The object holds an open, readable file object on [path] and knows the
    length of the header. *)
Definition reader_ready (self : nat) (w : world) (path : string) (hl : Z) : Prop :=
  exists d, handle (heap w self) = Some d /\ dev_mode d = RB /\ dev_path d = path /\
            header_length (heap w self) = Some hl.

(** The index has nothing for this contig and block id. *)
Definition index_lacks (idx : gmap pyval ival) (contig : pyval) (block_index : string)
    : Prop :=
  match idx !! contig with
  | None => True
  | Some (IRange _) => True
  | Some (ISub sub) => sub !! PStr block_index = None
  end.

(** The object answers from the state it holds: it is no [LazySNFile], or
    its header is loaded. *)
Definition resident (o : snfile) : Prop :=
  lazy o = false \/ is_Some (_header o).

(** A file that starts with one header record: a line ending in a newline
    that parses to a header holding an index, followed by [body]. *)
Definition begins_with_header (file body : bytes) : Prop :=
  exists header_text h idx,
    file = header_text ++ body /\
    last header_text = Some newline /\
    json_loads (strip header_text) = Some h /\
    index_entry h = Some idx.

End ReaderSpec.

(** ** Writing a file and reading it back *)

Section RoundTripSpec.

Context {Payload Meta : Type}.
Variable TYPES : list string.
Variable pickle_dumps : gmap string (@bval Payload) -> bytes.
Variable pickle_loads : bytes -> option (gmap string (@bval Payload)).
Variable gzip_compress : bytes -> bytes.
Variable gzip_decompress : bytes -> option bytes.
Variable json_loads : bytes -> option (@header_t Meta).

(** [json.dumps] on a header. *)
Variable json_dumps : @header_t Meta -> bytes.

Local Abbreviation block := (gmap string (@bval Payload)).
Local Abbreviation world := (@world Payload Meta).

(** Modelled from the spec: the entries of the index "contig -> block id ->
    ordered list of [offset, length] pairs" for one contig.  The code that
    builds the header is not in [snf.py]; [write_and_index] only leaves one
    (offset, length) tuple per integer block id.  Each such tuple becomes a
    one-element list, under the block id written as a string, which is how a
    JSON object keys it. *)
Definition nested_entries (idx : gmap pyval ival) : list (pyval * list (Z * Z)) :=
  omap (fun e : pyval * ival =>
          match e with
          | (PInt b, IRange r) => Some (PStr (pretty b), [r])
          | _ => None
          end)
       (map_to_list idx).

(** Modelled from the spec: the index of a header, for one contig. *)
Definition nested_index (contig : pyval) (idx : gmap pyval ival) : gmap pyval ival :=
  {[ contig := ISub (list_to_map (nested_entries idx)) ]}.

(** Modelled from the spec: the header record, "index plus any externally
    supplied metadata". *)
Definition header_of (contig : pyval) (meta : Meta) (idx : gmap pyval ival)
    : @header_t Meta :=
  {| index_entry := Some (nested_index contig idx); metadata := meta |}.

(** Modelled from the spec: "materialize the header record and prepend it as
    the first record of the file": the file [out] is the header line,
    newline-terminated, followed by the body the writer [wr] has written to
    its own file.  This step is missing from [snf.py]. *)
Definition assemble_snf (wr : nat) (contig : pyval) (meta : Meta) (out : string)
    : M world unit :=
  o <- get_self wr ;;
  match _index o, filename o with
  | Some idx, Some part =>
      w <- mget ;;
      mput (set_fs (<[out := json_dumps (header_of contig meta idx) ++ [newline]
                              ++ default [] (fs w !! part)]> (fs w)) w)
  | _, _ => mraise TypeError
  end.

(** Store the candidates, flush, assemble the file, reopen it with another
    object and read one block id. *)
Definition round_trip (wr rd : nat) (contig : pyval) (meta : Meta) (out : string)
    (cands : list (@svcand Payload)) (block_index : pyval)
    : M world (option (list block)) :=
  _ <- on_self wr (store_all TYPES cands) ;;
  _ <- write_and_index pickle_dumps gzip_compress wr ;;
  _ <- assemble_snf wr contig meta out ;;
  _ <- read_header json_loads rd ;;
  read_blocks pickle_loads gzip_decompress json_loads rd contig block_index.

(** The index [write_and_index] builds for these blocks, starting from the
    empty index of a new object. *)
Definition flat_index (blks : gmap Z block) : gmap pyval ival :=
  record_entries ∅ (index_entries pickle_dumps gzip_compress blks (sorted_block_ids blks) 0).

End RoundTripSpec.

(** ** Sequences of accesses to lazy handles *)

Section RegistrySpec.

Context {Payload Meta : Type}.
Variable json_loads : bytes -> option (@header_t Meta).

Local Abbreviation snfile := (@snfile Payload Meta).
Local Abbreviation world := (@world Payload Meta).

(** What a caller can do to the header and index of a handle. *)
Inductive lazy_op : Type :=
| GetIndex (self : nat)
| GetHeader (self : nat)
| ReadHeader (self : nat)
| Unload (self : nat).

(** [unload] is a method of [LazySNFile] only. *)
Definition run_op (op : lazy_op) : M world unit :=
  match op with
  | GetIndex self => _ <- index json_loads self ;; mret tt
  | GetHeader self => _ <- header json_loads self ;; mret tt
  | ReadHeader self => read_header json_loads self
  | Unload self =>
      o <- get_self self ;;
      if lazy o then unload self else mraise AttributeError
  end.

(** The operations run one after another; an operation that raises leaves
    its state changes behind and the next one runs all the same. *)
Fixpoint run_ops (ops : list lazy_op) (w : world) : world :=
  match ops with
  | [] => w
  | op :: ops' => run_ops ops' (snd (run_op op w))
  end.

(** The object holds header or index data: a header, or an index that is
    not the empty dict [__init__] sets. *)
Definition holds_data (o : snfile) : Prop :=
  is_Some (_header o) \/ exists idx, _index o = Some idx /\ idx <> ∅.

(** The registry is within the cap, names no object twice, and names every
    lazy handle that holds data. *)
Definition registry_inv (w : world) : Prop :=
  (length (_ACTIVE w) <= _MAX_ACTIVE)%nat /\
  NoDup (_ACTIVE w) /\
  forall i, lazy (heap w i) = true -> holds_data (heap w i) -> i ∈ _ACTIVE w.

(** The state of an object once unloaded. *)
Definition unloaded (o : snfile) : snfile := set_index None (set_header None o).

(** A monadic action that leaves the registry, every object but [self] and
    the class of [self] as they are, whatever its outcome. *)
Definition only_self {A} (self : nat) (m : M world A) : Prop :=
  forall w r w', m w = (r, w') ->
    _ACTIVE w' = _ACTIVE w /\
    (forall i, i <> self -> heap w' i = heap w i) /\
    lazy (heap w' self) = lazy (heap w self).

End RegistrySpec.

(** ** The aggregator as a whole *)

Section AggregatorSpec.

Context {Payload Meta : Type}.
Variable TYPES : list string.

Local Abbreviation block := (gmap string (@bval Payload)).

(** The shape of the blocks [store] and [annotate_block_coverages] create:
    the coverage dict under ["_COVERAGE"], one candidate list under every
    other tag of [TYPES], and no other key. *)
Definition block_typed (blk : block) : Prop :=
  (exists m, blk !! "_COVERAGE" = Some (BCov m)) /\
  forall t, t <> "_COVERAGE" ->
            (t ∈ TYPES -> exists l, blk !! t = Some (BCands l)) /\
            (t ∉ TYPES -> blk !! t = None).

Definition blocks_typed (blks : gmap Z block) : Prop :=
  forall i blk, blks !! i = Some blk -> block_typed blk.

(** The entry of a block under a key, an absent block counting as a new
    one. *)
Definition entry_at (blks : gmap Z block) (block_id : Z) (key : string) : option bval :=
  default (new_block TYPES) (blks !! block_id) !! key.

(** The candidates a block holds under a tag. *)
Definition cands_of (blk : block) (t : string) : list (@svcand Payload) :=
  match blk !! t with
  | Some (BCands l) => l
  | _ => []
  end.

(** Lines 52-54 on the blocks. *)
Definition create_block (block_index : Z) (blks : gmap Z block) : gmap Z block :=
  <[block_index := default (new_block TYPES) (blks !! block_index)]> blks.

(** Line 57 on the blocks, for a tag that holds a list. *)
Definition append_cand (block_index : Z) (c : @svcand Payload) (blks : gmap Z block)
    : gmap Z block :=
  let blk := default (new_block TYPES) (blks !! block_index) in
  <[block_index := <[svtype c := BCands (cands_of blk (svtype c) ++ [c])]> blk]> blks.

(** What lines 51-57 do to the blocks when nothing fails: the block of the
    candidate's position is created when it is absent; unless read names are
    to be output the candidate loses them, and with it every entry that is
    the same object; the candidate is appended to the list of its tag in its
    block. *)
Definition store_blocks (cfg : config_t) (c : @svcand Payload) (blks : gmap Z block)
    : gmap Z block :=
  let block_index := truediv_int (pos c) (snf_block_size cfg) * snf_block_size cfg in
  let c1 := if output_rnames cfg then c else clear_rnames c in
  let created := create_block block_index blks in
  let held := if output_rnames cfg then created else clear_aliases (oid c) created in
  append_cand block_index c1 held.

(** The calls of the producer interface that fill the blocks. *)
Inductive agg_op : Type :=
| Store (c : @svcand Payload)
| Annotate (lead_provider : lead_provider_t) (resolution : Z).

Definition run_agg_op (op : agg_op) : M (@snfile Payload Meta) unit :=
  match op with
  | Store c => store TYPES c
  | Annotate lp resolution => annotate_block_coverages TYPES lp resolution
  end.

(** The calls run one after another; a call that raises leaves its state
    changes behind and the next one runs all the same. *)
Fixpoint run_agg (ops : list agg_op) (o : @snfile Payload Meta) : @snfile Payload Meta :=
  match ops with
  | [] => o
  | op :: ops' => run_agg ops' (snd (run_agg_op op o))
  end.

End AggregatorSpec.

(** ** The remaining accessors of [SNFile] *)

Section Accessors.

Context {Payload Meta : Type}.
Variable pickle_loads : bytes -> option (gmap string (@bval Payload)).
Variable gzip_decompress : bytes -> option bytes.
Variable json_loads : bytes -> option (@header_t Meta).

(** The order in which a dict of the index yields its keys; a [gmap] does
    not carry it. *)
Variable dict_keys : gmap pyval (list (Z * Z)) -> list pyval.

Local Abbreviation block := (gmap string (@bval Payload)).
Local Abbreviation snfile := (@snfile Payload Meta).
Local Abbreviation world := (@world Payload Meta).

Definition get_index (self : nat) : M world (option (gmap pyval ival)) :=
  index json_loads self.

Definition get_total_length (self : nat) : M world Z :=
  o <- get_self self ;;
  mret (total_length o).

(** [blocks[block_start] = v] on a dict kept in insertion order. *)
Definition dict_setitem (k : pyval) (v : block) (d : list (pyval * block))
    : list (pyval * block) :=
  if bool_decide (k ∈ d.*1)
  then (fun e => if bool_decide (e.1 = k) then (k, v) else e) <$> d
  else d ++ [(k, v)].

(** Line 173: [None[0]] is a [TypeError], [[][0]] an [IndexError]. *)
Definition get_all_blocks_body (self : nat) (contig : pyval) (block_start : pyval)
    (blocks0 : list (pyval * block)) : M world (list (pyval * block)) :=
  found <- read_blocks pickle_loads gzip_decompress json_loads self contig block_start ;;
  match found with
  | None => mraise TypeError
  | Some [] => mraise IndexError
  | Some (blk :: _) => mret (dict_setitem block_start blk blocks0)
  end.

(** The tuple [write_and_index] stores has no [keys]. *)
Definition get_all_blocks (self : nat) (contig : pyval) : M world (list (pyval * block)) :=
  entry <- index_getitem json_loads self contig ;;
  match entry with
  | IRange _ => mraise AttributeError
  | ISub sub => mfor (dict_keys sub) (get_all_blocks_body self contig) []
  end.

(** [coverage.update(b['_COVERAGE'])]: the entries of the argument win.  A
    list of candidates is no sequence of pairs unless it is empty. *)
Definition coverage_update (b : block) (coverage : gmap Z Z) : M world (gmap Z Z) :=
  match b !! "_COVERAGE" with
  | None => mraise KeyError
  | Some (BCov m) => mret (m ∪ coverage)
  | Some (BCands []) => mret coverage
  | Some (BCands (_ :: _)) => mraise TypeError
  end.

Definition get_full_coverage (self : nat) (contig : pyval) : M world (gmap Z Z) :=
  blocks0 <- get_all_blocks self contig ;;
  mfor (blocks0.*2) coverage_update ∅.

End Accessors.

(** ** Reading every block of a contig *)

Section AccessorSpec.

Context {Payload Meta : Type}.
Variable pickle_loads : bytes -> option (gmap string (@bval Payload)).
Variable gzip_decompress : bytes -> option bytes.

Local Abbreviation block := (gmap string (@bval Payload)).
Local Abbreviation snfile := (@snfile Payload Meta).
Local Abbreviation world := (@world Payload Meta).

(** The object answers from the index [idx] it holds, knows the header
    length, and its file exists; its handle is closed, or open for reading
    on that file. *)
Definition reader_state (self : nat) (w : world) (path : string) (hl : Z)
    (idx : gmap pyval ival) : Prop :=
  let o := heap w self in
  resident o /\ _index o = Some idx /\ header_length o = Some hl /\
  filename o = Some path /\ is_Some (fs w !! path) /\
  (handle o = None \/
   exists d, handle o = Some d /\ dev_mode d = RB /\ dev_path d = path).

(** What the loop of [get_all_blocks] computes over the keys [keys] for a
    file of content [content]: every range of every key is decoded, the
    first block of each key is kept. *)
Fixpoint first_blocks (content : bytes) (hl : Z) (sub : gmap pyval (list (Z * Z)))
    (keys : list pyval) (acc : list (pyval * block)) : result (list (pyval * block)) :=
  match keys with
  | [] => Ok acc
  | k :: keys' =>
      match sub !! PStr (py_str k) with
      | None => Raise TypeError
      | Some ranges =>
          match decode_all pickle_loads gzip_decompress content hl ranges [] with
          | Raise e => Raise e
          | Ok [] => Raise IndexError
          | Ok (blk :: _) => first_blocks content hl sub keys' (dict_setitem k blk acc)
          end
      end
  end.

(** The union of coverage dicts, a later one winning over an earlier. *)
Definition merge_coverage (covs : list (gmap Z Z)) : gmap Z Z :=
  foldl (fun acc m => m ∪ acc) ∅ covs.

End AccessorSpec.

(** * Concrete inputs *)

(** The SV type tags of Sniffles2. *)
Definition sv_TYPES : list string := ["INS"; "DEL"; "DUP"; "INV"; "BND"].

(** A depth source with a single table entry: 5 forward reads start in bin 0
    and none ends before bin 500. *)
Definition cov_cfg : config_t :=
  {| snf_block_size := 1000; coverage_binsize := 100; coverage_binsize_combine := 500;
     output_rnames := false; combine_close_handles := false |}.

Definition cov_lp : lead_provider_t :=
  {| covrtab_min_bin := 0; end_ := 500; covrtab_fwd := {[ 0 := 5 ]}; covrtab_rev := ∅ |}.

Definition cov_obj : @snfile unit unit := SNFile cov_cfg None None.


(** Three candidates at positions 100, 250 and 1100 with the tags A, A, B,
    block size 1000, read-name output disabled. *)
Definition ex_TYPES : list string := ["A"; "B"].

Definition ex_cfg : config_t :=
  {| snf_block_size := 1000; coverage_binsize := 100; coverage_binsize_combine := 500;
     output_rnames := false; combine_close_handles := true |}.

Definition ex_cand (p : Z) (t : string) : @svcand unit :=
  {| oid := Z.to_nat p; pos := p; svtype := t; rnames := Some ["read1"]; payload := tt |}.

Definition ex_cands : list (@svcand unit) :=
  [ex_cand 100 "A"; ex_cand 250 "A"; ex_cand 1100 "B"].

Definition ex_block0 : gmap string (@bval unit) :=
  grouped_block ex_TYPES ex_cfg ex_cands 0.

Definition ex_block1000 : gmap string (@bval unit) :=
  grouped_block ex_TYPES ex_cfg ex_cands 1000.

(** Stand-ins for the codecs, exact on the two blocks and the one header of
    this example: a pickle of one byte, a compressor that prepends the gzip
    magic number, a header rendered as [{}]. *)
Definition toy_dumps (blk : gmap string (@bval unit)) : bytes :=
  match blk !! "A" with
  | Some (BCands (_ :: _)) => [x00]
  | _ => [x01]
  end.

Definition toy_loads (data : bytes) : option (gmap string (@bval unit)) :=
  match data with
  | [x00] => Some ex_block0
  | [x01] => Some ex_block1000
  | _ => None
  end.

Definition toy_compress (l : bytes) : bytes := x1f :: x8b :: l.

Definition toy_decompress (l : bytes) : option bytes :=
  match l with
  | x1f :: x8b :: l' => Some l'
  | _ => None
  end.

Definition ex_contig : pyval := PStr "chr1".

Definition ex_header : @header_t unit :=
  header_of ex_contig tt
    (flat_index toy_dumps toy_compress (@buffered unit unit ex_TYPES ex_cfg ex_cands)).

Definition toy_json_dumps (h : @header_t unit) : bytes := [x7b; x7d].

Definition toy_json_loads (l : bytes) : option (@header_t unit) :=
  match l with
  | [x7b; x7d] => Some ex_header
  | _ => None
  end.

(** Object 0 writes ["part.snf"] through an open handle; object 1 will read
    ["out.snf"]. *)
Definition ex_writer : @snfile unit unit :=
  SNFile ex_cfg (Some {| dev_mode := WB; dev_path := "part.snf"; dev_pos := 0 |})
         (Some "part.snf").

Definition ex_reader : @snfile unit unit := SNFile ex_cfg None (Some "out.snf").

Definition ex_world : @world unit unit :=
  {| fs := {[ "part.snf" := [] ]};
     stdout := [];
     heap := fun i => match i with O => ex_writer | _ => ex_reader end;
     _ACTIVE := [] |}.

(** The example once the three candidates are stored. *)
Definition ex_stored : @world unit unit :=
  snd (on_self 0 (store_all ex_TYPES ex_cands) ex_world).

(** The two payloads of the example, one after the other. *)
Definition ex_body : bytes := [x1f; x8b; x00; x1f; x8b; x01].

Definition ex_wdev : device := {| dev_mode := WB; dev_path := "part.snf"; dev_pos := 0 |}.

(** The writer of the example once [write_and_index] has run. *)
Definition ex_written : @world unit unit :=
  snd (write_and_index toy_dumps toy_compress 0 ex_stored).

(** The reader of the example once the file is assembled and its header is
    read. *)
Definition ex_reopened : @world unit unit :=
  snd ((_ <- assemble_snf toy_json_dumps 0 ex_contig tt "out.snf" ;;
        read_header toy_json_loads 1) ex_written).

(** A file whose block 0 has two ranges, the second one not a gzip stream,
    and a reader that has loaded its header. *)
Definition bad_index : gmap pyval ival :=
  {[ ex_contig := ISub {[ PStr "0" := [(0, 3); (3, 2)] ]} ]}.

Definition bad_reader : @snfile unit unit :=
  set_header_length (Some 3) (set_index (Some bad_index) (SNFile ex_cfg None (Some "bad.snf"))).

Definition bad_world : @world unit unit :=
  {| fs := {[ "bad.snf" := [x7b; x7d; x0a; x1f; x8b; x00; xff; xff] ]};
     stdout := [];
     heap := fun _ => bad_reader;
     _ACTIVE := [] |}.

Definition ex_rdev (name : string) : device :=
  {| dev_mode := RB; dev_path := name; dev_pos := 0 |}.

(** Lazy handles on a file that holds a header line; the registry is full:
    it holds the objects 0 to 49. *)
Definition lazy_world : @world unit unit :=
  {| fs := {[ "lazy.snf" := [x7b; x7d; x0a] ]};
     stdout := [];
     heap := fun _ => LazySNFile ex_cfg None (Some "lazy.snf");
     _ACTIVE := seq 0 50 |}.

(** A reader that has loaded a header whose block 0 has one range. *)
Definition good_world : @world unit unit :=
  {| fs := {[ "good.snf" := [x7b; x7d; x0a; x1f; x8b; x00] ]};
     stdout := [];
     heap := fun _ =>
       set_header_length (Some 3)
         (set_index (Some {[ ex_contig := ISub {[ PStr "0" := [(0, 3)] ]} ]})
            (SNFile ex_cfg None (Some "good.snf")));
     _ACTIVE := [] |}.

(** A configuration with a zero block size. *)
Definition no_block_cfg : config_t :=
  {| snf_block_size := 0; coverage_binsize := 100; coverage_binsize_combine := 500;
     output_rnames := false; combine_close_handles := false |}.

(** A writer on ["part.snf"] that holds one new block. *)
Definition one_block_writer (cfg : config_t) (h : option device) : @snfile unit unit :=
  set_blocks {[ 0 := new_block ex_TYPES ]} (SNFile cfg h (Some "part.snf")).

Definition writer_world (cfg : config_t) (h : option device) : @world unit unit :=
  {| fs := {[ "part.snf" := [] ]};
     stdout := [];
     heap := fun _ => one_block_writer cfg h;
     _ACTIVE := [] |}.

(** The payload of a new block under the stand-in codecs. *)
Definition new_payload : bytes := [x1f; x8b; x01].

(** A file whose first line is no header. *)
Definition junk_world : @world unit unit :=
  {| fs := {[ "junk.snf" := [x00; x0a; x01] ]};
     stdout := [];
     heap := fun _ => SNFile ex_cfg None (Some "junk.snf");
     _ACTIVE := [] |}.

(** A header line followed by the payloads of the two blocks of the
    example. *)
Definition full_file : bytes := [x7b; x7d; x0a] ++ ex_body.

(** The index the stand-in header parser yields, and its entry for the
    contig of the example. *)
Definition ex_index : gmap pyval ival :=
  nested_index ex_contig
    (flat_index toy_dumps toy_compress (@buffered unit unit ex_TYPES ex_cfg ex_cands)).



(** A plain reader on that file whose handle is open at the start. *)
Definition open_reader_world : @world unit unit :=
  {| fs := {[ "full.snf" := full_file ]};
     stdout := [];
     heap := fun _ => SNFile cov_cfg (Some (ex_rdev "full.snf")) (Some "full.snf");
     _ACTIVE := [] |}.

(** A reader that has loaded a header in which block 0 has two ranges and
    block 1000 one. *)
Definition two_range_sub : gmap pyval (list (Z * Z)) :=
  {[ PStr "0" := [(0, 3); (3, 3)]; PStr "1000" := [(3, 3)] ]}.

Definition two_range_index : gmap pyval ival := {[ ex_contig := ISub two_range_sub ]}.

Definition two_range_world : @world unit unit :=
  {| fs := {[ "full.snf" := full_file ]};
     stdout := [];
     heap := fun _ =>
       set_header_length (Some 3)
         (set_index (Some two_range_index) (SNFile ex_cfg None (Some "full.snf")));
     _ACTIVE := [] |}.

(** The keys of a dict of the index, in the order of the map. *)
Definition map_keys (sub : gmap pyval (list (Z * Z))) : list pyval :=
  (map_to_list sub).*1.

(** A reader that holds an index as [write_and_index] builds it. *)
Definition flat_world : @world unit unit :=
  {| fs := {[ "part.snf" := ex_body ]};
     stdout := [];
     heap := fun _ =>
       set_index (Some {[ PInt 0 := IRange (0, 3); PInt 1000 := IRange (3, 3) ]})
         (SNFile ex_cfg None (Some "part.snf"));
     _ACTIVE := [] |}.

(** A full registry whose handles have their header loaded; object 50 and
    the ones after it have not. *)
Definition loaded_world : @world unit unit :=
  {| fs := {[ "lazy.snf" := [x7b; x7d; x0a] ]};
     stdout := [];
     heap := fun i =>
       if (i <? 50)%nat
       then set_index (index_entry ex_header)
              (set_header (Some ex_header) (LazySNFile ex_cfg None (Some "lazy.snf")))
       else LazySNFile ex_cfg None (Some "lazy.snf");
     _ACTIVE := seq 0 50 |}.

(** One candidate at the position -1, the block that holds it once it is
    stored with read-name output disabled, and stand-ins for the codecs that
    are exact on that block and on the header of its file. *)
Definition neg_cands : list (@svcand unit) := [ex_cand (-1) "A"].

Definition neg_block : gmap string (@bval unit) :=
  <["A" := BCands [clear_rnames (ex_cand (-1) "A")]]> (new_block ex_TYPES).

Definition neg_loads (data : bytes) : option (gmap string (@bval unit)) :=
  match data with
  | [x00] => Some neg_block
  | _ => None
  end.

Definition neg_header : @header_t unit :=
  header_of ex_contig tt
    (flat_index toy_dumps toy_compress (@buffered unit unit ex_TYPES ex_cfg neg_cands)).

Definition neg_json_loads (l : bytes) : option (@header_t unit) :=
  match l with
  | [x7b; x7d] => Some neg_header
  | _ => None
  end.

(** An object that holds a candidate in block 100, with its read names: it
    was stored while the block size was 100 and read names were output.  The
    configuration now has block size 1000 and read-name output disabled. *)
Definition alias_obj : @snfile unit unit :=
  set_blocks {[ 100 := <["A" := BCands [ex_cand 100 "A"]]> (new_block ex_TYPES) ]}
             (SNFile ex_cfg None None).

(** Sizes of 1, and a candidate and a depth source at 2^53 + 1, which is no
    double. *)
Definition unit_cfg : config_t :=
  {| snf_block_size := 1; coverage_binsize := 1; coverage_binsize_combine := 0;
     output_rnames := false; combine_close_handles := false |}.

Definition big_cand : @svcand unit :=
  {| oid := 1; pos := 2 ^ 53 + 1; svtype := "A"; rnames := None; payload := tt |}.

Definition big_lp : lead_provider_t :=
  {| covrtab_min_bin := 2 ^ 53 + 1; end_ := 2 ^ 53 + 1;
     covrtab_fwd := ∅; covrtab_rev := ∅ |}.

(** Values of CPython's [int(a / b)] and [math.ceil(a / float(b))], as
    [(a, b, int(a / b), math.ceil(a / float(b)))]. *)
Definition double_vectors : list (Z * Z * Z * Z) := [
  (9007199254740993, 1, 9007199254740992, 9007199254740992);
  ((-1), 1000, 0, 0);
  (9007199254740993, 3, 3002399751580331, 3002399751580331);
  (18014398509481986, 1, 18014398509481984, 18014398509481984);
  ((-9007199254740993), 1, (-9007199254740992), (-9007199254740992));
  (9007199254740993, 7, 1286742750677284, 1286742750677285);
  (5, 3, 1, 2);
  ((-5), 3, (-1), (-1));
  (5, (-3), (-1), (-1));
  (0, 5, 0, 0);
  (999, 1000, 0, 1);
  ((-999), 1000, 0, 0);
  (9007199254740991, 2, 4503599627370495, 4503599627370496);
  (1152921504606846977, 128, 9007199254740992, 9007199254740992);
  (1000000000000000000000000000000, 3, 333333333333333316505293553664, 333333333333333316505293553664);
  (7, 10000000000000000000000000, 0, 1);
  ((-4300917795576130128840), 2, (-2150458897788065021952), (-2150458897788065021952));
  ((-6448339859622779221980), 7, (-921191408517539823616), (-921191408517539823616));
  (6382294184130019676376, 2, 3191147092065010057216, 3191147092065010057216);
  ((-7760112970224641151282), 7, (-1108587567174948749312), (-1108587567174948749312));
  ((-8129561385278815991051), 3, (-2709853795092938620928), (-2709853795092938620928));
  ((-4550478747597612526186), 1000, (-4550478747597612544), (-4550478747597612544));
  ((-2904664402442307603607), 2, (-1452332201221153882112), (-1452332201221153882112));
  (3658950390777173682055, 1000, 3658950390777173504, 3658950390777174016) ].

(** * Facts about the double-precision arithmetic *)

Lemma rne_bounds P Q : 0 < Q -> P / Q <= rne P Q <= P / Q + 1.
Proof.
  intros HQ. unfold rne. cbv zeta.
  destruct (2 * (P mod Q) <? Q); [lia |].
  destruct (Q <? 2 * (P mod Q)); [lia |].
  destruct (Z.even (P / Q)); lia.
Qed.

Lemma rne_up P Q : rne P Q = P / Q + 1 -> Q <= 2 * (P mod Q).
Proof.
  unfold rne. cbv zeta.
  destruct (Z.ltb_spec (2 * (P mod Q)) Q); [lia |]. intros _. assumption.
Qed.

Lemma rne_down P Q : rne P Q = P / Q -> 2 * (P mod Q) <= Q.
Proof.
  unfold rne. cbv zeta.
  destruct (Z.ltb_spec (2 * (P mod Q)) Q); [lia |].
  destruct (Z.ltb_spec Q (2 * (P mod Q))); [lia |]. lia.
Qed.

Lemma rne_scale c P Q : 0 < c -> 0 < Q -> rne (c * P) (c * Q) = rne P Q.
Proof.
  intros Hc HQ. unfold rne. cbv zeta.
  rewrite Z.div_mul_cancel_l by lia.
  rewrite Z.mul_mod_distr_l by lia.
  destruct (Z.ltb_spec (2 * (P mod Q)) Q), (Z.ltb_spec (2 * (c * (P mod Q))) (c * Q));
    try nia; try reflexivity.
  destruct (Z.ltb_spec Q (2 * (P mod Q))), (Z.ltb_spec (c * Q) (2 * (c * (P mod Q))));
    try nia; reflexivity.
Qed.

Lemma pow2_pos k : 0 < 2 ^ k \/ k < 0.
Proof. destruct (Z.le_gt_cases 0 k); [left; apply Z.pow_pos_nonneg; lia | right; lia]. Qed.

Lemma pow2_split a b : 0 <= a -> 0 <= b -> 2 ^ (a + b) = 2 ^ a * 2 ^ b.
Proof. intros. apply Z.pow_add_r; assumption. Qed.

(** The exponent [binade] finds is the binary exponent of the quotient. *)
Lemma binade_spec P Q :
  0 < P -> 0 < Q ->
  scale_le Q (binade P Q) P = true /\ scale_le Q (binade P Q + 1) P = false.
Proof.
  intros HP HQ. unfold binade. cbv zeta.
  destruct (Z.log2_spec P HP) as [HP1 HP2]. destruct (Z.log2_spec Q HQ) as [HQ1 HQ2].
  pose proof (Z.log2_nonneg P) as HlP. pose proof (Z.log2_nonneg Q) as HlQ.
  set (lp := Z.log2 P) in *. set (lq := Z.log2 Q) in *.
  rewrite (Z.pow_succ_r 2 lp) in HP2 by exact HlP.
  rewrite (Z.pow_succ_r 2 lq) in HQ2 by exact HlQ.
  assert (H2p : 0 < 2 ^ lp) by (apply Z.pow_pos_nonneg; lia).
  assert (H2q : 0 < 2 ^ lq) by (apply Z.pow_pos_nonneg; lia).
  destruct (scale_le Q (lp - lq) P) eqn:Htest; split; try exact Htest.
  - (* upper bound at e0 + 1 *)
    unfold scale_le. destruct (Z.leb_spec 0 (lp - lq + 1)) as [Hs|Hs].
    + apply Z.leb_gt.
      assert (Hpow : 2 ^ lq * 2 ^ (lp - lq + 1) = 2 * 2 ^ lp).
      { rewrite <- pow2_split by lia. replace (lq + (lp - lq + 1)) with (Z.succ lp) by lia.
        apply Z.pow_succ_r. exact HlP. }
      assert (0 < 2 ^ (lp - lq + 1)) by (apply Z.pow_pos_nonneg; lia). nia.
    + apply Z.leb_gt.
      assert (Hpow : 2 * 2 ^ lp * 2 ^ (- (lp - lq + 1)) = 2 ^ lq).
      { rewrite <- (Z.pow_succ_r 2 lp) by exact HlP. rewrite <- pow2_split by lia.
        f_equal; lia. }
      assert (0 < 2 ^ (- (lp - lq + 1))) by (apply Z.pow_pos_nonneg; lia). nia.
  - (* lower bound at e0 - 1 *)
    unfold scale_le. destruct (Z.leb_spec 0 (lp - lq - 1)) as [Hs|Hs].
    + apply Z.leb_le.
      assert (Hpow : 2 * 2 ^ lq * 2 ^ (lp - lq - 1) = 2 ^ lp).
      { rewrite <- (Z.pow_succ_r 2 lq) by exact HlQ. rewrite <- pow2_split by lia.
        f_equal; lia. }
      assert (0 < 2 ^ (lp - lq - 1)) by (apply Z.pow_pos_nonneg; lia). nia.
    + apply Z.leb_le.
      assert (Hpow : 2 ^ lp * 2 ^ (- (lp - lq - 1)) = 2 * 2 ^ lq).
      { rewrite <- pow2_split by lia. replace (lp + - (lp - lq - 1)) with (Z.succ lq) by lia.
        apply Z.pow_succ_r. exact HlQ. }
      assert (0 < 2 ^ (- (lp - lq - 1))) by (apply Z.pow_pos_nonneg; lia). nia.
  - replace (lp - lq - 1 + 1) with (lp - lq) by lia. exact Htest.
Qed.

(** The quotient of two numbers below [2^53], scaled by a common factor:
    its double is [m * 2^-k] with [m] within the unit interval of the scaled
    exact quotient, never reaching the next integer, and leaving the integer
    below as soon as the division is not exact. *)
Lemma round_pos_small c p q :
  0 < c -> 0 < p < 2 ^ 53 -> 0 < q < 2 ^ 53 ->
  exists k m,
    0 <= k /\ round_pos (c * p) (c * q) = (m, - k) /\
    p / q * 2 ^ k <= m < (p / q + 1) * 2 ^ k /\
    (p mod q = 0 -> m = p / q * 2 ^ k) /\
    (0 < p mod q -> p / q * 2 ^ k < m).
Proof.
  intros Hc Hp Hq.
  assert (HP : 0 < c * p) by nia. assert (HQ : 0 < c * q) by nia.
  destruct (binade_spec (c * p) (c * q) HP HQ) as [Hlo Hhi].
  set (e := binade (c * p) (c * q)) in *.
  assert (H53 : 2 ^ 53 = 2 ^ 52 * 2) by reflexivity.
  (* the exponent lies between -53 and 52 *)
  assert (He : -53 <= e <= 52).
  { split.
    - destruct (Z.le_gt_cases (-53) e) as [|Hlt]; [assumption | exfalso].
      unfold scale_le in Hhi. destruct (Z.leb_spec 0 (e + 1)); [lia |].
      apply Z.leb_gt in Hhi.
      assert (2 ^ 53 <= 2 ^ (- (e + 1))) by (apply Z.pow_le_mono_r; lia). nia.
    - destruct (Z.le_gt_cases e 52) as [|Hgt]; [assumption | exfalso].
      unfold scale_le in Hlo. destruct (Z.leb_spec 0 e); [| lia].
      apply Z.leb_le in Hlo.
      assert (2 ^ 53 <= 2 ^ e) by (apply Z.pow_le_mono_r; lia). nia. }
  set (k := 52 - e). assert (Hk : 0 <= k) by (unfold k; lia).
  set (s := 2 ^ k). assert (Hs : 0 < s) by (apply Z.pow_pos_nonneg; lia).
  (* the quotient is at least 2^e: [2 * s <= q] is impossible *)
  assert (Hsmall : q < 2 * s).
  { destruct (Z.lt_ge_cases q (2 * s)) as [|Hge]; [assumption | exfalso].
    unfold scale_le in Hlo. destruct (Z.leb_spec 0 e) as [He0|He0].
    - apply Z.leb_le in Hlo.
      assert (Hpow : s * 2 ^ e = 2 ^ 52).
      { unfold s, k. rewrite <- pow2_split by lia. f_equal; lia. }
      assert (0 < 2 ^ e) by (apply Z.pow_pos_nonneg; lia). nia.
    - apply Z.leb_le in Hlo.
      assert (Hpow : s = 2 ^ 52 * 2 ^ (- e)).
      { unfold s, k. rewrite <- pow2_split by lia. f_equal; lia. }
      assert (0 < 2 ^ (- e)) by (apply Z.pow_pos_nonneg; lia). nia. }
  exists k, (rne (p * s) q). split; [exact Hk |]. split.
  { unfold round_pos. destruct (decide (c * p = 0)); [lia |]. cbv zeta. fold e.
    rewrite Z.max_l by lia.
    destruct (Z.ltb_spec 0 (e - 52)); [lia |].
    replace (- (e - 52)) with k by (unfold k; lia). fold s.
    replace (c * p * s) with (c * (p * s)) by ring.
    rewrite rne_scale by lia. f_equal. unfold k. lia. }
  pose proof (Z.div_mod p q ltac:(lia)) as Hdm.
  pose proof (Z.mod_pos_bound p q ltac:(lia)) as Hr0.
  set (n := p / q) in *. set (r0 := p mod q) in *.
  pose proof (Z.div_mod (p * s) q ltac:(lia)) as Hdm'.
  pose proof (Z.mod_pos_bound (p * s) q ltac:(lia)) as Hr.
  pose proof (rne_bounds (p * s) q ltac:(lia)) as Hb.
  pose proof (rne_up (p * s) q) as Hup. pose proof (rne_down (p * s) q) as Hdown.
  set (d := p * s / q) in *. set (r := (p * s) mod q) in *.
  set (m := rne (p * s) q) in *.
  assert (Hd1 : n * s <= d) by nia.
  assert (Hd2 : d < (n + 1) * s) by nia.
  split; [| split].
  - split; [lia |].
    destruct (Z.lt_ge_cases m ((n + 1) * s)) as [|Hge]; [assumption | exfalso].
    assert (Hm : m = d + 1) by lia. specialize (Hup Hm). nia.
  - intros Hz. assert (Hd : d = n * s) by nia. assert (r = 0) by nia.
    unfold m, rne. cbv zeta. fold d r.
    destruct (Z.ltb_spec (2 * r) q); [lia | lia].
  - intros Hpos.
    destruct (Z.lt_ge_cases (n * s) m) as [|Hle]; [assumption | exfalso].
    assert (Hm : m = d) by lia. specialize (Hdown Hm). nia.
Qed.

Lemma double_trunc_small k m n :
  0 <= k -> n * 2 ^ k <= m < (n + 1) * 2 ^ k -> 0 <= n ->
  double_trunc (m, - k) = n.
Proof.
  intros Hk Hm Hn. unfold double_trunc.
  destruct (Z.ltb_spec 0 (- k)); [lia |]. rewrite Z.opp_involutive.
  assert (0 < 2 ^ k) by (apply Z.pow_pos_nonneg; lia).
  rewrite Z.quot_div_nonneg by nia.
  symmetry. apply (Z.div_unique m (2 ^ k) n (m - n * 2 ^ k)); nia.
Qed.

Lemma double_trunc_opp m x : double_trunc (- m, x) = - double_trunc (m, x).
Proof.
  unfold double_trunc. destruct (Z.ltb_spec 0 x); [ring |]. apply Z.quot_opp_l.
  assert (0 < 2 ^ (- x)) by (apply Z.pow_pos_nonneg; lia). lia.
Qed.




(** The quotient of two positive integers below [2^53], truncated. *)
Lemma round_pos_trunc c p q :
  0 < c -> 0 <= p < 2 ^ 53 -> 0 < q < 2 ^ 53 ->
  double_trunc (round_pos (c * p) (c * q)) = p / q.
Proof.
  intros Hc Hp Hq. destruct (decide (p = 0)) as [->|Hne].
  - rewrite Z.mul_0_r. reflexivity.
  - destruct (round_pos_small c p q Hc ltac:(lia) Hq) as (k & m & Hk & -> & Hm & _).
    apply double_trunc_small; [exact Hk | exact Hm |].
    apply Z.div_pos; lia.
Qed.

(** [int(a / b)] is the exact quotient, truncated, as long as both operands
    stay below [2^53] in magnitude. *)
Lemma truediv_int_exact a b :
  b <> 0 -> Z.abs a < 2 ^ 53 -> Z.abs b < 2 ^ 53 -> truediv_int a b = Z.quot a b.
Proof.
  intros Hb Ha Hb'. unfold truediv_int, round_div. cbv zeta.
  destruct (Z.ltb_spec 0 b) as [Hpos|Hneg].
  - rewrite (Z.abs_eq b) by lia.
    destruct (Z.leb_spec 0 a) as [Ha0|Ha0].
    + rewrite <- (Z.mul_1_l a) at 1. rewrite <- (Z.mul_1_l b) at 1.
      rewrite round_pos_trunc by lia. symmetry. apply Z.quot_div_nonneg; lia.
    + destruct (round_pos (- a) b) as [m x] eqn:Hr. rewrite double_trunc_opp, <- Hr.
      rewrite <- (Z.mul_1_l (- a)) at 1. rewrite <- (Z.mul_1_l b) at 1.
      rewrite round_pos_trunc by lia.
      rewrite <- (Z.opp_involutive a) at 2. rewrite Z.quot_opp_l by lia.
      f_equal. symmetry. apply Z.quot_div_nonneg; lia.
  - rewrite (Z.abs_neq b) by lia.
    destruct (Z.leb_spec 0 (- a)) as [Ha0|Ha0].
    + rewrite <- (Z.mul_1_l (- a)) at 1. rewrite <- (Z.mul_1_l (- b)) at 1.
      rewrite round_pos_trunc by lia.
      rewrite <- (Z.opp_involutive a) at 2. rewrite <- (Z.opp_involutive b) at 2.
      rewrite Z.quot_opp_opp by lia. symmetry. apply Z.quot_div_nonneg; lia.
    + rewrite Z.opp_involutive.
      destruct (round_pos a (- b)) as [m x] eqn:Hr. rewrite double_trunc_opp, <- Hr.
      rewrite <- (Z.mul_1_l a) at 1. rewrite <- (Z.mul_1_l (- b)) at 1.
      rewrite round_pos_trunc by lia.
      rewrite <- (Z.opp_involutive b) at 2. rewrite Z.quot_opp_r by lia.
      f_equal. symmetry. apply Z.quot_div_nonneg; lia.
Qed.





(** * Facts about the coverage annotator *)

Section CoverageFacts.

Context {Payload Meta : Type}.
Variable TYPES : list string.

Local Abbreviation block := (gmap string (@bval Payload)).
Local Abbreviation snfile := (@snfile Payload Meta).

Ltac mstep :=
  unfold mbind, mret, mraise, mget, mput, mmodify, mwhen, mtry in *; simpl in *.

Lemma cov_accumulate_total lp bin loc :
  coverage_fwd (cov_accumulate lp bin loc) + coverage_rev (cov_accumulate lp bin loc)
  = coverage_fwd loc + coverage_rev loc + table_entry lp bin.
Proof.
  unfold cov_accumulate, table_entry, table_get; simpl.
  destruct (covrtab_fwd lp !! bin), (covrtab_rev lp !! bin); simpl; lia.
Qed.

Lemma cov_accumulate_sum lp bin loc :
  coverage_sum (cov_accumulate lp bin loc)
  = coverage_sum loc + (coverage_fwd loc + coverage_rev loc + table_entry lp bin).
Proof.
  rewrite <- cov_accumulate_total. reflexivity.
Qed.

Lemma cov_accumulate_count lp bin loc :
  bin_count (cov_accumulate lp bin loc) = bin_count loc + 1.
Proof. reflexivity. Qed.

Lemma attach_coverage_result bi bin v (o : snfile) r o' :
  attach_coverage TYPES bi bin v o = (r, o') ->
  r = Ok tt \/ r = Raise KeyError \/ r = Raise IndexError.
Proof.
  unfold attach_coverage, ensure_block. mstep.
  destruct (bool_decide (blocks o !! bi = None)); mstep.
  - rewrite lookup_insert_eq.
    destruct (new_block TYPES !! "_COVERAGE") as [[]|]; mstep;
      intros [= <- <-]; auto.
  - destruct (blocks o !! bi) as [blk|]; mstep; [| intros [= <- <-]; auto].
    destruct (blk !! "_COVERAGE") as [[]|]; mstep; intros [= <- <-]; auto.
Qed.

(** The bin count is never negative, and the body never fails in the
    ceiling of line 85. *)
Lemma annotate_body_count lp R bs bin loc (o : snfile) r o' :
  0 <= bin_count loc ->
  annotate_body TYPES lp R bs bin loc o = (r, o') ->
  r <> Raise (ZeroDivisionError 85) /\
  (forall loc', r = Ok loc' -> 0 <= bin_count loc').
Proof.
  intros Hc. unfold annotate_body, cov_flush, py_mod, int_truediv, ceil_truediv.
  rewrite cov_accumulate_count.
  set (acc := cov_accumulate lp bin loc).
  assert (Hacc : bin_count acc = bin_count loc + 1) by reflexivity.
  clearbody acc.
  mstep.
  destruct (decide (R = 0)); mstep.
  { intros [= <- <-]. split; [discriminate | intros ? [=]]. }
  destruct (decide (bin mod R = 0)); mstep.
  2:{ intros [= <- <-]. split; [discriminate | intros ? [= <-]; lia]. }
  destruct (decide (bs = 0)); mstep.
  { intros [= <- <-]. split; [discriminate | intros ? [=]]. }
  destruct (decide (bin_count loc + 1 = 0)); [lia |]. mstep.
  destruct (bool_decide _); mstep.
  2:{ intros [= <- <-]. split; [discriminate | intros ? [= <-]; simpl; lia]. }
  destruct (attach_coverage _ _ _ _ o) as [ra oa] eqn:Ha.
  apply attach_coverage_result in Ha as [-> | [-> | ->]];
    intros [= <- <-]; (split; [discriminate | intros ? [=]; subst; simpl; lia]).
Qed.

Lemma annotate_loop_count lp R bs bins : forall loc (o : snfile) r o',
  0 <= bin_count loc ->
  mfor bins (annotate_body TYPES lp R bs) loc o = (r, o') ->
  r <> Raise (ZeroDivisionError 85) /\
  (forall loc', r = Ok loc' -> 0 <= bin_count loc').
Proof.
  induction bins as [|bin bins IH]; intros loc o r o' Hc; simpl.
  - mstep. intros [= <- <-]. split; [discriminate | intros ? [= <-]; exact Hc].
  - unfold mbind.
    destruct (annotate_body TYPES lp R bs bin loc o) as [[loc1|e] o1] eqn:Hb.
    + apply annotate_body_count in Hb as [_ Hb]; [| exact Hc].
      apply IH. apply Hb. reflexivity.
    + apply annotate_body_count in Hb as [Hb _]; [| exact Hc].
      intros [= <- <-]. split; [exact Hb | intros ? [=]].
Qed.

(** C10.  [annotate_block_coverages] never fails in the ceiling division of
    line 85, whatever the depth source, the configuration and the blocks
    already held; and in every iteration the loop reaches, the bin count is
    at least 1 once it has been incremented, which is before the divisibility
    check and so before the ceiling is computed. *)
Theorem annotate_bin_count_positive (lp : lead_provider_t) (resolution : Z) (o : snfile) :
  (forall r o', annotate_block_coverages TYPES lp resolution o = (r, o') ->
                r <> Raise (ZeroDivisionError 85)) /\
  (forall R bs bins bin loc o1,
      mfor bins (annotate_body TYPES lp R bs) cov_init o = (Ok loc, o1) ->
      1 <= bin_count (cov_accumulate lp bin loc)).
Proof.
  split.
  - intros r o'. unfold annotate_block_coverages, int_truediv, range. mstep.
    destruct (decide (coverage_binsize (config o) = 0)) as [|Hb]; mstep.
    { intros [= <- <-]. discriminate. }
    destruct (decide (coverage_binsize (config o) = 0)); [contradiction |]. mstep.
    match goal with
    | |- context [mfor ?bins ?body cov_init o] =>
        destruct (mfor bins body cov_init o) as [[loc'|e] o1] eqn:Hl
    end.
    + intros [= <- <-]. discriminate.
    + apply annotate_loop_count in Hl as [Hl _]; [| simpl; lia].
      intros [= <- <-] [= ->]. apply Hl. reflexivity.
  - intros R bs bins bin loc o1 Hl.
    apply annotate_loop_count in Hl as [_ Hl]; [| simpl; lia].
    rewrite cov_accumulate_count. specialize (Hl loc eq_refl). lia.
Qed.

Lemma new_block_coverage : new_block TYPES !! "_COVERAGE" = Some (@BCov Payload ∅).
Proof. unfold new_block. apply lookup_insert_eq. Qed.

Lemma attach_coverage_ok bs bin v (o : snfile) :
  blocks_wf (blocks o) ->
  attach_coverage TYPES (truediv_int bin bs * bs) bin v o
  = (Ok tt, set_blocks (attach TYPES bs (blocks o) (bin, v)) o).
Proof.
  intros Hwf. unfold attach_coverage, ensure_block, attach, coverage_of. mstep.
  destruct (blocks o !! (truediv_int bin bs * bs)) as [blk|] eqn:Hblk; simpl.
  - mstep. rewrite Hblk.
    destruct (Hwf _ _ Hblk) as [m ->]. reflexivity.
  - mstep.
    rewrite lookup_insert_eq, new_block_coverage. mstep.
    rewrite insert_insert_eq. reflexivity.
Qed.

Lemma attach_wf bs (blks : gmap Z block) e :
  blocks_wf blks -> blocks_wf (attach TYPES bs blks e).
Proof.
  intros Hwf i blk. unfold attach.
  destruct (decide (truediv_int e.1 bs * bs = i)) as [->|Hne].
  - rewrite lookup_insert_eq. intros [= <-]. eexists. apply lookup_insert_eq.
  - rewrite lookup_insert_ne by exact Hne. apply Hwf.
Qed.

Lemma window_value_snoc cur e :
  window_value (cur ++ [e])
  = truediv_ceil (sum_Z (cur.*2) + e.2) (Z.of_nat (length cur) + 1).
Proof.
  unfold window_value. f_equal.
  - rewrite fmap_app. unfold sum_Z. rewrite foldr_app. simpl.
    generalize (e.2). induction (cur.*2) as [|x l IH]; intros z; simpl; [lia |].
    specialize (IH z). lia.
  - rewrite length_app. simpl. lia.
Qed.

Lemma window_bin_snoc cur (e : Z * Z) : window_bin (cur ++ [e]) = e.1.
Proof. unfold window_bin. rewrite last_snoc. reflexivity. Qed.

(** One iteration on well-formed blocks. *)
Lemma annotate_body_spec lp R bs bin loc (o : snfile) :
  R <> 0 -> bs <> 0 -> blocks_wf (blocks o) -> 0 <= bin_count loc ->
  annotate_body TYPES lp R bs bin loc o
  = let acc := cov_accumulate lp bin loc in
    let v := truediv_ceil (coverage_sum acc) (bin_count acc) in
    if decide (bin mod R = 0)
    then (Ok {| coverage_fwd := coverage_fwd acc; coverage_rev := coverage_rev acc;
                coverage_sum := 0; bin_count := 0 |},
          if decide (0 < v) then set_blocks (attach TYPES bs (blocks o) (bin, v)) o else o)
    else (Ok acc, o).
Proof.
  intros HR Hbs Hwf Hc.
  unfold annotate_body, cov_flush, py_mod, int_truediv, ceil_truediv.
  pose proof (cov_accumulate_count lp bin loc) as Hc'.
  set (acc := cov_accumulate lp bin loc) in *. clearbody acc. cbv zeta.
  destruct (decide (R = 0)); [contradiction |]. mstep.
  destruct (decide (bin mod R = 0)); mstep; [| reflexivity].
  destruct (decide (bs = 0)); [contradiction |]. mstep.
  destruct (decide (bin_count acc = 0)); [lia |]. mstep.
  destruct (decide (0 < truediv_ceil (coverage_sum acc) (bin_count acc))) as [Hv|Hv].
  - rewrite bool_decide_eq_true_2 by exact Hv.
    rewrite attach_coverage_ok by exact Hwf. reflexivity.
  - rewrite bool_decide_eq_false_2 by exact Hv. reflexivity.
Qed.

Lemma sum_Z_snoc l x : sum_Z (l ++ [x]) = sum_Z l + x.
Proof.
  unfold sum_Z. rewrite foldr_app. simpl.
  induction l as [|y l IH]; simpl; lia.
Qed.

(** The loop, started with the window [cur] partly filled, attaches the
    entries of the windows of the rest of the walk. *)
Lemma annotate_loop_spec lp R bs :
  R <> 0 -> bs <> 0 ->
  forall bins loc (o : snfile) cur,
    blocks_wf (blocks o) ->
    coverage_sum loc = sum_Z (cur.*2) ->
    bin_count loc = Z.of_nat (length cur) ->
    exists loc',
      mfor bins (annotate_body TYPES lp R bs) loc o
      = (Ok loc',
         set_blocks
           (foldl (attach TYPES bs) (blocks o)
              (filter (fun e => 0 < e.2)
                 ((fun w => (window_bin w, window_value w))
                    <$> windows_from R cur
                          (scan_from lp (coverage_fwd loc + coverage_rev loc) bins))))
           o).
Proof.
  intros HR Hbs. induction bins as [|bin bins IH]; intros loc o cur Hwf Hsum Hcnt.
  - exists loc. simpl. unfold mret. destruct o; reflexivity.
  - cbn [mfor scan_from windows_from fst]. unfold mbind.
    rewrite annotate_body_spec by (try assumption; lia). cbv zeta.
    pose proof (cov_accumulate_total lp bin loc) as Ht.
    pose proof (cov_accumulate_sum lp bin loc) as Hs.
    pose proof (cov_accumulate_count lp bin loc) as Hc.
    set (acc := cov_accumulate lp bin loc) in *. clearbody acc.
    rewrite <- Ht.
    destruct (decide (bin mod R = 0)) as [Hdiv|Hdiv].
    + rewrite fmap_cons, window_value_snoc, window_bin_snoc. cbn [fst snd].
      rewrite <- Hsum, <- Hcnt, <- Hc. rewrite Ht, <- Hs.
      set (v := truediv_ceil (coverage_sum acc) (bin_count acc)).
      set (loc1 := {| coverage_fwd := coverage_fwd acc; coverage_rev := coverage_rev acc;
                      coverage_sum := 0; bin_count := 0 |}).
      rewrite <- Ht.
      destruct (decide (0 < v)) as [Hv|Hv].
      * rewrite filter_cons_True by exact Hv. cbn [foldl].
        destruct (IH loc1 (set_blocks (attach TYPES bs (blocks o) (bin, v)) o) [])
          as [loc' Hl]; [apply attach_wf, Hwf | reflexivity | reflexivity |].
        exists loc'. rewrite Hl. reflexivity.
      * rewrite filter_cons_False by exact Hv.
        destruct (IH loc1 o []) as [loc' Hl]; [exact Hwf | reflexivity | reflexivity |].
        exists loc'. rewrite Hl. reflexivity.
    + destruct (IH acc o (cur ++ [(bin, coverage_fwd acc + coverage_rev acc)]))
        as [loc' Hl]; [exact Hwf | | |].
      * rewrite fmap_app. cbn [fmap list_fmap snd]. rewrite sum_Z_snoc. lia.
      * rewrite length_app. simpl. lia.
      * exists loc'. exact Hl.
Qed.

Lemma running_total_snoc lp pre bin :
  running_total lp (pre ++ [bin]) = running_total lp pre + table_entry lp bin.
Proof. unfold running_total. rewrite fmap_app. apply sum_Z_snoc. Qed.

Lemma scan_from_running lp bins : forall pre,
  scan_from lp (running_total lp pre) bins
  = imap (fun i bin => (bin, running_total lp (pre ++ take (S i) bins))) bins.
Proof.
  induction bins as [|bin bins IH]; intros pre; [reflexivity |].
  cbn [scan_from]. rewrite imap_cons. f_equal.
  - cbn [take]. rewrite take_0. rewrite running_total_snoc. reflexivity.
  - rewrite <- running_total_snoc. rewrite IH.
    apply imap_ext. intros i x _. simpl. rewrite <- app_assoc. reflexivity.
Qed.

Lemma scan_from_depths lp bins : scan_from lp 0 bins = depths lp bins.
Proof. apply (scan_from_running lp bins []). Qed.







End CoverageFacts.

(** * Facts about the block aggregator *)

Section StoreFacts.

Context {Payload Meta : Type}.
Variable TYPES : list string.

Local Abbreviation block := (gmap string (@bval Payload)).
Local Abbreviation snfile := (@snfile Payload Meta).

Ltac mstep :=
  unfold mbind, mret, mraise, mget, mput, mmodify, mwhen, mtry in *; simpl in *.

Lemma lookup_types_map (f : string -> @bval Payload) (k : string) :
  (list_to_map ((fun t => (t, f t)) <$> TYPES) : block) !! k
  = if decide (k ∈ TYPES) then Some (f k) else None.
Proof.
  induction TYPES as [|t l IH].
  - destruct (decide (k ∈ [])) as [H|_]; [inversion H |]. apply lookup_empty.
  - rewrite fmap_cons, list_to_map_cons.
    destruct (decide (k ∈ t :: l)) as [Hin|Hin].
    + destruct (decide (t = k)) as [->|Hne]; [apply lookup_insert_eq |].
      rewrite lookup_insert_ne by exact Hne.
      apply elem_of_cons in Hin as [->|Hin]; [contradiction |].
      rewrite IH. rewrite decide_True by exact Hin. reflexivity.
    + apply not_elem_of_cons in Hin as [Hne Hin].
      rewrite lookup_insert_ne by congruence.
      rewrite IH. rewrite decide_False by exact Hin. reflexivity.
Qed.

Lemma grouped_block_lookup cfg (cands : list (@svcand Payload)) b k :
  grouped_block TYPES cfg cands b !! k
  = if decide (k = "_COVERAGE") then Some (BCov ∅)
    else if decide (k ∈ TYPES) then Some (BCands (group cfg cands b k)) else None.
Proof.
  unfold grouped_block. destruct (decide (k = "_COVERAGE")) as [->|Hne].
  - apply lookup_insert_eq.
  - rewrite lookup_insert_ne by congruence. apply lookup_types_map.
Qed.

Lemma new_block_lookup k :
  @new_block Payload TYPES !! k
  = if decide (k = "_COVERAGE") then Some (BCov ∅)
    else if decide (k ∈ TYPES) then Some (BCands []) else None.
Proof.
  unfold new_block. destruct (decide (k = "_COVERAGE")) as [->|Hne].
  - apply lookup_insert_eq.
  - rewrite lookup_insert_ne by congruence.
    apply (lookup_types_map (fun _ => BCands [])).
Qed.

Lemma stored_form_pos cfg (c : @svcand Payload) : pos (stored_form cfg c) = pos c.
Proof. reflexivity. Qed.

Lemma stored_form_svtype cfg (c : @svcand Payload) : svtype (stored_form cfg c) = svtype c.
Proof. reflexivity. Qed.

Lemma same_cand_refl (c : @svcand Payload) : same_cand c c.
Proof. repeat split. Qed.

Lemma same_bval_refl (v : @bval Payload) : same_bval v v.
Proof.
  destruct v as [l|m]; simpl; [| reflexivity].
  induction l; constructor; [apply same_cand_refl | assumption].
Qed.

Lemma same_block_refl (b : block) : same_block b b.
Proof.
  intros k. destruct (b !! k); constructor. apply same_bval_refl.
Qed.

(** What line 57 appends is the candidate in its stored form. *)
Lemma stored_form_appended cfg (c : @svcand Payload) :
  (if output_rnames cfg then c else clear_rnames c) = stored_form cfg c.
Proof. unfold stored_form, clear_rnames. destruct c, (output_rnames cfg); reflexivity. Qed.

(** An entry without read names is not changed by the assignment of line 56,
    whichever object it is. *)
Lemma clear_alias_cleared i (c : @svcand Payload) : rnames c = None -> clear_alias i c = c.
Proof.
  intros H. unfold clear_alias, clear_rnames. destruct (decide _); [| reflexivity].
  destruct c. simpl in *. subst. reflexivity.
Qed.

Lemma bval_clear_cleared i (v : @bval Payload) : cleared_bval v -> bval_clear i v = v.
Proof.
  destruct v as [l|m]; [| reflexivity]. simpl. intros H. f_equal.
  induction H as [|c l Hc _ IH]; [reflexivity |].
  rewrite fmap_cons, IH, clear_alias_cleared by exact Hc. reflexivity.
Qed.

Lemma clear_aliases_cleared i (blks : gmap Z block) :
  (forall b blk k v, blks !! b = Some blk -> blk !! k = Some v -> cleared_bval v) ->
  clear_aliases i blks = blks.
Proof.
  intros H. unfold clear_aliases. apply map_eq. intros b. rewrite lookup_fmap.
  destruct (blks !! b) as [blk|] eqn:Hb; [| reflexivity]. simpl. f_equal.
  apply map_eq. intros k. rewrite lookup_fmap.
  destruct (blk !! k) as [v|] eqn:Hk; [| reflexivity]. simpl. f_equal.
  apply bval_clear_cleared. eapply H; eassumption.
Qed.

Lemma group_cleared cfg (cands : list (@svcand Payload)) b t :
  output_rnames cfg = false -> Forall (fun c => rnames c = None) (group cfg cands b t).
Proof.
  intros Hout. apply Forall_forall. intros c Hc. unfold group in Hc.
  apply list_elem_of_filter in Hc as [_ Hc].
  apply list_elem_of_fmap in Hc as (c0 & -> & _). simpl. rewrite Hout. reflexivity.
Qed.

Lemma group_snoc cfg (cands : list (@svcand Payload)) c b t :
  group cfg (cands ++ [c]) b t
  = group cfg cands b t
    ++ (if decide (block_id_of (snf_block_size cfg) (pos c) = b /\ svtype c = t)
        then [stored_form cfg c] else []).
Proof.
  unfold group. rewrite fmap_app, filter_app. reflexivity.
Qed.

Lemma group_nil_of_new cfg (cands : list (@svcand Payload)) b t :
  ~ Exists (fun c => block_id_of (snf_block_size cfg) (pos c) = b) cands ->
  group cfg cands b t = [].
Proof.
  intros Hn. unfold group. induction cands as [|c cands IH]; [reflexivity |].
  rewrite fmap_cons, filter_cons_False.
  - apply IH. intros H. apply Hn. right. exact H.
  - rewrite stored_form_pos. intros [H _]. apply Hn. left. exact H.
Qed.

Lemma grouped_block_snoc_other cfg (cands : list (@svcand Payload)) c b :
  block_id_of (snf_block_size cfg) (pos c) <> b ->
  grouped_block TYPES cfg (cands ++ [c]) b = grouped_block TYPES cfg cands b.
Proof.
  intros Hne. apply map_eq. intros k. rewrite !grouped_block_lookup.
  rewrite group_snoc.
  rewrite (decide_False (P := _ /\ _)) by (intros [? _]; contradiction).
  rewrite app_nil_r. reflexivity.
Qed.

Lemma expected_block_snoc_other cfg (cands : list (@svcand Payload)) c b :
  block_id_of (snf_block_size cfg) (pos c) <> b ->
  expected_block TYPES cfg (cands ++ [c]) b = expected_block TYPES cfg cands b.
Proof.
  intros Hne. unfold expected_block.
  rewrite grouped_block_snoc_other by exact Hne.
  destruct (decide (Exists _ (cands ++ [c]))) as [H|H];
    destruct (decide (Exists _ cands)) as [H'|H']; try reflexivity.
  - exfalso. apply Exists_app in H as [H|H]; [contradiction |].
    apply Exists_cons in H as [H|H]; [contradiction | inversion H].
  - exfalso. apply H. apply Exists_app. left. exact H'.
Qed.

(** The block a candidate is appended to, whether it was there or has just
    been created. *)
Lemma current_block_lookup cfg (pre : list (@svcand Payload)) b (blks : gmap Z block) k :
  blks !! b = expected_block TYPES cfg pre b ->
  default (new_block TYPES) (blks !! b) !! k
  = if decide (k = "_COVERAGE") then Some (BCov ∅)
    else if decide (k ∈ TYPES) then Some (BCands (group cfg pre b k)) else None.
Proof.
  intros ->. unfold expected_block. destruct (decide _) as [H|H]; simpl.
  - apply grouped_block_lookup.
  - rewrite new_block_lookup. rewrite group_nil_of_new by exact H. reflexivity.
Qed.

(** Lines 52-54. *)
Lemma ensure_block_run id (o : snfile) :
  ensure_block TYPES id o
  = (Ok tt, set_blocks (<[id := default (new_block TYPES) (blocks o !! id)]> (blocks o)) o).
Proof.
  unfold ensure_block. mstep. destruct (blocks o !! id) as [blk|] eqn:Hblk; simpl.
  - rewrite insert_id by exact Hblk. destruct o; reflexivity.
  - reflexivity.
Qed.

(** [store], line by line, once the division of line 51 has succeeded. *)
Lemma store_run_lines (c : @svcand Payload) (o : snfile) :
  snf_block_size (config o) <> 0 ->
  let id := truediv_int (pos c) (snf_block_size (config o)) * snf_block_size (config o) in
  let created := <[id := default (new_block TYPES) (blocks o !! id)]> (blocks o) in
  let held := if output_rnames (config o) then created
              else clear_aliases (oid c) created in
  let c1 := if output_rnames (config o) then c else clear_rnames c in
  store TYPES c o
  = match held !! id ≫= fun blk => blk !! svtype c1 with
    | Some (BCands l) =>
        (Ok tt,
         set_blocks (<[id := <[svtype c1 := BCands (l ++ [c1])]>
                               (default (new_block TYPES) (held !! id))]> held) o)
    | Some (BCov _) => (Raise AttributeError, set_blocks held o)
    | None => (Raise KeyError, set_blocks held o)
    end.
Proof.
  intros Hbs id created held c1. unfold store, int_truediv.
  unfold mbind at 1. unfold mget at 1. unfold mbind at 1.
  destruct (decide (snf_block_size (config o) = 0)); [contradiction |].
  unfold mret at 1. unfold mbind at 1. fold id. rewrite ensure_block_run. fold created.
  unfold mbind at 1, mwhen.
  assert (Hheld : (if negb (output_rnames (config o))
                   then self <- mget ;;
                        mput (set_blocks (clear_aliases (oid c) (blocks self)) self)
                   else mret tt) (set_blocks created o)
                  = (Ok tt, set_blocks held o)).
  { unfold held. destruct (output_rnames (config o)); simpl.
    - destruct o; reflexivity.
    - reflexivity. }
  rewrite Hheld. fold c1. unfold mbind, mget. cbn [blocks set_blocks].
  destruct (held !! id) as [blk|]; simpl; [| reflexivity].
  destruct (blk !! svtype c1) as [[l|m]|]; reflexivity.
Qed.

(** One [store] call on blocks that group the candidates stored so far. *)
Lemma store_spec cfg (pre : list (@svcand Payload)) c (o : snfile) :
  config o = cfg -> 0 < snf_block_size cfg < 2 ^ 53 ->
  0 <= pos c < 2 ^ 53 -> svtype c ∈ TYPES -> svtype c <> "_COVERAGE" ->
  (forall b, blocks o !! b = expected_block TYPES cfg pre b) ->
  exists blks,
    store TYPES c o = (Ok tt, set_blocks blks o) /\
    forall b, blks !! b = expected_block TYPES cfg (pre ++ [c]) b.
Proof.
  intros Hcfg Hbs Hpos Ht Hcov Hblocks.
  set (id := block_id_of (snf_block_size cfg) (pos c)).
  set (c1 := stored_form cfg c).
  set (cur := default (new_block TYPES) (blocks o !! id)).
  assert (Hid : truediv_int (pos c) (snf_block_size cfg) * snf_block_size cfg = id).
  { unfold id, block_id_of. rewrite truediv_int_exact by lia.
    rewrite Z.quot_div_nonneg by lia. reflexivity. }
  assert (Hcur : cur !! svtype c1 = Some (BCands (group cfg pre id (svtype c)))).
  { unfold cur. rewrite (current_block_lookup cfg pre id _ _ (Hblocks id)).
    unfold c1. rewrite stored_form_svtype.
    rewrite decide_False by exact Hcov. rewrite decide_True by exact Ht. reflexivity. }
  exists (<[id := <[svtype c1 := BCands (group cfg pre id (svtype c) ++ [c1])]> cur]> (blocks o)).
  split.
  - rewrite store_run_lines by (rewrite Hcfg; lia). cbv zeta.
    rewrite Hcfg, Hid, stored_form_appended. fold c1 cur.
    assert (Hkeep : output_rnames cfg = false ->
                    clear_aliases (oid c) (<[id := cur]> (blocks o)) = <[id := cur]> (blocks o)).
    { intros Hout. apply clear_aliases_cleared. intros b blk k v Hb Hk.
      assert (Hv : v = BCov ∅ \/ exists b', v = BCands (group cfg pre b' k)).
      { destruct (decide (b = id)) as [->|Hne].
        - rewrite lookup_insert_eq in Hb. injection Hb as <-.
          unfold cur in Hk. rewrite (current_block_lookup cfg pre id _ _ (Hblocks id)) in Hk.
          destruct (decide (k = "_COVERAGE")); [left; congruence |].
          destruct (decide (k ∈ TYPES)); [right; exists id; congruence | discriminate].
        - rewrite lookup_insert_ne in Hb by congruence. rewrite Hblocks in Hb.
          unfold expected_block in Hb. destruct (decide _); [| discriminate].
          injection Hb as <-. rewrite grouped_block_lookup in Hk.
          destruct (decide (k = "_COVERAGE")); [left; congruence |].
          destruct (decide (k ∈ TYPES)); [right; exists b; congruence | discriminate]. }
      destruct Hv as [->|[b' ->]]; [exact I | apply group_cleared; exact Hout]. }
    assert (Hheld : (if output_rnames cfg then <[id := cur]> (blocks o)
                     else clear_aliases (oid c) (<[id := cur]> (blocks o)))
                    = <[id := cur]> (blocks o))
      by (destruct (output_rnames cfg); [reflexivity | apply Hkeep; reflexivity]).
    rewrite Hheld, lookup_insert_eq. simpl.
    change (svtype c) with (svtype c1) at 1. rewrite Hcur.
    rewrite insert_insert_eq. reflexivity.
  - intros b. destruct (decide (id = b)) as [<-|Hne].
    + rewrite lookup_insert_eq. unfold expected_block.
      rewrite decide_True by (apply Exists_app; right; left; reflexivity).
      f_equal. apply map_eq. intros k. rewrite grouped_block_lookup, group_snoc.
      fold id. unfold c1 at 1. rewrite stored_form_svtype.
      destruct (decide (svtype c = k)) as [<-|Hk].
      * rewrite lookup_insert_eq. rewrite decide_False by exact Hcov.
        rewrite decide_True by exact Ht. rewrite decide_True by auto. reflexivity.
      * rewrite lookup_insert_ne by exact Hk.
        unfold cur. rewrite (current_block_lookup cfg pre id _ _ (Hblocks id)).
        rewrite (decide_False (P := id = id /\ svtype c = k)) by (intros [_ ?]; contradiction).
        rewrite app_nil_r. reflexivity.
    + rewrite lookup_insert_ne by exact Hne. rewrite expected_block_snoc_other by exact Hne.
      apply Hblocks.
Qed.

(** Storing a sequence of candidates into empty blocks groups them by block
    id and type tag, in insertion order. *)
Lemma store_all_spec cfg (cands : list (@svcand Payload)) :
  0 < snf_block_size cfg < 2 ^ 53 ->
  Forall (fun c => 0 <= pos c < 2 ^ 53 /\ svtype c ∈ TYPES /\ svtype c <> "_COVERAGE")
         cands ->
  forall pre (o : snfile),
    config o = cfg ->
    (forall b, blocks o !! b = expected_block TYPES cfg pre b) ->
    exists blks,
      store_all TYPES cands o = (Ok tt, set_blocks blks o) /\
      forall b, blks !! b = expected_block TYPES cfg (pre ++ cands) b.
Proof.
  intros Hbs. induction 1 as [|c cands (Hpos & Ht & Hcov) _ IH]; intros pre o Hcfg Hblocks.
  - exists (blocks o). rewrite app_nil_r. split; [| exact Hblocks].
    unfold store_all, mfor, mret. destruct o; reflexivity.
  - destruct (store_spec cfg pre c o Hcfg Hbs Hpos Ht Hcov Hblocks) as (blks1 & Hrun1 & Hb1).
    destruct (IH (pre ++ [c]) (set_blocks blks1 o) Hcfg Hb1) as (blks & Hrun & Hb).
    exists blks. split.
    + unfold store_all in *. cbn [mfor]. unfold mbind. rewrite Hrun1. exact Hrun.
    + intros b. rewrite (Hb b), <- app_assoc. reflexivity.
Qed.

End StoreFacts.

(** * Facts about the writer *)

Section WriterFacts.

Context {Payload Meta : Type}.
Variable pickle_dumps : gmap string (@bval Payload) -> bytes.
Variable gzip_compress : bytes -> bytes.

Local Abbreviation block := (gmap string (@bval Payload)).
Local Abbreviation snfile := (@snfile Payload Meta).
Local Abbreviation world := (@world Payload Meta).

Ltac mstep :=
  unfold mbind, mret, mraise, mget, mput, mmodify, mwhen, mtry in *; simpl in *.

Lemma frame_refl self (w : world) : frame self w w.
Proof. repeat split. Qed.

Lemma frame_trans self (w1 w2 w3 : world) : frame self w1 w2 -> frame self w2 w3 -> frame self w1 w3.
Proof.
  intros (H1 & H2 & H3) (H4 & H5 & H6). repeat split; try congruence.
  intros i Hi. rewrite H6, H3; auto.
Qed.

Lemma write_at_end (data content : bytes) :
  write_at (length content) data content = content ++ data.
Proof.
  unfold write_at. rewrite Nat.sub_diag. simpl. rewrite app_nil_r.
  rewrite firstn_all. rewrite drop_ge by lia. rewrite app_nil_r. reflexivity.
Qed.

(** One iteration of the loop of [write_and_index], writing at the end of
    the file. *)
Lemma write_block_spec self (w : world) block_id offset d content idx blk :
  handle (heap w self) = Some d -> dev_mode d = WB ->
  fs w !! dev_path d = Some content -> dev_pos d = length content ->
  _index (heap w self) = Some idx ->
  blocks (heap w self) !! block_id = Some blk ->
  let data := gzip_compress (pickle_dumps blk) in
  let data_len := Z.of_nat (length data) in
  exists w',
    write_block pickle_dumps gzip_compress self block_id offset w
    = (Ok (offset + data_len), w') /\
    fs w' = <[dev_path d := content ++ data]> (fs w) /\
    heap w' self
    = set_total_length (total_length (heap w self) + data_len)
        (set_index (Some (<[PInt block_id := IRange (offset, data_len)]> idx))
           (set_handle (Some (set_pos (length (content ++ data)) d)) (heap w self))) /\
    frame self w w'.
Proof.
  intros Hh Hm Hfs Hpos Hidx Hblk data data_len.
  unfold write_block, serialize_block, handle_write, get_self, upd_self. mstep.
  rewrite Hblk. mstep. rewrite Hh. mstep. rewrite Hm. mstep.
  rewrite !fn_lookup_insert. simpl. rewrite Hidx. mstep.
  eexists. split; [reflexivity |]. simpl.
  split; [| split].
  - unfold file_content. rewrite Hfs. simpl. rewrite Hpos, write_at_end. reflexivity.
  - rewrite !fn_lookup_insert. rewrite length_app, Hpos. reflexivity.
  - repeat split. intros i Hi. simpl. rewrite !fn_lookup_insert_ne by congruence.
    reflexivity.
Qed.

Lemma write_loop_spec self ids : forall (w : world) offset d content idx,
  handle (heap w self) = Some d -> dev_mode d = WB ->
  fs w !! dev_path d = Some content -> dev_pos d = length content ->
  _index (heap w self) = Some idx ->
  (forall i, i ∈ ids -> is_Some (blocks (heap w self) !! i)) ->
  let blks := blocks (heap w self) in
  let body := body_of pickle_dumps gzip_compress blks ids in
  let total := Z.of_nat (length body) in
  exists w',
    mfor ids (write_block pickle_dumps gzip_compress self) offset w
    = (Ok (offset + total), w') /\
    fs w' = <[dev_path d := content ++ body]> (fs w) /\
    heap w' self
    = set_total_length (total_length (heap w self) + total)
        (set_index
           (Some (record_entries idx
                    (index_entries pickle_dumps gzip_compress blks ids offset)))
           (set_handle (Some (set_pos (length (content ++ body)) d)) (heap w self))) /\
    frame self w w'.
Proof.
  induction ids as [|i ids IH]; intros w offset d content idx Hh Hm Hfs Hpos Hidx Hin;
    cbv zeta.
  - exists w. unfold body_of. simpl. unfold mret.
    rewrite Z.add_0_r, app_nil_r. split; [reflexivity |].
    split; [symmetry; apply insert_id; exact Hfs |].
    split; [| apply frame_refl].
    destruct (heap w self), d; simpl in *. subst. rewrite Z.add_0_r. reflexivity.
  - destruct (Hin i) as [blk Hblk]; [left |].
    destruct (write_block_spec self w i offset d content idx blk Hh Hm Hfs Hpos Hidx Hblk)
      as (w1 & Hrun & Hfs1 & Hheap1 & Hfr1).
    cbn [mfor]. unfold mbind. rewrite Hrun.
    set (data := gzip_compress (pickle_dumps blk)) in *.
    destruct (IH w1 (offset + Z.of_nat (length data))
                (set_pos (length (content ++ data)) d) (content ++ data)
                (<[PInt i := IRange (offset, Z.of_nat (length data))]> idx))
      as (w' & Hrun' & Hfs' & Hheap' & Hfr').
    + rewrite Hheap1. reflexivity.
    + exact Hm.
    + rewrite Hfs1. simpl. apply lookup_insert_eq.
    + reflexivity.
    + rewrite Hheap1. reflexivity.
    + intros j Hj. rewrite Hheap1. simpl. apply Hin. right. exact Hj.
    + assert (Hb : blocks (heap w1 self) = blocks (heap w self))
        by (rewrite Hheap1; reflexivity).
      rewrite Hb in *.
      assert (Hp : block_payload pickle_dumps gzip_compress (blocks (heap w self)) i = data)
        by (unfold block_payload; rewrite Hblk; reflexivity).
      assert (Hbody : body_of pickle_dumps gzip_compress (blocks (heap w self)) (i :: ids)
                      = data ++ body_of pickle_dumps gzip_compress (blocks (heap w self)) ids)
        by (unfold body_of; simpl; rewrite Hp; reflexivity).
      exists w'. rewrite Hbody. split; [| split; [| split]].
      * rewrite Hrun'. rewrite length_app. do 2 f_equal. lia.
      * rewrite Hfs', Hfs1. simpl. rewrite insert_insert_eq, <- app_assoc. reflexivity.
      * rewrite Hheap', Hheap1. simpl. unfold payload_len. rewrite Hp.
        rewrite <- !app_assoc, !length_app.
        unfold set_total_length, set_index, set_handle, set_pos. simpl.
        f_equal. lia.
      * eapply frame_trans; eassumption.
Qed.

(** [sorted(self.blocks)]: the block ids, each once, in ascending order. *)
Lemma sorted_block_ids_elem (blks : gmap Z block) i :
  i ∈ sorted_block_ids blks <-> is_Some (blks !! i).
Proof.
  unfold sorted_block_ids. rewrite merge_sort_Permutation.
  rewrite list_elem_of_fmap. split.
  - intros ([j blk] & -> & Hin). apply elem_of_map_to_list in Hin. eauto.
  - intros [blk Hblk]. exists (i, blk). split; [reflexivity |].
    apply elem_of_map_to_list. exact Hblk.
Qed.

Lemma sorted_block_ids_NoDup (blks : gmap Z block) : NoDup (sorted_block_ids blks).
Proof.
  unfold sorted_block_ids. rewrite merge_sort_Permutation.
  apply NoDup_fst_map_to_list.
Qed.

Lemma StronglySorted_le_lt (l : list Z) :
  NoDup l -> StronglySorted Z.le l -> StronglySorted Z.lt l.
Proof.
  induction 2 as [|x l Hs IH Hall]; constructor.
  - apply IH. eapply NoDup_cons_1_2; eassumption.
  - apply NoDup_cons in H as [Hx _].
    rewrite Forall_forall in *. intros y Hy.
    specialize (Hall y Hy). assert (x <> y) by (intros ->; contradiction). lia.
Qed.

Lemma sorted_block_ids_sorted (blks : gmap Z block) :
  StronglySorted Z.lt (sorted_block_ids blks).
Proof.
  apply StronglySorted_le_lt; [apply sorted_block_ids_NoDup |].
  unfold sorted_block_ids. apply StronglySorted_merge_sort; apply _.
Qed.

Lemma sum_Z_app l1 l2 : sum_Z (l1 ++ l2) = sum_Z l1 + sum_Z l2.
Proof. unfold sum_Z. induction l1 as [|x l1 IH]; simpl; lia. Qed.

Lemma sum_Z_perm l1 l2 : l1 ≡ₚ l2 -> sum_Z l1 = sum_Z l2.
Proof. unfold sum_Z. induction 1; simpl; lia. Qed.

Lemma filter_lt_none (l : list Z) b :
  Forall (Z.lt b) l -> filter (fun i => i < b) l = [].
Proof.
  induction 1 as [|x l Hx _ IH]; [reflexivity |].
  rewrite filter_cons_False by lia. exact IH.
Qed.

(** In a sorted list the ids before [b] are the ids smaller than [b]. *)
Lemma filter_lt_sorted (pre post : list Z) b :
  StronglySorted Z.lt (pre ++ b :: post) ->
  filter (fun i => i < b) (pre ++ b :: post) = pre.
Proof.
  induction pre as [|x pre IH]; cbn [app]; intros Hs;
    apply StronglySorted_inv in Hs as [Hs Hall].
  - rewrite filter_cons_False by lia. apply filter_lt_none. exact Hall.
  - rewrite filter_cons_True.
    + f_equal. apply IH. exact Hs.
    + rewrite Forall_forall in Hall. apply Hall.
      apply elem_of_app. right. left.
Qed.

Lemma offset_of_sorted (blks : gmap Z block) pre post b :
  sorted_block_ids blks = pre ++ b :: post ->
  offset_of pickle_dumps gzip_compress blks b
  = sum_Z (payload_len pickle_dumps gzip_compress blks <$> pre).
Proof.
  intros Hids. unfold offset_of.
  rewrite <- (filter_lt_sorted pre post b)
    by (rewrite <- Hids; apply sorted_block_ids_sorted).
  rewrite <- Hids. apply sum_Z_perm. apply fmap_Permutation.
  unfold sorted_block_ids. rewrite merge_sort_Permutation. reflexivity.
Qed.

Lemma body_of_length (blks : gmap Z block) ids :
  Z.of_nat (length (body_of pickle_dumps gzip_compress blks ids))
  = sum_Z (payload_len pickle_dumps gzip_compress blks <$> ids).
Proof.
  induction ids as [|i ids IH]; [reflexivity |].
  unfold body_of in *. cbn [fmap list_fmap concat].
  rewrite length_app, Nat2Z.inj_add, IH. reflexivity.
Qed.

(** The entry of a block is found at its offset in the body. *)
Lemma body_of_slice (blks : gmap Z block) pre post b :
  take (length (block_payload pickle_dumps gzip_compress blks b))
       (drop (Z.to_nat (sum_Z (payload_len pickle_dumps gzip_compress blks <$> pre)))
             (body_of pickle_dumps gzip_compress blks (pre ++ b :: post)))
  = block_payload pickle_dumps gzip_compress blks b.
Proof.
  rewrite <- body_of_length, Nat2Z.id.
  unfold body_of. rewrite fmap_app, concat_app, drop_app_length.
  simpl. apply take_app_length.
Qed.

Lemma record_entries_other (idx : gmap pyval ival) es k :
  (forall e, e ∈ es -> k <> PInt e.1) ->
  record_entries idx es !! k = idx !! k.
Proof.
  revert idx. induction es as [|e es IH]; intros idx Hk; [reflexivity |].
  unfold record_entries in *. cbn [foldl]. rewrite IH.
  - apply lookup_insert_ne. intros Heq. apply (Hk e); [left | congruence].
  - intros e' He'. apply Hk. right. exact He'.
Qed.

Lemma index_entries_ids (blks : gmap Z block) ids : forall offset e,
  e ∈ index_entries pickle_dumps gzip_compress blks ids offset -> e.1 ∈ ids.
Proof.
  induction ids as [|i ids IH]; intros offset e; cbn [index_entries].
  - intros H. inversion H.
  - intros H. apply elem_of_cons in H as [->|H]; [left | right; eapply IH; exact H].
Qed.

Lemma index_entries_lookup (blks : gmap Z block) pre post b : forall idx offset,
  b ∉ post ->
  record_entries idx (index_entries pickle_dumps gzip_compress blks (pre ++ b :: post) offset)
    !! PInt b
  = Some (IRange (offset + sum_Z (payload_len pickle_dumps gzip_compress blks <$> pre),
                  payload_len pickle_dumps gzip_compress blks b)).
Proof.
  induction pre as [|i pre IH]; intros idx offset Hb.
  - cbn [app index_entries]. unfold record_entries. cbn [foldl].
    fold (record_entries (<[PInt b := IRange (offset, payload_len pickle_dumps gzip_compress blks b)]> idx)
            (index_entries pickle_dumps gzip_compress blks post
               (offset + payload_len pickle_dumps gzip_compress blks b))).
    rewrite record_entries_other.
    + cbn [fst snd]. rewrite lookup_insert_eq. unfold sum_Z. cbn [fmap list_fmap foldr].
      rewrite Z.add_0_r. reflexivity.
    + intros e He [= Heq]. apply index_entries_ids in He. congruence.
  - cbn [app index_entries]. unfold record_entries. cbn [foldl].
    fold (record_entries (<[PInt i := IRange (offset, payload_len pickle_dumps gzip_compress blks i)]> idx)
            (index_entries pickle_dumps gzip_compress blks (pre ++ b :: post)
               (offset + payload_len pickle_dumps gzip_compress blks i))).
    rewrite IH by exact Hb. cbn [fmap list_fmap]. unfold sum_Z. cbn [foldr].
    do 3 f_equal. lia.
Qed.

Lemma ensure_open_open self (w : world) d :
  handle (heap w self) = Some d -> ensure_open self w = (Ok tt, w).
Proof.
  intros Hh. unfold ensure_open, get_self, is_open. mstep. rewrite Hh. reflexivity.
Qed.

Lemma close_if_configured_spec self (w : world) :
  exists w',
    close_if_configured self w = (Ok tt, w') /\
    fs w' = fs w /\
    heap w' self
    = set_handle (if combine_close_handles (config (heap w self)) then None
                  else handle (heap w self)) (heap w self) /\
    frame self w w'.
Proof.
  unfold close_if_configured, close, get_self, upd_self, is_open. mstep.
  destruct (combine_close_handles (config (heap w self))); simpl.
  - destruct (handle (heap w self)) eqn:Hh; simpl.
    + eexists. split; [reflexivity |]. simpl. rewrite fn_lookup_insert.
      repeat split. intros i Hi. simpl. rewrite fn_lookup_insert_ne by congruence.
      reflexivity.
    + exists w. repeat split. destruct (heap w self); simpl in *. subst. reflexivity.
  - exists w. repeat split. destruct (heap w self); reflexivity.
Qed.

(** The whole pass on an open, writable handle positioned at the end of its
    file. *)
Lemma write_and_index_run self (w : world) d content idx :
  handle (heap w self) = Some d -> dev_mode d = WB ->
  fs w !! dev_path d = Some content -> dev_pos d = length content ->
  _index (heap w self) = Some idx ->
  let o := heap w self in
  let blks := blocks o in
  let ids := sorted_block_ids blks in
  let body := body_of pickle_dumps gzip_compress blks ids in
  exists w',
    write_and_index pickle_dumps gzip_compress self w = (Ok tt, w') /\
    fs w' = <[dev_path d := content ++ body]> (fs w) /\
    heap w' self
    = set_handle (if combine_close_handles (config o) then None
                  else Some (set_pos (length (content ++ body)) d))
        (set_total_length (total_length o + Z.of_nat (length body))
           (set_index
              (Some (record_entries idx
                       (index_entries pickle_dumps gzip_compress blks ids 0)))
              o)) /\
    frame self w w'.
Proof.
  intros Hh Hm Hfs Hpos Hidx o blks ids body.
  destruct (write_loop_spec self ids w 0 d content idx Hh Hm Hfs Hpos Hidx)
    as (w1 & Hrun & Hfs1 & Hheap1 & Hfr1).
  { intros i Hi. apply sorted_block_ids_elem. exact Hi. }
  destruct (close_if_configured_spec self w1) as (w' & Hrun' & Hfs' & Hheap' & Hfr').
  exists w'. split; [| split; [| split]].
  - unfold write_and_index, mbind.
    rewrite (ensure_open_open self w d Hh). unfold get_self at 1.
    fold o blks ids. rewrite Hrun. exact Hrun'.
  - rewrite Hfs'. exact Hfs1.
  - rewrite Hheap', Hheap1. subst o blks ids body. simpl.
    destruct (combine_close_handles (config (heap w self))); reflexivity.
  - eapply frame_trans; eassumption.
Qed.

(** The entry recorded for a buffered block, and where its payload lies in
    the body. *)
Lemma written_index_entry (blks : gmap Z block) b blk idx :
  blks !! b = Some blk ->
  let ids := sorted_block_ids blks in
  let data := gzip_compress (pickle_dumps blk) in
  let offset := offset_of pickle_dumps gzip_compress blks b in
  record_entries idx (index_entries pickle_dumps gzip_compress blks ids 0) !! PInt b
  = Some (IRange (offset, Z.of_nat (length data))) /\
  0 <= offset /\
  take (length data)
       (drop (Z.to_nat offset) (body_of pickle_dumps gzip_compress blks ids)) = data.
Proof.
  intros Hblk ids data offset.
  assert (Hin : b ∈ ids) by (apply sorted_block_ids_elem; eauto).
  apply list_elem_of_split in Hin as (pre & post & Hids).
  assert (Hnd : NoDup (pre ++ b :: post))
    by (rewrite <- Hids; apply sorted_block_ids_NoDup).
  assert (Hpost : b ∉ post).
  { apply NoDup_app in Hnd as (_ & _ & Hnd). apply NoDup_cons in Hnd as [? _]. assumption. }
  assert (Hp : block_payload pickle_dumps gzip_compress blks b = data)
    by (unfold block_payload; rewrite Hblk; reflexivity).
  assert (Hoff : offset = sum_Z (payload_len pickle_dumps gzip_compress blks <$> pre))
    by (apply (offset_of_sorted blks pre post b Hids)).
  split; [| split].
  - rewrite Hids, index_entries_lookup by exact Hpost.
    rewrite Z.add_0_l, <- Hoff. unfold payload_len. rewrite Hp. reflexivity.
  - rewrite Hoff, <- body_of_length. lia.
  - rewrite Hoff. rewrite Hids. rewrite <- Hp. apply body_of_slice.
Qed.

(** No entry is recorded under an id that names no buffered block. *)
Lemma written_index_none (blks : gmap Z block) b idx :
  blks !! b = None ->
  record_entries idx
    (index_entries pickle_dumps gzip_compress blks (sorted_block_ids blks) 0) !! PInt b
  = idx !! PInt b.
Proof.
  intros Hb. apply record_entries_other. intros e He [= Heq].
  apply index_entries_ids, sorted_block_ids_elem in He. rewrite <- Heq, Hb in He.
  destruct He as [? [=]].
Qed.

(** C7.  On an open, writable handle positioned at the end of its file,
    [write_and_index] appends the payloads of the buffered blocks in
    ascending block-id order ([ids] is strictly increasing and holds exactly
    the block ids), and for every block records under its id the pair
    (offset, length): length is the byte length of the block's compressed
    payload, offset is the sum of the compressed lengths of all blocks with
    a smaller id, and the [length] bytes found [offset] bytes into the body
    are that payload. *)
Theorem write_and_index_offsets self (w : world) d content idx :
  handle (heap w self) = Some d -> dev_mode d = WB ->
  fs w !! dev_path d = Some content -> dev_pos d = length content ->
  _index (heap w self) = Some idx ->
  let blks := blocks (heap w self) in
  let ids := sorted_block_ids blks in
  let body := body_of pickle_dumps gzip_compress blks ids in
  exists w' idx',
    write_and_index pickle_dumps gzip_compress self w = (Ok tt, w') /\
    StronglySorted Z.lt ids /\
    (forall i, i ∈ ids <-> is_Some (blks !! i)) /\
    fs w' !! dev_path d = Some (content ++ body) /\
    _index (heap w' self) = Some idx' /\
    forall b blk, blks !! b = Some blk ->
      let data := gzip_compress (pickle_dumps blk) in
      let offset := offset_of pickle_dumps gzip_compress blks b in
      idx' !! PInt b = Some (IRange (offset, Z.of_nat (length data))) /\
      0 <= offset /\
      take (length data) (drop (Z.to_nat offset) body) = data.
Proof.
  intros Hh Hm Hfs Hpos Hidx blks ids body.
  destruct (write_and_index_run self w d content idx Hh Hm Hfs Hpos Hidx)
    as (w' & Hrun & Hfs' & Hheap' & _).
  eexists w', _. split; [exact Hrun |].
  split; [apply sorted_block_ids_sorted |].
  split; [apply sorted_block_ids_elem |].
  split; [rewrite Hfs'; apply lookup_insert_eq |].
  split; [rewrite Hheap'; reflexivity |].
  intros b blk Hblk. apply written_index_entry. exact Hblk.
Qed.

(** C4, as amended.  On an open, writable handle positioned at the end of
    its file, [write_and_index] adds to the file exactly the concatenated
    compressed payloads of the buffered blocks, in ascending block-id order,
    and nothing else: no other file changes, nothing is printed, the header
    held by the object is left as it was, and the index stays in memory, one
    (offset, length) tuple per block id.  On a fresh file the file is the
    body alone, so no header record precedes the payloads. *)
Theorem write_and_index_writes_body_only self (w : world) d content idx :
  handle (heap w self) = Some d -> dev_mode d = WB ->
  fs w !! dev_path d = Some content -> dev_pos d = length content ->
  _index (heap w self) = Some idx ->
  let blks := blocks (heap w self) in
  let body := body_of pickle_dumps gzip_compress blks (sorted_block_ids blks) in
  exists w',
    write_and_index pickle_dumps gzip_compress self w = (Ok tt, w') /\
    fs w' !! dev_path d = Some (content ++ body) /\
    (content = [] -> fs w' !! dev_path d = Some body) /\
    (forall p, p <> dev_path d -> fs w' !! p = fs w !! p) /\
    _header (heap w' self) = _header (heap w self) /\
    (exists idx', _index (heap w' self) = Some idx' /\
                  forall b, is_Some (blks !! b) -> exists r, idx' !! PInt b = Some (IRange r)) /\
    stdout w' = stdout w.
Proof.
  intros Hh Hm Hfs Hpos Hidx blks body.
  destruct (write_and_index_run self w d content idx Hh Hm Hfs Hpos Hidx)
    as (w' & Hrun & Hfs' & Hheap' & Hout & _).
  exists w'. split; [exact Hrun |].
  split; [rewrite Hfs'; apply lookup_insert_eq |].
  split; [intros ->; rewrite Hfs'; apply lookup_insert_eq |].
  split; [intros p Hp; rewrite Hfs'; apply lookup_insert_ne; congruence |].
  split; [rewrite Hheap'; reflexivity |].
  split; [| exact Hout].
  eexists. split; [rewrite Hheap'; reflexivity |].
  intros b Hb. apply sorted_block_ids_elem in Hb.
  apply list_elem_of_split in Hb as (pre & post & Hids).
  assert (Hnd : NoDup (pre ++ b :: post))
    by (rewrite <- Hids; apply sorted_block_ids_NoDup).
  eexists. fold blks. rewrite Hids. apply index_entries_lookup.
  apply NoDup_app in Hnd as (_ & _ & Hnd). apply NoDup_cons in Hnd as [? _]. assumption.
Qed.

End WriterFacts.

(** * Facts about the reader *)

Section ReaderFacts.

Context {Payload Meta : Type}.
Variable pickle_loads : bytes -> option (gmap string (@bval Payload)).
Variable gzip_decompress : bytes -> option bytes.
Variable json_loads : bytes -> option (@header_t Meta).

Local Abbreviation block := (gmap string (@bval Payload)).
Local Abbreviation snfile := (@snfile Payload Meta).
Local Abbreviation world := (@world Payload Meta).

Ltac mstep :=
  unfold mbind, mret, mraise, mget, mput, mmodify, mwhen, mtry in *; simpl in *.

(** [if not self.is_open(): self.open()], when [open] does not raise. *)
Lemma ensure_open_spec self (w : world) d :
  opened_device w (heap w self) = Some d ->
  exists w',
    ensure_open self w = (Ok tt, w') /\
    fs w' = fs w /\
    heap w' self = set_handle (Some d) (heap w self) /\
    frame self w w'.
Proof.
  unfold opened_device, ensure_open, open, close, get_self, upd_self, is_open. mstep.
  destruct (handle (heap w self)) as [d0|] eqn:Hh; simpl.
  - intros [= ->]. exists w. repeat split.
    destruct (heap w self); simpl in *. subst. reflexivity.
  - destruct (filename (heap w self)) as [name|]; [| discriminate]. mstep.
    rewrite Hh. simpl.
    destruct (fs w !! name); [| discriminate]. intros [= <-].
    eexists. split; [reflexivity |]. simpl. rewrite fn_lookup_insert.
    repeat split. intros i Hi. simpl. rewrite fn_lookup_insert_ne by congruence.
    reflexivity.
Qed.

(** The property [index] of a resident object is its attribute. *)
Lemma index_resident self (w : world) :
  resident (heap w self) ->
  index json_loads self w = (Ok (_index (heap w self)), w).
Proof.
  unfold index, get_self. mstep. intros [Hl | [h Hh]].
  - rewrite Hl. reflexivity.
  - rewrite Hh. simpl. rewrite andb_false_r. reflexivity.
Qed.

Lemma index_getitem_resident self (w : world) contig idx v :
  resident (heap w self) -> _index (heap w self) = Some idx -> idx !! contig = Some v ->
  index_getitem json_loads self contig w = (Ok v, w).
Proof.
  intros Hr Hidx Hv. unfold index_getitem, mbind. rewrite index_resident by exact Hr.
  rewrite Hidx, Hv. reflexivity.
Qed.

Lemma ensure_open_fail self (w : world) :
  opened_device w (heap w self) = None ->
  exists e, ensure_open self w = (Raise e, w).
Proof.
  unfold opened_device, ensure_open, open, close, get_self, upd_self, is_open. mstep.
  destruct (handle (heap w self)) as [d0|] eqn:Hh; simpl; [discriminate |].
  destruct (filename (heap w self)) as [name|]; mstep.
  - rewrite Hh. simpl. destruct (fs w !! name); [discriminate |].
    intros _. eexists. reflexivity.
  - rewrite Hh. simpl. intros _. eexists. reflexivity.
Qed.

(** A call for a contig or block id the index lacks. *)
Lemma read_blocks_absent_run self (w : world) contig block_index d idx :
  opened_device w (heap w self) = Some d ->
  resident (heap w self) ->
  _index (heap w self) = Some idx ->
  index_lacks idx contig (py_str block_index) ->
  exists w',
    read_blocks pickle_loads gzip_decompress json_loads self contig block_index w
    = (Ok None, w') /\
    stdout w' = stdout w /\ fs w' = fs w /\
    exists h, heap w' self = set_handle h (heap w self).
Proof.
  intros Hd Hres Hidx Hlack.
  destruct (ensure_open_spec self w d Hd) as (w0 & Hrun0 & Hfs0 & Hheap0 & Hout0 & _).
  assert (Hres0 : resident (heap w0 self)) by (rewrite Hheap0; exact Hres).
  assert (Hidx0 : _index (heap w0 self) = Some idx) by (rewrite Hheap0; exact Hidx).
  destruct (close_if_configured_spec self w0) as (w1 & Hrun1 & Hfs1 & Hheap1 & Hout1 & _).
  exists w1. split; [| split; [congruence | split; [congruence |]]].
  2:{ eexists. rewrite Hheap1, Hheap0. reflexivity. }
  unfold read_blocks. unfold mbind at 1. rewrite Hrun0.
  unfold mbind at 1. rewrite index_resident by exact Hres0. rewrite Hidx0.
  unfold index_lacks in Hlack.
  destruct (idx !! contig) as [[r|sub]|] eqn:Hc.
  - rewrite bool_decide_eq_false_2 by discriminate.
    unfold mbind at 1. rewrite (index_getitem_resident self w0 contig idx _ Hres0 Hidx0 Hc).
    unfold mbind, mret. rewrite Hrun1. reflexivity.
  - rewrite bool_decide_eq_false_2 by discriminate.
    unfold mbind at 1. rewrite (index_getitem_resident self w0 contig idx _ Hres0 Hidx0 Hc).
    rewrite bool_decide_eq_true_2 by exact Hlack.
    unfold mbind, mret. rewrite Hrun1. reflexivity.
  - rewrite bool_decide_eq_true_2 by reflexivity.
    unfold mbind, mret. rewrite Hrun1. reflexivity.
Qed.

(** C5.  When the device is open or can be opened, and the object answers
    from the index it holds, a call whose contig is not in the index, or
    whose contig is in the index without the requested block id, returns
    [None]: nothing is raised, nothing is printed, storage is unchanged and
    of the object only the device handle may change.  The index may be one
    read back from a header (second case) or the one [write_and_index] has
    just built, whose entries are tuples that hold no block id (third
    case). *)
Theorem read_blocks_absent self (w : world) contig block_index d idx :
  opened_device w (heap w self) = Some d ->
  resident (heap w self) ->
  _index (heap w self) = Some idx ->
  idx !! contig = None \/
  (exists sub, idx !! contig = Some (ISub sub) /\
               sub !! PStr (py_str block_index) = None) \/
  (exists r, idx !! contig = Some (IRange r)) ->
  exists w',
    read_blocks pickle_loads gzip_decompress json_loads self contig block_index w
    = (Ok None, w') /\
    (forall e w'', read_blocks pickle_loads gzip_decompress json_loads self contig
                     block_index w <> (Raise e, w'')) /\
    stdout w' = stdout w /\ fs w' = fs w /\
    exists h, heap w' self = set_handle h (heap w self).
Proof.
  intros Hd Hres Hidx Hcases.
  assert (Hlack : index_lacks idx contig (py_str block_index)).
  { unfold index_lacks.
    destruct Hcases as [-> | [(sub & -> & Hs) | (r & ->)]]; [exact I | exact Hs | exact I]. }
  destruct (read_blocks_absent_run self w contig block_index d idx Hd Hres Hidx Hlack)
    as (w' & Hrun & Hout & Hfs & Hheap).
  exists w'. split; [exact Hrun |].
  split; [intros e w'' Heq; rewrite Hrun in Heq; discriminate |].
  split; [exact Hout |]. split; [exact Hfs | exact Hheap].
Qed.

(** C9.  [read_blocks] looks the block id up under [str(block_index)]: a
    call with a block id and a call with its string form are the same
    computation; and on an object that answers from the index it holds, a
    call with the integer [z] returns blocks only if the index entry of the
    contig has the key [str(z)], a string (an entry under the integer key
    [z] is not found). *)
Theorem read_blocks_str_coercion self contig :
  (forall block_index (w : world),
      read_blocks pickle_loads gzip_decompress json_loads self contig block_index w
      = read_blocks pickle_loads gzip_decompress json_loads self contig
          (PStr (py_str block_index)) w) /\
  (forall z (w : world) found w',
      resident (heap w self) ->
      read_blocks pickle_loads gzip_decompress json_loads self contig (PInt z) w
      = (Ok (Some found), w') ->
      exists idx sub ranges,
        _index (heap w self) = Some idx /\
        idx !! contig = Some (ISub sub) /\
        sub !! PStr (pretty z) = Some ranges).
Proof.
  split; [reflexivity |].
  intros z w found w' Hres Hrun.
  destruct (opened_device w (heap w self)) as [d|] eqn:Hd.
  2:{ destruct (ensure_open_fail self w Hd) as [e He].
      unfold read_blocks in Hrun. unfold mbind at 1 in Hrun. rewrite He in Hrun.
      discriminate. }
  destruct (_index (heap w self)) as [idx|] eqn:Hidx.
  2:{ destruct (ensure_open_spec self w d Hd) as (w0 & Hrun0 & _ & Hheap0 & _).
      unfold read_blocks in Hrun. unfold mbind at 1 in Hrun. rewrite Hrun0 in Hrun.
      unfold mbind at 1 in Hrun. rewrite index_resident in Hrun by (rewrite Hheap0; exact Hres).
      rewrite Hheap0 in Hrun. simpl in Hrun. rewrite Hidx in Hrun. discriminate. }
  destruct (idx !! contig) as [[r|sub]|] eqn:Hc.
  - destruct (read_blocks_absent_run self w contig (PInt z) d idx Hd Hres Hidx) as (w1 & H1 & _).
    { unfold index_lacks. rewrite Hc. exact I. }
    rewrite H1 in Hrun. discriminate.
  - destruct (sub !! PStr (pretty z)) as [ranges|] eqn:Hs; [eauto 6 |].
    destruct (read_blocks_absent_run self w contig (PInt z) d idx Hd Hres Hidx) as (w1 & H1 & _).
    { unfold index_lacks. rewrite Hc. exact Hs. }
    rewrite H1 in Hrun. discriminate.
  - destruct (read_blocks_absent_run self w contig (PInt z) d idx Hd Hres Hidx) as (w1 & H1 & _).
    { unfold index_lacks. rewrite Hc. exact I. }
    rewrite H1 in Hrun. discriminate.
Qed.

(** The [try] body of the loop on an open, readable handle. *)
Lemma read_range_spec self (w : world) d hl r :
  handle (heap w self) = Some d -> dev_mode d = RB ->
  header_length (heap w self) = Some hl ->
  exists w' d',
    read_range pickle_loads gzip_decompress self r.1 r.2 w
    = (decode_range pickle_loads gzip_decompress (file_content w d) hl r, w') /\
    fs w' = fs w /\
    heap w' self = set_handle (Some d') (heap w self) /\
    dev_mode d' = RB /\ dev_path d' = dev_path d /\
    frame self w w'.
Proof.
  intros Hh Hm Hhl.
  unfold read_range, decode_range, handle_seek, handle_read, unserialize_block,
    get_self, upd_self.
  mstep. rewrite Hhl, Hh. simpl.
  destruct (decide (hl + r.1 < 0)); simpl.
  { exists w, d. repeat split; auto.
    destruct (heap w self); simpl in *. subst. reflexivity. }
  rewrite !fn_lookup_insert. simpl. rewrite Hm. simpl.
  destruct (decide (r.2 < -1)); simpl.
  { eexists _, (set_pos (Z.to_nat (hl + r.1)) d).
    split; [reflexivity |]. simpl. rewrite fn_lookup_insert.
    repeat split; auto. intros i Hi. simpl. rewrite fn_lookup_insert_ne by congruence.
    reflexivity. }
  unfold file_content. simpl.
  set (rest := drop (Z.to_nat (hl + r.1)) (default [] (fs w !! dev_path d))).
  set (raw := if decide (r.2 < 0) then rest else take (Z.to_nat r.2) rest).
  eexists _, (set_pos (Z.to_nat (hl + r.1) + length raw) d).
  split; [| split; [| split; [| split; [| split]]]].
  - destruct (gzip_decompress raw) as [data|]; simpl; [| reflexivity].
    destruct (pickle_loads data); reflexivity.
  - destruct (gzip_decompress raw) as [data|]; simpl; [| reflexivity].
    destruct (pickle_loads data); reflexivity.
  - destruct (gzip_decompress raw) as [data|]; simpl;
      [destruct (pickle_loads data); simpl |]; rewrite !fn_lookup_insert; reflexivity.
  - exact Hm.
  - reflexivity.
  - destruct (gzip_decompress raw) as [data|]; simpl;
      [destruct (pickle_loads data); simpl |];
      (repeat split; intros i Hi; simpl; rewrite !fn_lookup_insert_ne by congruence;
       reflexivity).
Qed.

Lemma read_blocks_body_spec self (w : world) contig block_index path hl r acc :
  reader_ready self w path hl ->
  let content := default [] (fs w !! path) in
  let res := decode_range pickle_loads gzip_decompress content hl r in
  exists w',
    read_blocks_body pickle_loads gzip_decompress self contig block_index r acc w
    = (match res with Ok blk => Ok (acc ++ [blk]) | Raise e => Raise e end, w') /\
    fs w' = fs w /\
    stdout w' = stdout w ++ failure_report contig block_index (filename (heap w self)) res /\
    (exists h, heap w' self = set_handle h (heap w self)) /\
    (forall blk, res = Ok blk -> reader_ready self w' path hl).
Proof.
  intros (d & Hh & Hm & Hp & Hhl) content res.
  destruct (read_range_spec self w d hl r Hh Hm Hhl)
    as (w1 & d1 & Hrun & Hfs1 & Hheap1 & Hm1 & Hp1 & Hout1 & _).
  unfold file_content in Hrun. rewrite Hp in Hrun. fold content res in Hrun.
  unfold read_blocks_body, mtry. unfold mbind at 1. rewrite Hrun.
  destruct res as [blk|e] eqn:Hres.
  - exists w1. unfold mret. simpl. rewrite app_nil_r.
    split; [reflexivity |]. split; [exact Hfs1 |]. split; [exact Hout1 |].
    split; [eauto |]. intros _ _. exists d1. rewrite Hheap1. simpl.
    repeat split; auto. congruence.
  - unfold get_self, print. unfold mbind at 1 2. simpl.
    destruct (close_if_configured_spec self (set_stdout
                (stdout w1 ++ [BlockError contig block_index (filename (heap w1 self)) e]) w1))
      as (w2 & Hrun2 & Hfs2 & Hheap2 & Hout2 & _).
    unfold mbind at 1. rewrite Hrun2. unfold mraise.
    exists w2. split; [reflexivity |]. simpl in *.
    split; [congruence |].
    split; [rewrite Hout2, Hout1, Hheap1; reflexivity |].
    split; [| discriminate].
    rewrite Hheap2, Hheap1. simpl. eauto.
Qed.

(** The loop over the ranges. *)
Lemma read_loop_spec self contig block_index path hl ranges :
  forall (w : world) acc,
    reader_ready self w path hl ->
    let content := default [] (fs w !! path) in
    let res := decode_all pickle_loads gzip_decompress content hl ranges acc in
    exists w',
      mfor ranges (read_blocks_body pickle_loads gzip_decompress self contig block_index)
           acc w = (res, w') /\
      fs w' = fs w /\
      stdout w' = stdout w ++ failure_report contig block_index (filename (heap w self)) res /\
      (exists h, heap w' self = set_handle h (heap w self)).
Proof.
  induction ranges as [|r ranges IH]; intros w acc Hready; cbv zeta.
  - exists w. simpl. rewrite app_nil_r. repeat split.
    exists (handle (heap w self)). destruct (heap w self); reflexivity.
  - destruct (read_blocks_body_spec self w contig block_index path hl r acc Hready)
      as (w1 & Hrun & Hfs1 & Hout1 & [h1 Hheap1] & Hready1).
    cbn [mfor decode_all]. unfold mbind. rewrite Hrun.
    destruct (decode_range pickle_loads gzip_decompress (default [] (fs w !! path)) hl r)
      as [blk|e] eqn:Hres.
    + destruct (IH w1 (acc ++ [blk]) (Hready1 blk eq_refl))
        as (w2 & Hrun2 & Hfs2 & Hout2 & [h2 Hheap2]).
      rewrite Hfs1 in Hrun2, Hout2.
      exists w2. split; [exact Hrun2 |]. split; [congruence |].
      split.
      * rewrite Hout2, Hout1. simpl. rewrite app_nil_r, Hheap1. reflexivity.
      * exists h2. rewrite Hheap2, Hheap1. reflexivity.
    + exists w1. split; [reflexivity |]. split; [exact Hfs1 |].
      split; [exact Hout1 | eauto].
Qed.

(** A call that finds the contig and the block id, on a readable device. *)
Lemma read_blocks_found self (w : world) contig block_index d idx sub ranges hl :
  opened_device w (heap w self) = Some d -> dev_mode d = RB ->
  resident (heap w self) ->
  _index (heap w self) = Some idx ->
  idx !! contig = Some (ISub sub) ->
  sub !! PStr (py_str block_index) = Some ranges ->
  header_length (heap w self) = Some hl ->
  let content := default [] (fs w !! dev_path d) in
  let res := decode_all pickle_loads gzip_decompress content hl ranges [] in
  exists w',
    read_blocks pickle_loads gzip_decompress json_loads self contig block_index w
    = (match res with Ok found => Ok (Some found) | Raise e => Raise e end, w') /\
    fs w' = fs w /\
    stdout w' = stdout w
                ++ failure_report contig (py_str block_index) (filename (heap w self)) res.
Proof.
  intros Hd Hm Hres Hidx Hc Hs Hhl content res.
  destruct (ensure_open_spec self w d Hd) as (w0 & Hrun0 & Hfs0 & Hheap0 & Hout0 & _).
  assert (Hres0 : resident (heap w0 self)) by (rewrite Hheap0; exact Hres).
  assert (Hidx0 : _index (heap w0 self) = Some idx) by (rewrite Hheap0; exact Hidx).
  assert (Hready : reader_ready self w0 (dev_path d) hl).
  { exists d. rewrite Hheap0. simpl. auto. }
  destruct (read_loop_spec self contig (py_str block_index) (dev_path d) hl ranges w0 []
              Hready) as (w1 & Hrun1 & Hfs1 & Hout1 & _).
  rewrite Hfs0 in Hrun1, Hout1. fold content res in Hrun1, Hout1.
  assert (Hfn : filename (heap w0 self) = filename (heap w self))
    by (rewrite Hheap0; reflexivity).
  rewrite Hfn in Hout1.
  unfold read_blocks. unfold mbind at 1. rewrite Hrun0.
  unfold mbind at 1. rewrite index_resident by exact Hres0. rewrite Hidx0.
  rewrite bool_decide_eq_false_2 by (rewrite Hc; discriminate).
  unfold mbind at 1. rewrite (index_getitem_resident self w0 contig idx _ Hres0 Hidx0 Hc).
  rewrite bool_decide_eq_false_2 by (rewrite Hs; discriminate).
  unfold mbind at 1. rewrite (index_getitem_resident self w0 contig idx _ Hres0 Hidx0 Hc).
  rewrite Hs. unfold mbind at 1. rewrite Hrun1.
  destruct res as [found|e].
  - destruct (close_if_configured_spec self w1) as (w2 & Hrun2 & Hfs2 & _ & Hout2 & _).
    unfold mbind, mret. rewrite Hrun2.
    exists w2. split; [reflexivity |]. split; congruence.
  - exists w1. split; [reflexivity |]. split; congruence.
Qed.

Lemma decode_all_fail content hl pre r post e : forall acc,
  Forall (fun r' => exists blk, decode_range pickle_loads gzip_decompress content hl r' = Ok blk)
         pre ->
  decode_range pickle_loads gzip_decompress content hl r = Raise e ->
  decode_all pickle_loads gzip_decompress content hl (pre ++ r :: post) acc = Raise e.
Proof.
  induction pre as [|r' pre IH]; intros acc Hpre Hr; cbn [app decode_all].
  - rewrite Hr. reflexivity.
  - apply Forall_cons in Hpre as [[blk ->] Hpre]. apply IH; assumption.
Qed.

(** C6.  On an open (or openable) readable device, with the contig and the
    block id in the index: when reading a range fails (the seek position is
    negative, or the bytes do not decompress or do not unpickle), the call
    raises that very error, whatever number of earlier ranges were read
    successfully; what it leaves on standard output is one report naming the
    contig, the block id and the file; no list of blocks is returned. *)
Theorem read_blocks_failure self (w : world) contig block_index d idx sub hl pre r post e :
  opened_device w (heap w self) = Some d -> dev_mode d = RB ->
  resident (heap w self) ->
  _index (heap w self) = Some idx ->
  idx !! contig = Some (ISub sub) ->
  sub !! PStr (py_str block_index) = Some (pre ++ r :: post) ->
  header_length (heap w self) = Some hl ->
  let content := default [] (fs w !! dev_path d) in
  Forall (fun r' => exists blk, decode_range pickle_loads gzip_decompress content hl r' = Ok blk)
         pre ->
  decode_range pickle_loads gzip_decompress content hl r = Raise e ->
  exists w',
    read_blocks pickle_loads gzip_decompress json_loads self contig block_index w
    = (Raise e, w') /\
    stdout w' = stdout w
                ++ [BlockError contig (py_str block_index) (filename (heap w self)) e].
Proof.
  intros Hd Hm Hres Hidx Hc Hs Hhl content Hpre Hr.
  destruct (read_blocks_found self w contig block_index d idx sub (pre ++ r :: post) hl
              Hd Hm Hres Hidx Hc Hs Hhl) as (w' & Hrun & _ & Hout).
  fold content in Hrun, Hout.
  rewrite (decode_all_fail content hl pre r post e [] Hpre Hr) in Hrun, Hout.
  exists w'. split; [exact Hrun | exact Hout].
Qed.

(** [SNFile.read_header] on a readable device whose next line parses to a
    header with an index. *)
Lemma SNFile_read_header_ok self (w : world) d h idx :
  opened_device w (heap w self) = Some d -> dev_mode d = RB ->
  let line := take_line (drop (dev_pos d) (file_content w d)) in
  json_loads (strip line) = Some h -> index_entry h = Some idx ->
  exists w',
    SNFile_read_header json_loads self w = (Ok tt, w') /\
    fs w' = fs w /\
    heap w' self
    = set_handle (if combine_close_handles (config (heap w self)) then None
                  else Some (set_pos (dev_pos d + length line) d))
        (set_index (Some idx)
           (set_header (Some h)
              (set_header_length (Some (Z.of_nat (length line))) (heap w self)))) /\
    frame self w w'.
Proof.
  intros Hd Hm line Hjson Hidx.
  destruct (ensure_open_spec self w d Hd) as (w0 & Hrun0 & Hfs0 & Hheap0 & Hfr0).
  assert (Hline : take_line (drop (dev_pos d) (file_content w0 d)) = line)
    by (unfold file_content; rewrite Hfs0; reflexivity).
  assert (Hrun1 : exists w1,
             (forall k : M world unit,
                 (_ <- mtry (header_text <- handle_readline self ;;
                             _ <- upd_self self
                                    (set_header_length (Some (Z.of_nat (length header_text)))) ;;
                             match json_loads (strip header_text) with
                             | None => mraise DecodeError
                             | Some h => upd_self self (set_header (Some h))
                             end)
                            (fun e => o <- get_self self ;;
                                      _ <- print (HeaderError (filename o) e) ;;
                                      mraise e) ;;
                  o <- get_self self ;;
                  _ <- match _header o with
                       | None => mraise TypeError
                       | Some h =>
                           match index_entry h with
                           | None => mraise KeyError
                           | Some idx => upd_self self (set_index (Some idx))
                           end
                       end ;;
                  k) w0 = k w1) /\
             fs w1 = fs w0 /\
             heap w1 self
             = set_index (Some idx)
                 (set_header (Some h)
                    (set_header_length (Some (Z.of_nat (length line)))
                       (set_handle (Some (set_pos (dev_pos d + length line) d))
                          (heap w self)))) /\
             frame self w0 w1).
  { eexists. split; [| split; [| split]].
    - intros k. unfold handle_readline, get_self, upd_self. mstep.
      rewrite Hheap0. simpl. rewrite Hm. simpl. rewrite Hline.
      rewrite !fn_lookup_insert. simpl. rewrite Hjson. simpl.
      rewrite !fn_lookup_insert. simpl. rewrite Hidx. simpl.
      reflexivity.
    - reflexivity.
    - simpl. rewrite !fn_lookup_insert. rewrite Hheap0. reflexivity.
    - repeat split. intros i Hi. simpl. rewrite !fn_lookup_insert_ne by congruence.
      reflexivity. }
  destruct Hrun1 as (w1 & Hrun1 & Hfs1 & Hheap1 & Hfr1).
  destruct (close_if_configured_spec self w1) as (w2 & Hrun2 & Hfs2 & Hheap2 & Hfr2).
  exists w2. split.
  { unfold SNFile_read_header. unfold mbind at 1. rewrite Hrun0.
    rewrite (Hrun1 (close_if_configured self)). exact Hrun2. }
  split; [congruence |].
  split.
  { rewrite Hheap2, Hheap1. simpl.
    destruct (combine_close_handles (config (heap w self))); reflexivity. }
  eapply frame_trans; [exact Hfr0 |].
  eapply frame_trans; [exact Hfr1 | exact Hfr2].
Qed.

End ReaderFacts.

(** * Facts about the round trip *)

Section RoundTripFacts.

Context {Payload Meta : Type}.
Variable TYPES : list string.
Variable pickle_dumps : gmap string (@bval Payload) -> bytes.
Variable pickle_loads : bytes -> option (gmap string (@bval Payload)).
Variable gzip_compress : bytes -> bytes.
Variable gzip_decompress : bytes -> option bytes.
Variable json_loads : bytes -> option (@header_t Meta).
Variable json_dumps : @header_t Meta -> bytes.

Local Abbreviation block := (gmap string (@bval Payload)).
Local Abbreviation snfile := (@snfile Payload Meta).
Local Abbreviation world := (@world Payload Meta).

Lemma nested_entries_elem (idx : gmap pyval ival) k rs :
  (k, rs) ∈ nested_entries idx <->
  exists b r, k = PStr (pretty b) /\ rs = [r] /\ idx !! PInt b = Some (IRange r).
Proof.
  unfold nested_entries. rewrite list_elem_of_omap. split.
  - intros ([k' v] & Hin & Hg). apply elem_of_map_to_list in Hin.
    destruct k' as [b|]; [| discriminate]. destruct v as [r|]; [| discriminate].
    injection Hg as <- <-. eauto.
  - intros (b & r & -> & -> & Hlk). exists (PInt b, IRange r).
    split; [apply elem_of_map_to_list; exact Hlk | reflexivity].
Qed.

Lemma nested_lookup_Some (idx : gmap pyval ival) b r :
  idx !! PInt b = Some (IRange r) ->
  (list_to_map (nested_entries idx) : gmap pyval (list (Z * Z))) !! PStr (pretty b)
  = Some [r].
Proof.
  intros Hlk. apply elem_of_list_to_map_1'.
  - intros rs Hin. apply nested_entries_elem in Hin as (b' & r' & Hk & -> & Hlk').
    injection Hk as Hk. apply (inj pretty) in Hk. subst b'. congruence.
  - apply nested_entries_elem. eauto.
Qed.

Lemma nested_lookup_None (idx : gmap pyval ival) b :
  idx !! PInt b = None ->
  (list_to_map (nested_entries idx) : gmap pyval (list (Z * Z))) !! PStr (pretty b)
  = None.
Proof.
  intros Hlk. apply eq_None_not_Some. intros [rs Hrs].
  apply elem_of_list_to_map_2, nested_entries_elem in Hrs as (b' & r' & Hk & _ & Hlk').
  injection Hk as Hk. apply (inj pretty) in Hk. subst b'. congruence.
Qed.

(** The first line of a file that starts with a newline-terminated record. *)
Lemma take_line_record (l rest : bytes) :
  newline ∉ l -> take_line (l ++ newline :: rest) = l ++ [newline].
Proof.
  induction l as [|b l IH]; intros Hn; [reflexivity |].
  apply not_elem_of_cons in Hn as [Hb Hl]. cbn [app take_line].
  destruct (Byte.eqb b newline) eqn:Heq.
  - apply Byte.byte_dec_bl in Heq. congruence.
  - f_equal. apply IH. exact Hl.
Qed.

(** Storing into the writer object of a world. *)
Lemma on_self_store_all wr (w : world) cfg cands :
  config (heap w wr) = cfg -> blocks (heap w wr) = ∅ ->
  0 < snf_block_size cfg < 2 ^ 53 ->
  Forall (fun c => 0 <= pos c < 2 ^ 53 /\ svtype c ∈ TYPES /\ svtype c <> "_COVERAGE")
         cands ->
  exists w' blks,
    on_self wr (store_all TYPES cands) w = (Ok tt, w') /\
    fs w' = fs w /\
    heap w' wr = set_blocks blks (heap w wr) /\
    (forall b, blks !! b = expected_block TYPES cfg cands b) /\
    frame wr w w'.
Proof.
  intros Hcfg Hempty Hbs Hall.
  destruct (store_all_spec TYPES cfg cands Hbs Hall [] (heap w wr) Hcfg)
    as (blks & Hrun & Hb).
  { intros b. rewrite Hempty, lookup_empty. unfold expected_block.
    rewrite decide_False; [reflexivity | intros H; inversion H]. }
  eexists _, blks. unfold on_self. rewrite Hrun.
  split; [reflexivity |]. simpl. rewrite fn_lookup_insert.
  repeat split; auto. intros i Hi. simpl. apply fn_lookup_insert_ne. congruence.
Qed.

Lemma buffered_lookup cfg cands :
  0 < snf_block_size cfg < 2 ^ 53 ->
  Forall (fun c => 0 <= pos c < 2 ^ 53 /\ svtype c ∈ TYPES /\ svtype c <> "_COVERAGE")
         cands ->
  forall b, @buffered Payload Meta TYPES cfg cands !! b = expected_block TYPES cfg cands b.
Proof.
  intros Hbs Hall.
  destruct (store_all_spec (Meta := Meta) TYPES cfg cands Hbs Hall [] (SNFile cfg None None)
              eq_refl) as (blks & Hrun & Hb).
  { intros b. simpl. rewrite lookup_empty. unfold expected_block.
    rewrite decide_False; [reflexivity | intros H; inversion H]. }
  unfold buffered. rewrite Hrun. exact Hb.
Qed.

(** Reading one range of an assembled file gives back the block whose
    payload lies there. *)
Lemma decode_range_assembled (header_text body data : bytes) offset blk blk' :
  0 <= offset ->
  take (length data) (drop (Z.to_nat offset) body) = data ->
  gzip_decompress data = Some (pickle_dumps blk) ->
  pickle_loads (pickle_dumps blk) = Some blk' ->
  decode_range pickle_loads gzip_decompress (header_text ++ body)
    (Z.of_nat (length header_text)) (offset, Z.of_nat (length data)) = Ok blk'.
Proof.
  intros Hoff Hslice Hgz Hpk. unfold decode_range. cbn [fst snd].
  rewrite decide_False by lia. rewrite decide_False by lia. rewrite decide_False by lia.
  replace (Z.to_nat (Z.of_nat (length header_text) + offset))
    with (length header_text + Z.to_nat offset)%nat by lia.
  rewrite drop_app_add, Nat2Z.id, Hslice, Hgz, Hpk. reflexivity.
Qed.

(** C2, as amended.  A new writer object with an open write handle on an
    empty file stores the candidates [cands] (positions from 0 to below
    2^53, block size from 1 to below 2^53, type tags from [TYPES]) and
    flushes them with [write_and_index]; the file is assembled with its
    header record; a new reader object opens it, reads the header and calls
    [read_blocks] for the block id [z].  When no candidate falls into block
    [z] the result is [None]; otherwise it is one block that holds, under
    every type tag, candidates with the attributes of the candidates of
    [cands] with that tag and with [floor(pos / block_size) * block_size = z],
    in insertion order, the read names of each being absent when read-name
    output is disabled and its own otherwise ([stored_form]).  The codecs are
    only asked to invert each other on the blocks and on the header that are
    written, and [pickle] to give back objects with the same attributes: the
    objects read are new ones.  Outside the bounds the block id is not the
    floor: a negative position is truncated towards zero, and a position
    from 2^53 on is rounded to a double first. *)
Theorem store_write_read_round_trip wr rd (w0 : world) cfg part out contig meta cands z :
  wr <> rd -> part <> out ->
  heap w0 wr
  = SNFile cfg (Some {| dev_mode := WB; dev_path := part; dev_pos := 0 |}) (Some part) ->
  heap w0 rd = SNFile cfg None (Some out) ->
  fs w0 !! part = Some [] ->
  0 < snf_block_size cfg < 2 ^ 53 ->
  Forall (fun c => 0 <= pos c < 2 ^ 53 /\ svtype c ∈ TYPES /\ svtype c <> "_COVERAGE")
         cands ->
  (forall b blk, expected_block TYPES cfg cands b = Some blk ->
                 gzip_decompress (gzip_compress (pickle_dumps blk)) = Some (pickle_dumps blk) /\
                 exists blk', pickle_loads (pickle_dumps blk) = Some blk' /\
                              same_block blk blk') ->
  let hdr := header_of contig meta
               (flat_index pickle_dumps gzip_compress
                  (@buffered Payload Meta TYPES cfg cands)) in
  newline ∉ json_dumps hdr ->
  json_loads (strip (json_dumps hdr ++ [newline])) = Some hdr ->
  exists w' res,
    round_trip TYPES pickle_dumps pickle_loads gzip_compress gzip_decompress
      json_loads json_dumps wr rd contig meta out cands (PInt z) w0
    = (Ok res, w') /\
    match expected_block TYPES cfg cands z with
    | Some blk => exists blk', res = Some [blk'] /\ same_block blk blk'
    | None => res = None
    end.
Proof.
  intros Hne Hpath Hwr Hrd Hpart Hbs Hall Hcodec hdr Hnl Hjson.
  (* store *)
  destruct (on_self_store_all wr w0 cfg cands) as (w1 & blks & Hrun1 & Hfs1 & Hheap1 & Hb & Hfr1);
    [rewrite Hwr; reflexivity | rewrite Hwr; reflexivity | exact Hbs | exact Hall |].
  assert (Hblks : blks = @buffered Payload Meta TYPES cfg cands).
  { apply map_eq. intros b. rewrite Hb, buffered_lookup by assumption. reflexivity. }
  (* flush *)
  set (d := {| dev_mode := WB; dev_path := part; dev_pos := 0 |}).
  destruct (write_and_index_run pickle_dumps gzip_compress wr w1 d [] ∅)
    as (w2 & Hrun2 & Hfs2 & Hheap2 & Hfr2);
    [rewrite Hheap1, Hwr; reflexivity | reflexivity | rewrite Hfs1; exact Hpart
    | reflexivity | rewrite Hheap1, Hwr; reflexivity |].
  assert (Hb1 : blocks (heap w1 wr) = blks) by (rewrite Hheap1; reflexivity).
  rewrite Hb1 in Hfs2, Hheap2. simpl in Hfs2.
  set (body := body_of pickle_dumps gzip_compress blks (sorted_block_ids blks)) in *.
  set (flat := flat_index pickle_dumps gzip_compress blks).
  (* assemble *)
  set (header_text := json_dumps hdr ++ [newline]).
  remember (set_fs (<[out := header_text ++ body]> (fs w2)) w2) as w3 eqn:Hw3.
  assert (Hrun3 : assemble_snf json_dumps wr contig meta out w2 = (Ok tt, w3)).
  { unfold assemble_snf, get_self, mbind, mget, mput. rewrite Hheap2, Hheap1, Hwr. simpl.
    rewrite Hw3. unfold header_text, hdr. rewrite Hfs2, lookup_insert_eq. simpl.
    rewrite <- Hblks. rewrite <- app_assoc. reflexivity. }
  (* the reader object *)
  assert (Hrd3 : heap w3 rd = SNFile cfg None (Some out)).
  { rewrite Hw3. simpl. destruct Hfr2 as (_ & _ & H2). destruct Hfr1 as (_ & _ & H1).
    rewrite H2, H1 by congruence. exact Hrd. }
  assert (Hout3 : fs w3 !! out = Some (header_text ++ body))
    by (rewrite Hw3; simpl; apply lookup_insert_eq).
  set (drd := {| dev_mode := RB; dev_path := out; dev_pos := 0 |}).
  destruct (SNFile_read_header_ok json_loads rd w3 drd hdr (nested_index contig flat))
    as (w4 & Hrun4 & Hfs4 & Hheap4 & _).
  { unfold opened_device. rewrite Hrd3. simpl. rewrite Hout3. reflexivity. }
  { reflexivity. }
  { unfold file_content. simpl. rewrite Hout3. simpl. unfold header_text.
    rewrite <- app_assoc. simpl. rewrite drop_0, take_line_record by exact Hnl.
    exact Hjson. }
  { unfold hdr, flat. rewrite Hblks. reflexivity. }
  assert (Hline : take_line (drop (dev_pos drd) (file_content w3 drd)) = header_text).
  { unfold file_content. simpl. rewrite Hout3. simpl. unfold header_text.
    rewrite <- app_assoc. simpl. rewrite drop_0. apply take_line_record. exact Hnl. }
  rewrite Hline, Hrd3 in Hheap4. simpl in Hheap4.
  assert (Hrun4' : read_header json_loads rd w3 = (Ok tt, w4)).
  { unfold read_header, get_self, mbind. rewrite Hrd3. exact Hrun4. }
  (* read *)
  assert (Hout4 : fs w4 !! out = Some (header_text ++ body)) by (rewrite Hfs4; exact Hout3).
  assert (Hd4 : exists d4, opened_device w4 (heap w4 rd) = Some d4 /\
                           dev_mode d4 = RB /\ dev_path d4 = out).
  { unfold opened_device. rewrite Hheap4. simpl.
    destruct (combine_close_handles cfg); simpl; [rewrite Hout4 |]; eauto. }
  destruct Hd4 as (d4 & Hd4 & Hm4 & Hp4).
  assert (Hres4 : resident (heap w4 rd)) by (left; rewrite Hheap4; reflexivity).
  assert (Hidx4 : _index (heap w4 rd) = Some (nested_index contig flat))
    by (rewrite Hheap4; reflexivity).
  assert (Hread : exists w5 res,
             read_blocks pickle_loads gzip_decompress json_loads rd contig (PInt z) w4
             = (Ok res, w5) /\
             match expected_block TYPES cfg cands z with
             | Some blk => exists blk', res = Some [blk'] /\ same_block blk blk'
             | None => res = None
             end).
  { destruct (expected_block TYPES cfg cands z) as [blk|] eqn:Hexp.
    - assert (Hblk : blks !! z = Some blk) by (rewrite Hb; exact Hexp).
      destruct (written_index_entry pickle_dumps gzip_compress blks z blk ∅ Hblk)
        as (Hentry & Hoff & Hslice).
      destruct (Hcodec z blk Hexp) as (Hgz & blk' & Hpk & Hsame).
      destruct (read_blocks_found pickle_loads gzip_decompress json_loads rd w4 contig
                  (PInt z) d4 (nested_index contig flat)
                  (list_to_map (nested_entries flat))
                  [(offset_of pickle_dumps gzip_compress blks z,
                    Z.of_nat (length (gzip_compress (pickle_dumps blk))))]
                  (Z.of_nat (length header_text)))
        as (w5 & Hrun5 & _); try assumption.
      + unfold nested_index. apply lookup_singleton_eq.
      + simpl. apply nested_lookup_Some. exact Hentry.
      + rewrite Hheap4. reflexivity.
      + exists w5, (Some [blk']). split; [| exists blk'; auto].
        rewrite Hrun5, Hp4, Hout4. simpl.
        rewrite (decode_range_assembled header_text body _ _ blk blk' Hoff Hslice Hgz Hpk).
        reflexivity.
    - assert (Hblk : blks !! z = None) by (rewrite Hb; exact Hexp).
      destruct (read_blocks_absent_run pickle_loads gzip_decompress json_loads rd w4 contig
                  (PInt z) d4 (nested_index contig flat) Hd4 Hres4 Hidx4)
        as (w5 & Hrun5 & _).
      + unfold index_lacks, nested_index. rewrite lookup_singleton_eq. simpl.
        apply nested_lookup_None. unfold flat, flat_index.
        rewrite written_index_none by exact Hblk. apply lookup_empty.
      + exists w5, None. split; [exact Hrun5 | reflexivity]. }
  destruct Hread as (w5 & res & Hrun5 & Hres). exists w5, res. split; [| exact Hres].
  unfold round_trip, mbind. rewrite Hrun1, Hrun2, Hrun3, Hrun4'. exact Hrun5.
Qed.

End RoundTripFacts.

(** * Facts about the residency registry *)

Section RegistryFacts.

Context {Payload Meta : Type}.
Variable json_loads : bytes -> option (@header_t Meta).

Local Abbreviation snfile := (@snfile Payload Meta).
Local Abbreviation world := (@world Payload Meta).

Lemma only_self_ret {A} self (a : A) : only_self self (mret a : M world A).
Proof. intros w r w' [= <- <-]. auto. Qed.

Lemma only_self_raise {A} self e : only_self self (mraise e : M world A).
Proof. intros w r w' [= <- <-]. auto. Qed.

Lemma only_self_mget self : only_self self (mget : M world world).
Proof. intros w r w' [= <- <-]. auto. Qed.

Lemma only_self_bind {A B} self (m : M world A) (k : A -> M world B) :
  only_self self m -> (forall a, only_self self (k a)) -> only_self self (mbind m k).
Proof.
  intros Hm Hk w r w'. unfold mbind.
  destruct (m w) as [[a|e] w1] eqn:Hrun; apply Hm in Hrun as (H1 & H2 & H3).
  - intros Hk'. apply Hk in Hk' as (H4 & H5 & H6). split; [congruence |].
    split; [| congruence]. intros i Hi. rewrite H5, H2; auto.
  - intros [= <- <-]. auto.
Qed.

Lemma only_self_try {A} self (m : M world A) (h : exn -> M world A) :
  only_self self m -> (forall e, only_self self (h e)) -> only_self self (mtry m h).
Proof.
  intros Hm Hh w r w'. unfold mtry.
  destruct (m w) as [[a|e] w1] eqn:Hrun; apply Hm in Hrun as (H1 & H2 & H3).
  - intros [= <- <-]. auto.
  - intros Hh'. apply Hh in Hh' as (H4 & H5 & H6). split; [congruence |].
    split; [| congruence]. intros i Hi. rewrite H5, H2; auto.
Qed.

Lemma only_self_when self c (m : M world unit) :
  only_self self m -> only_self self (mwhen c m).
Proof. intros Hm. destruct c; [exact Hm | apply only_self_ret]. Qed.

Lemma only_self_get_self self i : only_self self (get_self i : M world snfile).
Proof. intros w r w' [= <- <-]. auto. Qed.

Lemma only_self_upd_self self (f : snfile -> snfile) :
  (forall o, lazy (f o) = lazy o) ->
  only_self self (upd_self self f : M world unit).
Proof.
  intros Hf w r w' [= <- <-]. split; [reflexivity |]. simpl. split.
  - intros i Hi. apply fn_lookup_insert_ne. congruence.
  - rewrite fn_lookup_insert. apply Hf.
Qed.

Lemma only_self_print self rep : only_self self (print rep : M world unit).
Proof. intros w r w' [= <- <-]. auto. Qed.

Ltac only_self_step :=
  match goal with
  | |- only_self _ (mbind _ _) => apply only_self_bind; [| intros ?]
  | |- only_self _ (mret _) => apply only_self_ret
  | |- only_self _ (mraise _) => apply only_self_raise
  | |- only_self _ (mtry _ _) => apply only_self_try; [| intros ?]
  | |- only_self _ (mwhen _ _) => apply only_self_when
  | |- only_self _ (get_self _) => apply only_self_get_self
  | |- only_self _ (upd_self _ _) => apply only_self_upd_self; reflexivity
  | |- only_self _ (print _) => apply only_self_print
  | |- only_self _ mget => apply only_self_mget
  | |- only_self _ (match ?x with _ => _ end) => destruct x
  end.

Lemma only_self_close self : only_self self (close self : M world unit).
Proof. unfold close. repeat only_self_step. Qed.

Lemma only_self_open self : only_self self (open self : M world unit).
Proof. unfold open. repeat (only_self_step || apply only_self_close). Qed.

Lemma only_self_handle_seek self n : only_self self (handle_seek self n : M world unit).
Proof. unfold handle_seek. repeat only_self_step. Qed.

Lemma only_self_handle_readline self : only_self self (handle_readline self : M world bytes).
Proof. unfold handle_readline. repeat only_self_step. Qed.

(** [SNFile.read_header] changes no object but its own and leaves the
    registry alone, whether it succeeds or raises. *)
Lemma only_self_SNFile_read_header self :
  only_self self (SNFile_read_header json_loads self : M world unit).
Proof.
  unfold SNFile_read_header, ensure_open, close_if_configured.
  repeat (only_self_step || apply only_self_close || apply only_self_open
          || apply only_self_handle_readline).
Qed.

Lemma filter_ne_notin (self : nat) (l : list nat) :
  self ∉ l -> filter (fun x => x <> self) l = l.
Proof.
  induction l as [|x l IH]; intros Hn; [reflexivity |].
  apply not_elem_of_cons in Hn as [Hx Hl].
  rewrite filter_cons_True by congruence. f_equal. apply IH. exact Hl.
Qed.

(** [unload] always succeeds; this is all it does. *)
Lemma unload_spec self (w : world) :
  exists w',
    unload self w = (Ok tt, w') /\
    _ACTIVE w' = filter (fun x => x <> self) (_ACTIVE w) /\
    heap w' self = unloaded (heap w self) /\
    (forall i, i <> self -> heap w' i = heap w i) /\
    fs w' = fs w /\ stdout w' = stdout w.
Proof.
  unfold unload, upd_self, mbind, mget, mput, mwhen.
  destruct (decide (self ∈ _ACTIVE w)) as [Hin|Hin].
  - rewrite bool_decide_eq_true_2 by exact Hin. simpl.
    eexists. split; [reflexivity |]. simpl. rewrite !fn_lookup_insert.
    repeat split. intros i Hi. rewrite !fn_lookup_insert_ne by congruence. reflexivity.
  - rewrite bool_decide_eq_false_2 by exact Hin. simpl.
    eexists. split; [reflexivity |]. simpl. rewrite !fn_lookup_insert.
    rewrite filter_ne_notin by exact Hin.
    repeat split. intros i Hi. rewrite !fn_lookup_insert_ne by congruence. reflexivity.
Qed.

(** The registry as [read_header] leaves it before any eviction. *)
Lemma touched_NoDup (self : nat) (l : list nat) : NoDup l -> NoDup (move_to_end self l).
Proof.
  intros Hnd. unfold move_to_end. apply NoDup_app. split; [| split].
  - apply NoDup_filter. exact Hnd.
  - intros x Hx Hx'. apply list_elem_of_filter in Hx as [Hne _].
    apply list_elem_of_singleton in Hx'. contradiction.
  - apply NoDup_singleton.
Qed.

(** Lines 211-218 on a registry without repetition: the touched object ends
    up last; past the cap, the first object is unloaded and dropped, and it
    is not the touched one. *)
Lemma registry_touch_spec self (w : world) :
  NoDup (_ACTIVE w) ->
  let act := move_to_end self (_ACTIVE w) in
  exists w',
    registry_touch self w = (Ok tt, w') /\
    fs w' = fs w /\ stdout w' = stdout w /\
    if decide (length act <= _MAX_ACTIVE)%nat
    then _ACTIVE w' = act /\ forall i, heap w' i = heap w i
    else exists oldest rest,
        act = oldest :: rest /\ oldest <> self /\
        _ACTIVE w' = rest /\
        heap w' oldest = unloaded (heap w oldest) /\
        forall i, i <> oldest -> heap w' i = heap w i.
Proof.
  intros Hnd act.
  assert (Hact : (if bool_decide (self ∈ _ACTIVE w)
                  then move_to_end self (_ACTIVE w) else _ACTIVE w ++ [self]) = act).
  { unfold act, move_to_end. case_bool_decide as Hin; [reflexivity |].
    rewrite filter_ne_notin by exact Hin. reflexivity. }
  assert (Hrun1 : forall k : unit -> M world unit,
             registry_touch self w
             = (w1 <- mget ;;
                mwhen (bool_decide (_MAX_ACTIVE < length (_ACTIVE w1))%nat)
                  match _ACTIVE w1 with
                  | [] => mraise KeyError
                  | oldest_snf :: rest => _ <- mput (set_ACTIVE rest w1) ;; unload oldest_snf
                  end) (set_ACTIVE act w)).
  { intros _. unfold registry_touch. unfold mbind at 1. unfold mget at 1.
    unfold mbind at 1. rewrite <- Hact.
    destruct (bool_decide (self ∈ _ACTIVE w)); reflexivity. }
  rewrite (Hrun1 (fun _ => mret tt)). clear Hrun1.
  unfold mbind at 1. unfold mget. cbn [_ACTIVE set_ACTIVE].
  destruct (decide (length act <= _MAX_ACTIVE)%nat) as [Hle|Hgt].
  - rewrite bool_decide_eq_false_2 by lia. unfold mwhen, mret.
    eexists. split; [reflexivity |]. simpl. auto.
  - rewrite bool_decide_eq_true_2 by lia. unfold mwhen.
    destruct act as [|oldest rest] eqn:Hact'; [simpl in Hgt; unfold _MAX_ACTIVE in Hgt; lia |].
    unfold mbind, mput.
    destruct (unload_spec oldest (set_ACTIVE rest (set_ACTIVE (oldest :: rest) w)))
      as (w' & Hrun & Hact2 & Hold & Hothers & Hfs & Hout).
    rewrite Hrun. exists w'. split; [reflexivity |].
    split; [exact Hfs |]. split; [exact Hout |].
    assert (Hnd' : NoDup (oldest :: rest))
      by (rewrite <- Hact'; apply touched_NoDup; exact Hnd).
    apply NoDup_cons in Hnd' as [Hnotin Hnd'].
    exists oldest, rest. split; [reflexivity |].
    split; [| split; [| split]].
    + intros Heq. subst oldest. unfold act, move_to_end in Hact'.
      destruct (filter (fun x => x <> self) (_ACTIVE w)) as [|y l] eqn:Hf.
      * simpl in Hact'. injection Hact' as <-. simpl in Hgt. unfold _MAX_ACTIVE in Hgt. lia.
      * simpl in Hact'. injection Hact' as -> _.
        assert (Hy : self ∈ filter (fun x => x <> self) (_ACTIVE w)) by (rewrite Hf; left).
        apply list_elem_of_filter in Hy as [Hy _]. contradiction.
    + rewrite Hact2. simpl. apply filter_ne_notin. exact Hnotin.
    + exact Hold.
    + exact Hothers.
Qed.

Lemma unloaded_no_data (o : snfile) : ~ holds_data (unloaded o).
Proof.
  intros [[h Hh] | (idx & Hidx & _)]; simpl in *; discriminate.
Qed.

(** [LazySNFile.read_header], whatever its outcome: the touched object is
    registered last; past the cap the first registered object, which is not
    the touched one, is unloaded and dropped; nothing else changes outside
    the touched object. *)
Lemma lazy_read_header_spec self (w : world) :
  NoDup (_ACTIVE w) ->
  let act := move_to_end self (_ACTIVE w) in
  exists r w',
    LazySNFile_read_header json_loads self w = (r, w') /\
    if decide (length act <= _MAX_ACTIVE)%nat
    then _ACTIVE w' = act /\ forall i, i <> self -> heap w' i = heap w i
    else exists oldest rest,
        act = oldest :: rest /\ oldest <> self /\
        _ACTIVE w' = rest /\
        heap w' oldest = unloaded (heap w oldest) /\
        forall i, i <> oldest -> i <> self -> heap w' i = heap w i.
Proof.
  intros Hnd act.
  destruct (registry_touch_spec self w Hnd) as (w1 & Hrun1 & _ & _ & Hcase).
  fold act in Hcase.
  set (rest_of := (o <- get_self self ;;
                   _ <- mwhen (is_open o) (handle_seek self 0) ;;
                   SNFile_read_header json_loads self) : M world unit).
  assert (Hrest : only_self self rest_of).
  { unfold rest_of. apply only_self_bind; [apply only_self_get_self | intros o].
    apply only_self_bind; [apply only_self_when, only_self_handle_seek | intros _].
    apply only_self_SNFile_read_header. }
  destruct (rest_of w1) as [r w'] eqn:Hrun2.
  exists r, w'. split.
  { unfold LazySNFile_read_header. unfold mbind at 1. rewrite Hrun1. exact Hrun2. }
  apply Hrest in Hrun2 as (Hact & Hothers & _).
  destruct (decide (length act <= _MAX_ACTIVE)%nat).
  - destruct Hcase as [Hact1 Hheap1]. split; [congruence |].
    intros i Hi. rewrite Hothers by exact Hi. apply Hheap1.
  - destruct Hcase as (oldest & rest & Hl & Hne & Hact1 & Hold & Hheap1).
    exists oldest, rest. split; [exact Hl |]. split; [exact Hne |].
    split; [congruence |]. split.
    + rewrite Hothers by exact Hne. exact Hold.
    + intros i Hi1 Hi2. rewrite Hothers by exact Hi2. apply Hheap1. exact Hi1.
Qed.

Lemma move_to_end_length (self : nat) (l : list nat) :
  (length (move_to_end self l) <= S (length l))%nat.
Proof.
  unfold move_to_end. rewrite length_app. simpl.
  pose proof (length_filter (fun x => x <> self) l). lia.
Qed.

Lemma move_to_end_elem (self i : nat) (l : list nat) :
  i ∈ move_to_end self l <-> i = self \/ i ∈ l.
Proof.
  unfold move_to_end. rewrite elem_of_app, list_elem_of_filter, list_elem_of_singleton.
  destruct (decide (i = self)); tauto.
Qed.

(** [LazySNFile.read_header] keeps the registry invariant. *)
Lemma lazy_read_header_inv self (w : world) :
  registry_inv w ->
  registry_inv (snd (LazySNFile_read_header json_loads self w)).
Proof.
  intros (Hlen & Hnd & Hdata).
  destruct (lazy_read_header_spec self w Hnd) as (r & w' & Hrun & Hcase).
  rewrite Hrun. simpl.
  pose proof (move_to_end_length self (_ACTIVE w)) as Hl.
  pose proof (touched_NoDup self (_ACTIVE w) Hnd) as Hnd1.
  destruct (decide _) as [Hle|Hgt].
  - destruct Hcase as [Hact Hheap]. unfold registry_inv. rewrite Hact.
    split; [exact Hle |]. split; [exact Hnd1 |].
    intros i Hlazy Hd. apply move_to_end_elem.
    destruct (decide (i = self)) as [|Hi]; [left; assumption | right].
    rewrite Hheap in Hlazy, Hd by exact Hi. apply Hdata; assumption.
  - destruct Hcase as (oldest & rest & Hact1 & Hne & Hact & Hold & Hheap).
    rewrite Hact1 in Hl, Hnd1. simpl in Hl.
    apply NoDup_cons in Hnd1 as [Hnotin Hnd1].
    unfold registry_inv. rewrite Hact.
    split; [lia |]. split; [exact Hnd1 |].
    intros i Hlazy Hd.
    assert (Hin : i ∈ oldest :: rest).
    { rewrite <- Hact1. apply move_to_end_elem.
      destruct (decide (i = self)) as [|Hi]; [left; assumption | right].
      destruct (decide (i = oldest)) as [->|Hio].
      - rewrite Hold in Hd. exfalso. exact (unloaded_no_data _ Hd).
      - rewrite Hheap in Hlazy, Hd by assumption. apply Hdata; assumption. }
    apply elem_of_cons in Hin as [->|Hin]; [| exact Hin].
    rewrite Hold in Hd. exfalso. exact (unloaded_no_data _ Hd).
Qed.

Lemma read_header_inv self (w : world) :
  registry_inv w -> registry_inv (snd (read_header json_loads self w)).
Proof.
  intros Hinv. unfold read_header, get_self, mbind.
  destruct (lazy (heap w self)) eqn:Hlazy; [apply lazy_read_header_inv; exact Hinv |].
  destruct (SNFile_read_header json_loads self w) as [r w'] eqn:Hrun. simpl.
  apply only_self_SNFile_read_header in Hrun as (Hact & Hothers & Hl).
  destruct Hinv as (Hlen & Hnd & Hdata). unfold registry_inv. rewrite Hact.
  split; [exact Hlen |]. split; [exact Hnd |].
  intros i Hlazy' Hd. destruct (decide (i = self)) as [->|Hi]; [congruence |].
  rewrite Hothers in Hlazy', Hd by exact Hi. apply Hdata; assumption.
Qed.

Lemma run_op_inv op (w : world) :
  registry_inv w -> registry_inv (snd (run_op json_loads op w)).
Proof.
  intros Hinv. destruct op as [self|self|self|self]; simpl.
  - unfold index, get_self, mbind, mwhen, mret.
    destruct (lazy (heap w self) && bool_decide (_header (heap w self) = None));
      [| exact Hinv].
    pose proof (read_header_inv self w Hinv) as H.
    destruct (read_header json_loads self w) as [[[]|e] w']; exact H.
  - unfold header, get_self, mbind, mwhen, mret.
    destruct (lazy (heap w self) && bool_decide (_header (heap w self) = None));
      [| exact Hinv].
    pose proof (read_header_inv self w Hinv) as H.
    destruct (read_header json_loads self w) as [[[]|e] w']; exact H.
  - apply read_header_inv. exact Hinv.
  - unfold get_self, mbind. destruct (lazy (heap w self)); [| exact Hinv].
    destruct (unload_spec self w) as (w' & Hrun & Hact & Hself & Hothers & _).
    rewrite Hrun. simpl. destruct Hinv as (Hlen & Hnd & Hdata).
    unfold registry_inv. rewrite Hact.
    split; [pose proof (length_filter (fun x => x <> self) (_ACTIVE w)); lia |].
    split; [apply NoDup_filter; exact Hnd |].
    intros i Hlazy Hd. apply list_elem_of_filter.
    destruct (decide (i = self)) as [->|Hi].
    + rewrite Hself in Hd. exfalso. exact (unloaded_no_data _ Hd).
    + split; [exact Hi |]. rewrite Hothers in Hlazy, Hd by exact Hi.
      apply Hdata; assumption.
Qed.

Lemma run_ops_inv ops : forall (w : world),
  registry_inv w -> registry_inv (run_ops json_loads ops w).
Proof.
  induction ops as [|op ops IH]; intros w Hinv; simpl; [exact Hinv |].
  apply IH, run_op_inv, Hinv.
Qed.

(** At most [_MAX_ACTIVE] lazy handles hold data under the invariant. *)
Lemma registry_inv_bound (w : world) (l : list nat) :
  registry_inv w -> NoDup l ->
  Forall (fun i => lazy (heap w i) = true /\ holds_data (heap w i)) l ->
  (length l <= _MAX_ACTIVE)%nat.
Proof.
  intros (Hlen & Hnd & Hdata) Hl Hall.
  assert (Hsub : l ⊆+ _ACTIVE w).
  { apply NoDup_submseteq; [exact Hl |]. intros i Hi.
    rewrite Forall_forall in Hall. destruct (Hall i Hi). apply Hdata; assumption. }
  apply submseteq_length in Hsub. lia.
Qed.

(** [LazySNFile.read_header] on a readable device whose first line parses to
    a header with an index: the header and the index are loaded from
    storage. *)
Lemma lazy_read_header_ok self (w : world) d h idx :
  NoDup (_ACTIVE w) ->
  opened_device w (heap w self) = Some d -> dev_mode d = RB ->
  let line := take_line (file_content w d) in
  json_loads (strip line) = Some h -> index_entry h = Some idx ->
  exists w',
    LazySNFile_read_header json_loads self w = (Ok tt, w') /\
    fs w' = fs w /\
    heap w' self
    = set_handle (if combine_close_handles (config (heap w self)) then None
                  else Some (set_pos (length line) d))
        (set_index (Some idx)
           (set_header (Some h)
              (set_header_length (Some (Z.of_nat (length line))) (heap w self)))).
Proof.
  intros Hnd Hd Hm line Hjson Hidx.
  destruct (registry_touch_spec self w Hnd) as (w1 & Hrun1 & Hfs1 & _ & Hcase).
  assert (Hself1 : heap w1 self = heap w self).
  { destruct (decide _); [apply Hcase |].
    destruct Hcase as (oldest & rest & _ & Hne & _ & _ & Hothers).
    apply Hothers. congruence. }
  assert (Hseek : exists w2,
             (_ <- mwhen (is_open (heap w1 self)) (handle_seek self 0) ;;
              SNFile_read_header json_loads self) w1
             = SNFile_read_header json_loads self w2 /\
             fs w2 = fs w /\
             opened_device w2 (heap w2 self) = Some (set_pos 0 d) /\
             set_handle None (heap w2 self) = set_handle None (heap w self)).
  { unfold opened_device in Hd. unfold is_open. rewrite Hself1.
    destruct (handle (heap w self)) as [d0|] eqn:Hh.
    - injection Hd as ->. eexists. split; [| split; [| split]].
      + unfold mwhen, handle_seek, get_self, upd_self, mbind. rewrite Hself1, Hh. simpl.
        reflexivity.
      + exact Hfs1.
      + unfold opened_device. simpl. rewrite fn_lookup_insert. reflexivity.
      + simpl. rewrite fn_lookup_insert, Hself1. reflexivity.
    - exists w1. split; [reflexivity |]. split; [exact Hfs1 |].
      split; [| rewrite Hself1; reflexivity].
      unfold opened_device. rewrite Hself1, Hh, Hfs1.
      destruct (filename (heap w self)) as [name|]; [| discriminate].
      destruct (fs w !! name); [| discriminate].
      injection Hd as <-. reflexivity. }
  destruct Hseek as (w2 & Hrun2 & Hfs2 & Hd2 & Hself2).
  destruct (SNFile_read_header_ok json_loads self w2 (set_pos 0 d) h idx Hd2 Hm)
    as (w3 & Hrun3 & Hfs3 & Hheap3 & _).
  { unfold file_content. simpl. rewrite Hfs2. exact Hjson. }
  { exact Hidx. }
  exists w3. split; [| split].
  - unfold LazySNFile_read_header. unfold mbind at 1. rewrite Hrun1.
    unfold mbind at 1. unfold get_self at 1. rewrite Hrun2. exact Hrun3.
  - congruence.
  - rewrite Hheap3. unfold file_content. simpl. rewrite Hfs2. fold (file_content w d).
    fold line.
    assert (Hcfg : config (heap w2 self) = config (heap w self))
      by (apply (f_equal config) in Hself2; exact Hself2).
    rewrite Hcfg.
    destruct (heap w2 self), (heap w self). simpl in *.
    injection Hself2 as -> -> -> -> -> -> -> ->. reflexivity.
Qed.

(** C3.  From any state in which the registry invariant holds (such as the
    initial one: empty registry, no lazy handle holding data), after any
    sequence of index and header accesses, explicit [read_header] calls and
    unloads: at most [_MAX_ACTIVE] = 50 lazy handles hold header or index
    data, and the registry holds at most 50 objects.  A further load of a
    handle [self] registers it last; if [self] was unregistered and the
    registry full, exactly the first (least recently registered) object is
    evicted: it is not [self], its header and index are set to [None] and
    nothing else of it changes, and no third object changes; otherwise no
    object but [self] changes. *)
Theorem registry_bound_and_eviction (ops : list lazy_op) (w0 : world) :
  registry_inv w0 ->
  let w := run_ops json_loads ops w0 in
  (forall l, NoDup l ->
             Forall (fun i => lazy (heap w i) = true /\ holds_data (heap w i)) l ->
             (length l <= 50)%nat) /\
  (length (_ACTIVE w) <= 50)%nat /\
  forall self, exists r w',
    LazySNFile_read_header json_loads self w = (r, w') /\
    last (_ACTIVE w') = Some self /\
    (self ∉ _ACTIVE w -> length (_ACTIVE w) = 50%nat ->
     exists oldest rest,
       _ACTIVE w = oldest :: rest /\ oldest <> self /\
       _ACTIVE w' = rest ++ [self] /\
       heap w' oldest = unloaded (heap w oldest) /\
       _header (heap w' oldest) = None /\ _index (heap w' oldest) = None /\
       forall i, i <> oldest -> i <> self -> heap w' i = heap w i) /\
    (self ∈ _ACTIVE w \/ (length (_ACTIVE w) < 50)%nat ->
     _ACTIVE w' = move_to_end self (_ACTIVE w) /\
     forall i, i <> self -> heap w' i = heap w i).
Proof.
  intros Hinv0 w.
  assert (Hinv : registry_inv w) by (apply run_ops_inv; exact Hinv0).
  split; [intros l Hl Hall; exact (registry_inv_bound w l Hinv Hl Hall) |].
  destruct Hinv as (Hlen & Hnd & Hdata). split; [exact Hlen |].
  intros self.
  destruct (lazy_read_header_spec self w Hnd) as (r & w' & Hrun & Hcase).
  exists r, w'. split; [exact Hrun |].
  pose proof (move_to_end_length self (_ACTIVE w)) as Hl.
  unfold _MAX_ACTIVE in *.
  destruct (decide _) as [Hle|Hgt].
  - destruct Hcase as [Hact Hheap]. rewrite Hact.
    split; [apply last_snoc |]. split.
    + intros Hnotin Hfull. exfalso.
      unfold move_to_end in Hle. rewrite filter_ne_notin, length_app in Hle by exact Hnotin.
      simpl in Hle. lia.
    + intros _. split; [reflexivity | exact Hheap].
  - destruct Hcase as (oldest & rest & Hact1 & Hne & Hact & Hold & Hheap).
    rewrite Hact.
    assert (Hnotin : self ∉ _ACTIVE w).
    { intros Hin. unfold move_to_end in Hgt. rewrite length_app in Hgt. simpl in Hgt.
      pose proof (length_filter_lt (fun x => x <> self) (_ACTIVE w) self Hin) as Hlt.
      assert (~ self <> self) by auto. specialize (Hlt H). lia. }
    unfold move_to_end in Hact1, Hgt. rewrite filter_ne_notin in Hact1, Hgt by exact Hnotin.
    rewrite length_app in Hgt. simpl in Hgt.
    destruct (_ACTIVE w) as [|x l'] eqn:Hw; [simpl in Hgt; lia |].
    simpl in Hact1. injection Hact1 as <- <-.
    split; [apply last_snoc |]. split.
    + intros _ _. exists x, l'. rewrite Hold. repeat split; auto.
    + intros [Hin | Hlt]; [contradiction | simpl in Hlt, Hlen, Hgt; lia].
Qed.

(** C8.  [unload] sets the header and the index of the handle to [None] and
    removes the handle from the registry; the handle's device handle,
    accumulated blocks and every other attribute, all other objects, storage
    and standard output are as before.  If the handle is a lazy one whose
    device is open (or can be opened) for reading and whose file starts with
    a header line that parses, the next access to the property [index] or
    [header] loads both from storage again. *)
Theorem unload_frame_and_reload self (w : world) :
  exists w',
    unload self w = (Ok tt, w') /\
    handle (heap w' self) = handle (heap w self) /\
    blocks (heap w' self) = blocks (heap w self) /\
    heap w' self = unloaded (heap w self) /\
    _header (heap w' self) = None /\ _index (heap w' self) = None /\
    _ACTIVE w' = filter (fun x => x <> self) (_ACTIVE w) /\
    (forall i, i <> self -> heap w' i = heap w i) /\
    fs w' = fs w /\ stdout w' = stdout w /\
    forall d h idx,
      lazy (heap w self) = true -> NoDup (_ACTIVE w) ->
      opened_device w (heap w self) = Some d -> dev_mode d = RB ->
      json_loads (strip (take_line (file_content w d))) = Some h ->
      index_entry h = Some idx ->
      (exists w'', index json_loads self w' = (Ok (Some idx), w'') /\
                   _header (heap w'' self) = Some h /\
                   blocks (heap w'' self) = blocks (heap w self)) /\
      (exists w'', header json_loads self w' = (Ok (Some h), w'') /\
                   _index (heap w'' self) = Some idx /\
                   blocks (heap w'' self) = blocks (heap w self)).
Proof.
  destruct (unload_spec self w) as (w' & Hrun & Hact & Hself & Hothers & Hfs & Hout).
  exists w'. split; [exact Hrun |]. rewrite Hself.
  do 5 (split; [reflexivity |]). split; [exact Hact |].
  split; [exact Hothers |]. split; [exact Hfs |]. split; [exact Hout |].
  intros d h idx Hlazy Hnd Hd Hm Hjson Hidx.
  assert (Hnd' : NoDup (_ACTIVE w')) by (rewrite Hact; apply NoDup_filter; exact Hnd).
  assert (Hd' : opened_device w' (heap w' self) = Some d).
  { unfold opened_device in *. rewrite Hself, Hfs. exact Hd. }
  assert (Hjson' : json_loads (strip (take_line (file_content w' d))) = Some h).
  { unfold file_content in *. rewrite Hfs. exact Hjson. }
  destruct (lazy_read_header_ok self w' d h idx Hnd' Hd' Hm Hjson' Hidx)
    as (w'' & Hrun'' & _ & Hheap'').
  assert (Hcond : lazy (heap w' self) && bool_decide (_header (heap w' self) = None) = true).
  { rewrite Hself. simpl. rewrite Hlazy. reflexivity. }
  assert (Hdisp : read_header json_loads self w' = (Ok tt, w'')).
  { unfold read_header, get_self, mbind. rewrite Hself. simpl. rewrite Hlazy. exact Hrun''. }
  split; exists w''.
  - split.
    + unfold index, get_self, mbind, mwhen, mret. rewrite Hcond, Hdisp.
      rewrite Hheap''. reflexivity.
    + rewrite Hheap'', Hself. auto.
  - split.
    + unfold header, get_self, mbind, mwhen, mret. rewrite Hcond, Hdisp.
      rewrite Hheap''. reflexivity.
    + rewrite Hheap'', Hself. auto.
Qed.

End RegistryFacts.

(** * More facts about the aggregator *)

Section AggregatorFacts.

Context {Payload Meta : Type}.
Variable TYPES : list string.

Local Abbreviation block := (gmap string (@bval Payload)).
Local Abbreviation snfile := (@snfile Payload Meta).

Ltac mstep :=
  unfold mbind, mret, mraise, mget, mput, mmodify, mwhen, mtry in *; simpl in *.

Lemma new_block_typed : block_typed TYPES (@new_block Payload TYPES).
Proof.
  split.
  - eexists. apply new_block_coverage.
  - intros t Ht. rewrite new_block_lookup. rewrite decide_False by exact Ht. split.
    + intros Hin. rewrite decide_True by exact Hin. eauto.
    + intros Hin. rewrite decide_False by exact Hin. reflexivity.
Qed.

Lemma blocks_typed_insert (blks : gmap Z block) i blk :
  blocks_typed TYPES blks -> block_typed TYPES blk -> blocks_typed TYPES (<[i := blk]> blks).
Proof.
  intros Hb Hblk j blk'. destruct (decide (i = j)) as [->|Hne].
  - rewrite lookup_insert_eq. intros [= <-]. exact Hblk.
  - rewrite lookup_insert_ne by exact Hne. apply Hb.
Qed.

Lemma block_typed_set_cands (blk : block) t l :
  block_typed TYPES blk -> t <> "_COVERAGE" -> t ∈ TYPES ->
  block_typed TYPES (<[t := BCands l]> blk).
Proof.
  intros [[m Hm] Hk] Ht Hin. split.
  - exists m. rewrite lookup_insert_ne by exact Ht. exact Hm.
  - intros t' Ht'. destruct (decide (t = t')) as [<-|Hne].
    + rewrite lookup_insert_eq. split; [eauto | contradiction].
    + rewrite lookup_insert_ne by exact Hne. apply Hk. exact Ht'.
Qed.

Lemma block_typed_set_cov (blk : block) m :
  block_typed TYPES blk -> block_typed TYPES (<["_COVERAGE" := BCov m]> blk).
Proof.
  intros [_ Hk]. split.
  - exists m. apply lookup_insert_eq.
  - intros t Ht. rewrite lookup_insert_ne by congruence. apply Hk. exact Ht.
Qed.

(** [ensure_block] keeps the shape and changes only the blocks. *)
Lemma ensure_block_typed i (o : snfile) :
  blocks_typed TYPES (blocks o) ->
  exists blks,
    ensure_block TYPES i o = (Ok tt, set_blocks blks o) /\
    blocks_typed TYPES blks /\
    blks !! i = Some (default (new_block TYPES) (blocks o !! i)) /\
    forall j, j <> i -> blks !! j = blocks o !! j.
Proof.
  intros Hb. unfold ensure_block. mstep.
  destruct (blocks o !! i) as [blk|] eqn:Hblk; simpl.
  - exists (blocks o). split; [destruct o; reflexivity |]. auto.
  - eexists. split; [reflexivity |]. split; [| split].
    + apply blocks_typed_insert; [exact Hb | apply new_block_typed].
    + apply lookup_insert_eq.
    + intros j Hj. apply lookup_insert_ne. congruence.
Qed.

Lemma clear_aliases_lookup i (blks : gmap Z block) b :
  clear_aliases i blks !! b = fmap (bval_clear i) <$> blks !! b.
Proof. unfold clear_aliases. apply lookup_fmap. Qed.

Lemma bval_clear_new_block i :
  bval_clear i <$> @new_block Payload TYPES = new_block TYPES.
Proof.
  apply map_eq. intros k. rewrite lookup_fmap, new_block_lookup.
  repeat destruct (decide _); reflexivity.
Qed.

Lemma entry_at_clear_aliases i (blks : gmap Z block) b k :
  entry_at TYPES (clear_aliases i blks) b k = bval_clear i <$> entry_at TYPES blks b k.
Proof.
  unfold entry_at. rewrite clear_aliases_lookup. destruct (blks !! b) as [blk|]; simpl.
  - apply lookup_fmap.
  - rewrite <- (bval_clear_new_block i) at 1. apply lookup_fmap.
Qed.

(** The assignment of line 56 keeps the shape of a block. *)
Lemma block_typed_clear i (blk : block) :
  block_typed TYPES blk -> block_typed TYPES (bval_clear i <$> blk).
Proof.
  intros [[m Hm] Hk]. split.
  - exists m. rewrite lookup_fmap, Hm. reflexivity.
  - intros t Ht. destruct (Hk t Ht) as [Hin Hout]. split.
    + intros H. destruct (Hin H) as [l Hl]. rewrite lookup_fmap, Hl. simpl. eauto.
    + intros H. rewrite lookup_fmap, (Hout H). reflexivity.
Qed.

Lemma blocks_typed_clear i (blks : gmap Z block) :
  blocks_typed TYPES blks -> blocks_typed TYPES (clear_aliases i blks).
Proof.
  intros Hb j blk. rewrite clear_aliases_lookup.
  destruct (blks !! j) as [blk0|] eqn:Hj; [| discriminate].
  intros [= <-]. apply block_typed_clear. apply (Hb j). exact Hj.
Qed.

(** The blocks as line 57 finds them. *)
Lemma held_typed (c : @svcand Payload) (o : snfile) id :
  blocks_typed TYPES (blocks o) ->
  let created := <[id := default (new_block TYPES) (blocks o !! id)]> (blocks o) in
  blocks_typed TYPES (if output_rnames (config o) then created
                      else clear_aliases (oid c) created).
Proof.
  intros Hb created.
  assert (Hct : blocks_typed TYPES created).
  { apply blocks_typed_insert; [exact Hb |].
    destruct (blocks o !! id) as [blk|] eqn:Hblk; simpl;
      [apply (Hb id); exact Hblk | apply new_block_typed]. }
  destruct (output_rnames (config o)); [exact Hct | apply blocks_typed_clear; exact Hct].
Qed.

Lemma held_lookup (c : @svcand Payload) (o : snfile) id :
  let created := <[id := default (new_block TYPES) (blocks o !! id)]> (blocks o) in
  (if output_rnames (config o) then created else clear_aliases (oid c) created) !! id
  = Some (if output_rnames (config o) then default (new_block TYPES) (blocks o !! id)
          else bval_clear (oid c) <$> default (new_block TYPES) (blocks o !! id)).
Proof.
  intros created. destruct (output_rnames (config o)).
  - apply lookup_insert_eq.
  - rewrite clear_aliases_lookup. unfold created. rewrite lookup_insert_eq. reflexivity.
Qed.

Lemma svtype_stored_form (cfg : config_t) (c : @svcand Payload) :
  svtype (if output_rnames cfg then c else clear_rnames c) = svtype c.
Proof. destruct (output_rnames cfg); reflexivity. Qed.

(** Every outcome of [store]: the object changes in its blocks only, which
    keep their shape. *)
Lemma store_typed c (o : snfile) :
  blocks_typed TYPES (blocks o) ->
  exists r blks,
    store TYPES c o = (r, set_blocks blks o) /\ blocks_typed TYPES blks.
Proof.
  intros Hb. destruct (decide (snf_block_size (config o) = 0)) as [Hz|Hz].
  { unfold store, int_truediv. mstep. rewrite decide_True by exact Hz.
    exists (Raise (ZeroDivisionError 51)), (blocks o).
    split; [destruct o; reflexivity | exact Hb]. }
  rewrite store_run_lines by exact Hz. cbv zeta.
  set (id := truediv_int (pos c) (snf_block_size (config o)) * snf_block_size (config o)).
  pose proof (held_typed c o id Hb) as Hht. cbv zeta in Hht.
  rewrite held_lookup. rewrite svtype_stored_form.
  set (held := if output_rnames (config o) then _ else _) in *.
  set (cur := if output_rnames (config o) then _ else _).
  assert (Hcur : block_typed TYPES cur).
  { apply (Hht id). unfold held, cur. apply held_lookup. }
  simpl.
  destruct (cur !! svtype c) as [[l|m]|] eqn:Hlk.
  - eexists _, _. split; [reflexivity |].
    apply blocks_typed_insert; [exact Hht |].
    destruct (decide (svtype c = "_COVERAGE")) as [Hc|Hc].
    + destruct Hcur as [[m Hm] _]. rewrite Hc in Hlk. congruence.
    + apply block_typed_set_cands; [exact Hcur | exact Hc |].
      destruct (decide (svtype c ∈ TYPES)) as [Hin|Hin]; [exact Hin |].
      destruct Hcur as [_ Hk]. destruct (Hk _ Hc) as [_ Hnone].
      rewrite (Hnone Hin) in Hlk. discriminate.
  - eexists _, _. split; [reflexivity | exact Hht].
  - eexists _, _. split; [reflexivity | exact Hht].
Qed.

Lemma entry_at_insert_other (blks : gmap Z block) i blk j t :
  j <> i -> entry_at TYPES (<[i := blk]> blks) j t = entry_at TYPES blks j t.
Proof. intros Hne. unfold entry_at. rewrite lookup_insert_ne by congruence. reflexivity. Qed.

Lemma entry_at_new (blks : gmap Z block) i j t :
  blks !! i = None -> entry_at TYPES (<[i := new_block TYPES]> blks) j t = entry_at TYPES blks j t.
Proof.
  intros Hn. destruct (decide (j = i)) as [->|Hne].
  - unfold entry_at. rewrite lookup_insert_eq, Hn. reflexivity.
  - apply entry_at_insert_other. exact Hne.
Qed.

(** Every outcome of [attach_coverage]: the candidate lists stay as they
    are. *)
Lemma attach_coverage_frame bi bin v (o : snfile) :
  exists r blks,
    attach_coverage TYPES bi bin v o = (r, set_blocks blks o) /\
    (blocks_typed TYPES (blocks o) -> blocks_typed TYPES blks) /\
    forall i t, t <> "_COVERAGE" -> entry_at TYPES blks i t = entry_at TYPES (blocks o) i t.
Proof.
  unfold attach_coverage, ensure_block. mstep.
  destruct (blocks o !! bi) as [blk|] eqn:Hblk; mstep.
  - rewrite Hblk. destruct (blk !! "_COVERAGE") as [[l|m]|] eqn:Hc; mstep.
    + exists (Raise IndexError), (blocks o). split; [destruct o; reflexivity | auto].
    + eexists _, _. split; [reflexivity |]. split.
      * intros Hb. apply blocks_typed_insert; [exact Hb |].
        apply block_typed_set_cov. apply (Hb bi). exact Hblk.
      * intros i t Ht. unfold entry_at. destruct (decide (i = bi)) as [->|Hne].
        -- rewrite lookup_insert_eq, Hblk. simpl. apply lookup_insert_ne. congruence.
        -- rewrite lookup_insert_ne by congruence. reflexivity.
    + exists (Raise KeyError), (blocks o). split; [destruct o; reflexivity | auto].
  - rewrite lookup_insert_eq, new_block_coverage. mstep.
    eexists _, _. split; [reflexivity |]. split.
    + intros Hb. apply blocks_typed_insert; [| apply block_typed_set_cov, new_block_typed].
      apply blocks_typed_insert; [exact Hb | apply new_block_typed].
    + intros i t Ht. unfold entry_at. destruct (decide (i = bi)) as [->|Hne].
      * rewrite lookup_insert_eq, Hblk. simpl. apply lookup_insert_ne. congruence.
      * rewrite !lookup_insert_ne by congruence. reflexivity.
Qed.

Lemma annotate_body_frame lp R bs bin loc (o : snfile) :
  exists r blks,
    annotate_body TYPES lp R bs bin loc o = (r, set_blocks blks o) /\
    (blocks_typed TYPES (blocks o) -> blocks_typed TYPES blks) /\
    forall i t, t <> "_COVERAGE" -> entry_at TYPES blks i t = entry_at TYPES (blocks o) i t.
Proof.
  assert (Hsame : forall r : result cov_locals,
             exists r' blks, (r, o) = (r', set_blocks blks o) /\
               (blocks_typed TYPES (blocks o) -> blocks_typed TYPES blks) /\
               forall i t, t <> "_COVERAGE" ->
                           entry_at TYPES blks i t = entry_at TYPES (blocks o) i t).
  { intros r. exists r, (blocks o). split; [destruct o; reflexivity | auto]. }
  unfold annotate_body, cov_flush, py_mod, int_truediv, ceil_truediv.
  set (acc := cov_accumulate lp bin loc). clearbody acc. mstep.
  destruct (decide (R = 0)); mstep; [apply Hsame |].
  destruct (decide (bin mod R = 0)); mstep; [| apply Hsame].
  destruct (decide (bs = 0)); mstep; [apply Hsame |].
  destruct (decide (bin_count acc = 0)); mstep; [apply Hsame |].
  destruct (bool_decide _); mstep; [| apply Hsame].
  destruct (attach_coverage_frame (truediv_int bin bs * bs) bin
              (truediv_ceil (coverage_sum acc) (bin_count acc)) o)
    as (r & blks & Hrun & Ht & Hf).
  rewrite Hrun. destruct r; simpl; eexists _, blks; (split; [reflexivity | auto]).
Qed.

Lemma annotate_loop_frame lp R bs bins : forall loc (o : snfile),
  exists r blks,
    mfor bins (annotate_body TYPES lp R bs) loc o = (r, set_blocks blks o) /\
    (blocks_typed TYPES (blocks o) -> blocks_typed TYPES blks) /\
    forall i t, t <> "_COVERAGE" -> entry_at TYPES blks i t = entry_at TYPES (blocks o) i t.
Proof.
  induction bins as [|bin bins IH]; intros loc o.
  - exists (Ok loc), (blocks o). split; [destruct o; reflexivity | auto].
  - cbn [mfor]. unfold mbind at 1.
    destruct (annotate_body_frame lp R bs bin loc o) as (r & blks & Hrun & Ht & Hf).
    rewrite Hrun. destruct r as [loc1|e].
    + destruct (IH loc1 (set_blocks blks o)) as (r2 & blks2 & Hrun2 & Ht2 & Hf2).
      rewrite Hrun2. exists r2, blks2. split; [reflexivity |]. split.
      * intros Hb. apply Ht2. simpl. apply Ht, Hb.
      * intros i t Hne. rewrite Hf2 by exact Hne. simpl. apply Hf, Hne.
    + exists (Raise e), blks. auto.
Qed.

(** Every outcome of [annotate_block_coverages]: the object changes in its
    blocks only, which keep their shape, and no candidate list changes. *)
Lemma annotate_frame lp resolution (o : snfile) :
  exists r blks,
    annotate_block_coverages TYPES lp resolution o = (r, set_blocks blks o) /\
    (blocks_typed TYPES (blocks o) -> blocks_typed TYPES blks) /\
    forall i t, t <> "_COVERAGE" -> entry_at TYPES blks i t = entry_at TYPES (blocks o) i t.
Proof.
  unfold annotate_block_coverages, int_truediv, range. mstep.
  destruct (decide (coverage_binsize (config o) = 0)); mstep.
  { exists (Raise (ZeroDivisionError 62)), (blocks o). split; [destruct o; reflexivity | auto]. }
  destruct (decide (coverage_binsize (config o) = 0)); [contradiction |]. mstep.
  match goal with
  | |- context [mfor ?bins ?body cov_init o] =>
      destruct (annotate_loop_frame lp (coverage_binsize_combine (config o))
                  (snf_block_size (config o)) bins cov_init o)
        as (r & blks & Hrun & Ht & Hf)
  end.
  rewrite Hrun. destruct r; simpl; eexists _, blks; (split; [reflexivity | auto]).
Qed.

Lemma run_agg_op_typed op (o : snfile) :
  blocks_typed TYPES (blocks o) ->
  exists r blks,
    run_agg_op TYPES op o = (r, set_blocks blks o) /\ blocks_typed TYPES blks.
Proof.
  intros Hb. destruct op as [c | lp resolution]; simpl.
  - apply store_typed, Hb.
  - destruct (annotate_frame lp resolution o) as (r & blks & Hrun & Ht & _).
    exists r, blks. auto.
Qed.

(** X1.  Whatever sequence of [store] and [annotate_block_coverages] calls is
    made on an object, and whichever of them raise, the object changes in its
    blocks only, and the blocks keep their shape: each block holds the
    coverage dict under ["_COVERAGE"], one candidate list under every other
    tag of [TYPES], and no other key.  A new [SNFile] has no blocks, so it is
    in that shape. *)
Theorem aggregator_keeps_block_shape (ops : list (@agg_op Payload)) (o : snfile) :
  blocks_typed TYPES (blocks o) ->
  blocks_typed TYPES (blocks (run_agg TYPES ops o)) /\
  run_agg TYPES ops o = set_blocks (blocks (run_agg TYPES ops o)) o.
Proof.
  revert o. induction ops as [|op ops IH]; intros o Hb; cbn [run_agg].
  - split; [exact Hb | destruct o; reflexivity].
  - destruct (run_agg_op_typed op o Hb) as (r & blks & Hrun & Hbt).
    rewrite Hrun. cbn [snd].
    destruct (IH (set_blocks blks o)) as [IH1 IH2]; [exact Hbt |].
    split; [exact IH1 |]. rewrite IH2 at 1. reflexivity.
Qed.

(** X2.  [annotate_block_coverages] never touches a candidate list: under
    every key but ["_COVERAGE"] every block holds after the call what it held
    before (a block the call created holds the empty lists of a new block),
    whether the call returns or raises. *)
Theorem annotate_keeps_candidates (lp : lead_provider_t) (resolution : Z) (o : snfile)
    (block_id : Z) (t : string) :
  t <> "_COVERAGE" ->
  entry_at TYPES (blocks (snd (annotate_block_coverages TYPES lp resolution o))) block_id t
  = entry_at TYPES (blocks o) block_id t.
Proof.
  intros Ht. destruct (annotate_frame lp resolution o) as (r & blks & Hrun & _ & Hf).
  rewrite Hrun. simpl. apply Hf, Ht.
Qed.


Lemma blocks_typed_empty : blocks_typed TYPES (∅ : gmap Z block).
Proof. intros i blk Hlk. rewrite lookup_empty in Hlk. discriminate. Qed.

(** X3.  [store] touches one list at most, and the read names of one
    object.  Every entry of every block but the list under the candidate's
    tag in the candidate's block is after the call what it was before (a
    block the call created holds the entries of a new block), whether the
    call returns or raises, with one exception: when read-name output is
    disabled and the division of line 51 has succeeded, the entries that are
    the stored object itself, wherever they are held, have lost their read
    names.  The block of the candidate is the one line 51 computes, through
    a double. *)
Theorem store_touches_one_list (c : @svcand Payload) (o : snfile) (block_id : Z) (key : string) :
  block_id <> truediv_int (pos c) (snf_block_size (config o)) * snf_block_size (config o)
  \/ key <> svtype c ->
  entry_at TYPES (blocks (snd (store TYPES c o))) block_id key
  = if decide (snf_block_size (config o) = 0) then entry_at TYPES (blocks o) block_id key
    else if output_rnames (config o) then entry_at TYPES (blocks o) block_id key
    else bval_clear (oid c) <$> entry_at TYPES (blocks o) block_id key.
Proof.
  intros Hne. destruct (decide (snf_block_size (config o) = 0)) as [Hz|Hz].
  { unfold store, int_truediv. mstep. rewrite decide_True by exact Hz. reflexivity. }
  rewrite store_run_lines by exact Hz. cbv zeta.
  set (id := truediv_int (pos c) (snf_block_size (config o)) * snf_block_size (config o)) in *.
  rewrite svtype_stored_form.
  set (created := <[id := default (new_block TYPES) (blocks o !! id)]> (blocks o)).
  assert (Hcreated : entry_at TYPES created block_id key
                     = entry_at TYPES (blocks o) block_id key).
  { unfold entry_at, created. destruct (decide (block_id = id)) as [->|Hid].
    - rewrite lookup_insert_eq. reflexivity.
    - rewrite lookup_insert_ne by congruence. reflexivity. }
  set (held := if output_rnames (config o) then created
               else clear_aliases (oid c) created).
  assert (Hheld : entry_at TYPES held block_id key
                  = if output_rnames (config o) then entry_at TYPES (blocks o) block_id key
                    else bval_clear (oid c) <$> entry_at TYPES (blocks o) block_id key).
  { unfold held. destruct (output_rnames (config o)); [exact Hcreated |].
    rewrite entry_at_clear_aliases, Hcreated. reflexivity. }
  destruct (held !! id ≫= fun blk => blk !! svtype c) as [[l|m]|]; simpl; try exact Hheld.
  rewrite <- Hheld. unfold entry_at. destruct (decide (block_id = id)) as [->|Hid].
  - rewrite lookup_insert_eq. simpl. apply lookup_insert_ne.
    destruct Hne as [Hne|Hne]; congruence.
  - rewrite lookup_insert_ne by congruence. reflexivity.
Qed.

(** X4.  The outcome of [store] on blocks of the regular shape depends on
    the configuration and the tag alone: a zero block size raises
    [ZeroDivisionError] in line 51 and changes nothing; otherwise the tag
    ["_COVERAGE"] raises [AttributeError] (the coverage dict has no
    [append]), a tag outside [TYPES] raises [KeyError], and every tag of
    [TYPES] is stored.  A candidate that is refused for its tag still leaves
    its mark: line 53 has created its block, the one line 51 computes
    through a double, with empty lists, and with read-name output disabled
    line 56 has cleared the read names of the object, in every entry that is
    this object, before the tag is looked up. *)
Theorem store_outcome (c : @svcand Payload) (o : snfile) :
  blocks_typed TYPES (blocks o) ->
  let bs := snf_block_size (config o) in
  let block_id := truediv_int (pos c) bs * bs in
  let created :=
    <[block_id := default (new_block TYPES) (blocks o !! block_id)]> (blocks o) in
  fst (store TYPES c o)
  = (if decide (bs = 0) then Raise (ZeroDivisionError 51)
     else if decide (svtype c = "_COVERAGE") then Raise AttributeError
     else if decide (svtype c ∈ TYPES) then Ok tt
     else Raise KeyError) /\
  (bs = 0 -> snd (store TYPES c o) = o) /\
  (bs <> 0 -> fst (store TYPES c o) <> Ok tt ->
   snd (store TYPES c o)
   = set_blocks (if output_rnames (config o) then created
                 else clear_aliases (oid c) created) o).
Proof.
  intros Hb bs block_id created. subst bs block_id created.
  destruct (decide (snf_block_size (config o) = 0)) as [Hz|Hz].
  { unfold store, int_truediv. mstep. rewrite decide_True by exact Hz. simpl.
    split; [reflexivity |]. split; [reflexivity | contradiction]. }
  rewrite store_run_lines by exact Hz. cbv zeta.
  set (id := truediv_int (pos c) (snf_block_size (config o)) * snf_block_size (config o)).
  pose proof (held_typed c o id Hb) as Hht. cbv zeta in Hht.
  rewrite held_lookup. rewrite svtype_stored_form.
  set (held := if output_rnames (config o) then _ else _) in *.
  set (cur := if output_rnames (config o) then _ else _).
  assert (Hcur : block_typed TYPES cur).
  { apply (Hht id). unfold held, cur. apply held_lookup. }
  simpl. destruct Hcur as [[m Hm] Hk].
  destruct (decide (svtype c = "_COVERAGE")) as [Hc|Hc].
  { rewrite Hc, Hm. simpl. split; [reflexivity |]. split; [contradiction | reflexivity]. }
  destruct (Hk _ Hc) as [Hin Hout].
  destruct (decide (svtype c ∈ TYPES)) as [Ht|Ht].
  - destruct (Hin Ht) as [l ->]. simpl.
    split; [reflexivity |]. split; [contradiction | intros _ Hne; contradiction].
  - rewrite (Hout Ht). simpl. split; [reflexivity |]. split; [contradiction | reflexivity].
Qed.

End AggregatorFacts.

Section AnnotateErrors.

Context {Payload Meta : Type}.
Variable TYPES : list string.

Local Abbreviation snfile := (@snfile Payload Meta).

Ltac mstep :=
  unfold mbind, mret, mraise, mget, mput, mmodify, mwhen, mtry in *; simpl in *.

Lemma annotate_body_no_block_size lp R bin loc (o : snfile) :
  R <> 0 ->
  annotate_body TYPES lp R 0 bin loc o
  = (if decide (bin mod R = 0) then Raise (ZeroDivisionError 83)
     else Ok (cov_accumulate lp bin loc), o).
Proof.
  intros HR. unfold annotate_body, cov_flush, py_mod, int_truediv.
  destruct (decide (R = 0)); [contradiction |]. mstep.
  destruct (decide (bin mod R = 0)); reflexivity.
Qed.

(** With a zero block size the loop stops at the first bin divisible by [R],
    in line 83, before anything is attached. *)
Lemma annotate_loop_no_block_size lp R bins : forall loc (o : snfile),
  R <> 0 ->
  exists r,
    mfor bins (annotate_body TYPES lp R 0) loc o = (r, o) /\
    (Exists (fun bin => bin mod R = 0) bins -> r = Raise (ZeroDivisionError 83)) /\
    (~ Exists (fun bin => bin mod R = 0) bins -> exists loc', r = Ok loc').
Proof.
  intros loc o HR. revert loc. induction bins as [|bin bins IH]; intros loc.
  - exists (Ok loc). split; [reflexivity |]. split.
    + intros H. inversion H.
    + eauto.
  - cbn [mfor]. unfold mbind at 1.
    rewrite annotate_body_no_block_size by exact HR.
    destruct (decide (bin mod R = 0)) as [Hd|Hd].
    + exists (Raise (ZeroDivisionError 83)). split; [reflexivity |]. split; [reflexivity |].
      intros Hn. exfalso. apply Hn. constructor. exact Hd.
    + destruct (IH (cov_accumulate lp bin loc)) as (r & Hrun & Hex & Hnex). exists r.
      split; [exact Hrun |]. split.
      * intros H. apply Hex. inversion H; subst; [contradiction | assumption].
      * intros Hn. apply Hnex. intros H. apply Hn. constructor 2. exact H.
Qed.

(** X5.  The zero divisions of [annotate_block_coverages], in the order the
    method meets them, each leaving the object as it was: a zero
    [coverage_binsize] raises in line 62; a zero [coverage_binsize_combine]
    raises in line 82 at the first walked bin, and not at all when no bin is
    walked; a zero [snf_block_size] raises in line 83 at the first walked
    bin divisible by [coverage_binsize_combine], and not at all when there is
    none, in which case the call returns without attaching anything. *)
Theorem annotate_zero_division (lp : lead_provider_t) (resolution : Z) (o : snfile) :
  let cfg := config o in
  let R := coverage_binsize_combine cfg in
  let bins := walked_bins cfg lp in
  (coverage_binsize cfg = 0 ->
   annotate_block_coverages TYPES lp resolution o = (Raise (ZeroDivisionError 62), o)) /\
  (coverage_binsize cfg <> 0 -> R = 0 ->
   annotate_block_coverages TYPES lp resolution o
   = (match bins with [] => Ok tt | _ :: _ => Raise (ZeroDivisionError 82) end, o)) /\
  (coverage_binsize cfg <> 0 -> R <> 0 -> snf_block_size cfg = 0 ->
   annotate_block_coverages TYPES lp resolution o
   = (if decide (Exists (fun bin => bin mod R = 0) bins)
      then Raise (ZeroDivisionError 83) else Ok tt, o)).
Proof.
  intros cfg R bins. subst cfg R bins. unfold walked_bins.
  split; [| split].
  - intros Hz. unfold annotate_block_coverages, int_truediv. mstep.
    rewrite Hz. reflexivity.
  - intros Hb HR. unfold annotate_block_coverages, int_truediv, range. mstep.
    destruct (decide (coverage_binsize (config o) = 0)); [contradiction |]. mstep.
    destruct (decide (coverage_binsize (config o) = 0)); [contradiction |]. mstep.
    destruct (py_range _ _ _) as [|bin bins]; [reflexivity |].
    cbn [mfor]. unfold annotate_body, cov_flush, py_mod. rewrite HR. mstep. reflexivity.
  - intros Hb HR Hbs. unfold annotate_block_coverages, int_truediv, range. mstep.
    destruct (decide (coverage_binsize (config o) = 0)); [contradiction |]. mstep.
    destruct (decide (coverage_binsize (config o) = 0)); [contradiction |]. mstep.
    rewrite Hbs.
    match goal with
    | |- context [mfor ?bins _ cov_init o] =>
        destruct (annotate_loop_no_block_size lp (coverage_binsize_combine (config o))
                    bins cov_init o HR) as (r & Hrun & Hex & Hnex);
        rewrite Hrun; destruct (decide (Exists _ bins)) as [He|He]
    end.
    + rewrite (Hex He). reflexivity.
    + destruct (Hnex He) as [loc' ->]. reflexivity.
Qed.

End AnnotateErrors.

(** * The annotator and the aggregator together *)

Section AnnotateAlgebra.

Context {Payload Meta : Type}.
Variable TYPES : list string.

Local Abbreviation block := (gmap string (@bval Payload)).
Local Abbreviation snfile := (@snfile Payload Meta).

Ltac mstep :=
  unfold mbind, mret, mraise, mget, mput, mmodify, mwhen, mtry in *; simpl in *.

Lemma coverage_of_set (blk : block) c :
  coverage_of (<["_COVERAGE" := BCov c]> blk) = c.
Proof. unfold coverage_of. rewrite lookup_insert_eq. reflexivity. Qed.

(** Attaching an entry twice is attaching it once. *)
Lemma attach_attach bs (blks : gmap Z block) e :
  attach TYPES bs (attach TYPES bs blks e) e = attach TYPES bs blks e.
Proof.
  unfold attach. cbv zeta. rewrite lookup_insert_eq. cbn [from_option id].
  rewrite coverage_of_set, !insert_insert_eq. reflexivity.
Qed.

(** Entries at different bins can be attached in either order. *)
Lemma attach_comm bs (blks : gmap Z block) e1 e2 :
  e1.1 <> e2.1 ->
  attach TYPES bs (attach TYPES bs blks e1) e2 = attach TYPES bs (attach TYPES bs blks e2) e1.
Proof.
  intros Hne. unfold attach. cbv zeta.
  destruct (decide (truediv_int e1.1 bs * bs = truediv_int e2.1 bs * bs)) as [Heq|Hid].
  - rewrite <- Heq. rewrite !lookup_insert_eq. cbn [from_option id].
    rewrite !coverage_of_set, !insert_insert_eq.
    rewrite (insert_insert_ne _ e1.1 e2.1) by exact Hne. reflexivity.
  - rewrite lookup_insert_ne by exact Hid.
    rewrite (lookup_insert_ne _ (truediv_int e2.1 bs * bs)) by congruence.
    apply insert_insert_ne. congruence.
Qed.

Lemma foldl_attach_comm bs es : forall (blks : gmap Z block) e,
  e.1 ∉ es.*1 ->
  attach TYPES bs (foldl (attach TYPES bs) blks es) e
  = foldl (attach TYPES bs) (attach TYPES bs blks e) es.
Proof.
  induction es as [|e' es IH]; intros blks e Hnotin; [reflexivity |].
  rewrite fmap_cons in Hnotin. apply not_elem_of_cons in Hnotin as [Hne Hnotin].
  cbn [foldl]. rewrite IH by exact Hnotin. rewrite attach_comm by congruence. reflexivity.
Qed.

(** Attaching entries at distinct bins twice is attaching them once. *)
Lemma foldl_attach_twice bs es : forall (blks : gmap Z block),
  NoDup (es.*1) ->
  foldl (attach TYPES bs) (foldl (attach TYPES bs) blks es) es
  = foldl (attach TYPES bs) blks es.
Proof.
  induction es as [|e es IH]; intros blks Hnd; [reflexivity |].
  rewrite fmap_cons in Hnd. apply NoDup_cons in Hnd as [Hnotin Hnd].
  cbn [foldl]. rewrite foldl_attach_comm by exact Hnotin. rewrite attach_attach.
  apply IH. exact Hnd.
Qed.

Lemma foldl_attach_wf bs es : forall (blks : gmap Z block),
  blocks_wf blks -> blocks_wf (foldl (attach TYPES bs) blks es).
Proof.
  induction es as [|e es IH]; intros blks Hwf; [exact Hwf |].
  cbn [foldl]. apply IH. apply attach_wf. exact Hwf.
Qed.

Lemma scan_from_bins lp bins : forall t, (scan_from lp t bins).*1 = bins.
Proof.
  induction bins as [|bin bins IH]; intros t; [reflexivity |].
  cbn [scan_from]. rewrite fmap_cons, IH. reflexivity.
Qed.

(** The bins that close the windows are bins of the walk, in its order. *)
Lemma window_bins_sublist R l : forall cur,
  sublist (window_bin <$> windows_from R cur l) (l.*1).
Proof.
  induction l as [|e l IH]; intros cur; cbn [windows_from]; [constructor |].
  rewrite fmap_cons. destruct (decide (e.1 mod R = 0)).
  - rewrite fmap_cons, window_bin_snoc. apply sublist_skip, IH.
  - apply sublist_cons, IH.
Qed.

Lemma py_range_NoDup start stop step : step <> 0 -> NoDup (py_range start stop step).
Proof.
  intros Hs. unfold py_range. apply NoDup_fmap_2_strong; [| apply NoDup_seq].
  intros i j _ _ Heq. nia.
Qed.

(** The entries a walk attaches lie at distinct bins. *)
Lemma emissions_NoDup R lp bins : NoDup bins -> NoDup ((emissions R lp bins).*1).
Proof.
  intros Hnd. unfold emissions, windows.
  eapply sublist_NoDup; [exact Hnd |].
  etrans; [apply fmap_sublist, sublist_filter |].
  rewrite <- list_fmap_compose.
  rewrite <- (scan_from_bins lp bins 0) at 2. rewrite scan_from_depths.
  apply window_bins_sublist.
Qed.

(** The whole method on blocks that carry their coverage dict. *)
Lemma annotate_run lp resolution (o : snfile) :
  coverage_binsize (config o) <> 0 -> coverage_binsize_combine (config o) <> 0 ->
  snf_block_size (config o) <> 0 -> blocks_wf (blocks o) ->
  annotate_block_coverages TYPES lp resolution o
  = (Ok tt,
     set_blocks (foldl (attach TYPES (snf_block_size (config o))) (blocks o)
                   (emissions (coverage_binsize_combine (config o)) lp
                      (walked_bins (config o) lp))) o).
Proof.
  intros Hbin HR Hbs Hwf.
  unfold annotate_block_coverages, int_truediv, range. mstep.
  destruct (decide (coverage_binsize (config o) = 0)); [contradiction |]. mstep.
  destruct (decide (coverage_binsize (config o) = 0)); [contradiction |]. mstep.
  destruct (annotate_loop_spec TYPES lp (coverage_binsize_combine (config o))
              (snf_block_size (config o)) HR Hbs (walked_bins (config o) lp) cov_init o []
              Hwf eq_refl eq_refl) as [loc' Hl].
  unfold walked_bins in Hl. rewrite Hl. simpl. rewrite scan_from_depths. reflexivity.
Qed.

(** X20.  [annotate_block_coverages] is idempotent: with non-zero bin size,
    combine size and block size, and every held block carrying its coverage
    dict, a second call with the same depth source finds every entry it
    attaches already there and leaves the object exactly as the first call
    has left it. *)
Theorem annotate_idempotent (lp : lead_provider_t) (resolution resolution' : Z) (o : snfile) :
  coverage_binsize (config o) <> 0 -> coverage_binsize_combine (config o) <> 0 ->
  snf_block_size (config o) <> 0 -> blocks_wf (blocks o) ->
  exists o1,
    annotate_block_coverages TYPES lp resolution o = (Ok tt, o1) /\
    annotate_block_coverages TYPES lp resolution' o1 = (Ok tt, o1).
Proof.
  intros Hbin HR Hbs Hwf.
  eexists. split; [apply annotate_run; assumption |].
  rewrite annotate_run; try assumption; [| apply foldl_attach_wf; exact Hwf].
  cbn [blocks config set_blocks]. rewrite foldl_attach_twice; [reflexivity |].
  apply emissions_NoDup, py_range_NoDup. exact Hbin.
Qed.

(** The candidates a block holds under a tag. *)
Lemma blocks_typed_wf (blks : gmap Z block) : blocks_typed TYPES blks -> blocks_wf blks.
Proof. intros Hb i blk Hlk. apply (Hb i blk Hlk). Qed.

(** [store] on blocks of the regular shape, for a tag of [TYPES]. *)
Lemma store_run (c : @svcand Payload) (o : snfile) :
  snf_block_size (config o) <> 0 -> blocks_typed TYPES (blocks o) ->
  svtype c ∈ TYPES -> svtype c <> "_COVERAGE" ->
  store TYPES c o
  = (Ok tt, set_blocks (store_blocks TYPES (config o) c (blocks o)) o).
Proof.
  intros Hbs Hb Hin Hc. rewrite store_run_lines by exact Hbs.
  unfold store_blocks, append_cand, create_block, cands_of. cbv zeta.
  set (id := truediv_int (pos c) (snf_block_size (config o)) * snf_block_size (config o)).
  pose proof (held_typed TYPES c o id Hb) as Hht.
  pose proof (held_lookup TYPES c o id) as Hl. cbv zeta in Hht, Hl.
  set (held := if output_rnames (config o) then _ else _) in *.
  rewrite svtype_stored_form.
  destruct (held !! id) as [blk|] eqn:Hblk; [| discriminate]. simpl.
  destruct (Hht id blk Hblk) as [_ Hk].
  destruct (Hk (svtype c) Hc) as [Hsome _]. destruct (Hsome Hin) as [l Hlk].
  rewrite Hlk. reflexivity.
Qed.

Lemma cands_of_set_cov (blk : block) t c :
  t <> "_COVERAGE" -> cands_of (<["_COVERAGE" := BCov c]> blk) t = cands_of blk t.
Proof. intros Ht. unfold cands_of. rewrite lookup_insert_ne by congruence. reflexivity. Qed.

Lemma coverage_of_set_cands (blk : block) t l :
  t <> "_COVERAGE" -> coverage_of (<[t := BCands l]> blk) = coverage_of blk.
Proof. intros Ht. unfold coverage_of. rewrite lookup_insert_ne by exact Ht. reflexivity. Qed.

Lemma coverage_of_clear i (blk : block) :
  coverage_of (bval_clear i <$> blk) = coverage_of blk.
Proof.
  unfold coverage_of. rewrite lookup_fmap.
  destruct (blk !! "_COVERAGE") as [[l|m]|]; reflexivity.
Qed.

(** Creating the block of a candidate and attaching a coverage entry can be
    done in either order. *)
Lemma create_attach_comm bs id (blks : gmap Z block) e :
  create_block TYPES id (attach TYPES bs blks e)
  = attach TYPES bs (create_block TYPES id blks) e.
Proof.
  unfold create_block, attach. cbv zeta.
  destruct (decide (id = truediv_int e.1 bs * bs)) as [->|Hid].
  - rewrite !lookup_insert_eq. cbn [from_option id].
    rewrite !insert_insert_eq. reflexivity.
  - rewrite lookup_insert_ne by congruence.
    rewrite (lookup_insert_ne _ id) by exact Hid.
    apply insert_insert_ne. exact Hid.
Qed.

(** So can the assignment of line 56. *)
Lemma clear_attach_comm bs i (blks : gmap Z block) e :
  clear_aliases i (attach TYPES bs blks e) = attach TYPES bs (clear_aliases i blks) e.
Proof.
  unfold attach. cbv zeta. set (bi := truediv_int e.1 bs * bs).
  unfold clear_aliases at 1. rewrite fmap_insert, fmap_insert. fold (clear_aliases i blks).
  rewrite clear_aliases_lookup.
  assert (Hblk : default (new_block TYPES)
                    (fmap (M := gmap string) (@bval_clear Payload i) <$> blks !! bi)
                 = @bval_clear Payload i <$> default (new_block TYPES) (blks !! bi)).
  { destruct (blks !! bi); simpl; [reflexivity | symmetry; apply bval_clear_new_block]. }
  rewrite Hblk, coverage_of_clear. reflexivity.
Qed.

(** So can the append of line 57. *)
Lemma append_attach_comm bs id (c : @svcand Payload) (blks : gmap Z block) e :
  svtype c <> "_COVERAGE" ->
  append_cand TYPES id c (attach TYPES bs blks e)
  = attach TYPES bs (append_cand TYPES id c blks) e.
Proof.
  intros Hc. unfold append_cand, attach. cbv zeta.
  destruct (decide (id = truediv_int e.1 bs * bs)) as [->|Hid].
  - rewrite !lookup_insert_eq. cbn [from_option id].
    rewrite cands_of_set_cov by exact Hc. rewrite coverage_of_set_cands by exact Hc.
    rewrite !insert_insert_eq. f_equal. apply insert_insert_ne. congruence.
  - rewrite lookup_insert_ne by congruence.
    rewrite (lookup_insert_ne _ id) by exact Hid.
    apply insert_insert_ne. exact Hid.
Qed.

(** Storing a candidate and attaching a coverage entry can be done in
    either order. *)
Lemma store_attach_comm cfg (c : @svcand Payload) (blks : gmap Z block) e :
  svtype c <> "_COVERAGE" ->
  store_blocks TYPES cfg c (attach TYPES (snf_block_size cfg) blks e)
  = attach TYPES (snf_block_size cfg) (store_blocks TYPES cfg c blks) e.
Proof.
  intros Hc. unfold store_blocks. cbv zeta.
  rewrite create_attach_comm.
  rewrite <- append_attach_comm by (rewrite svtype_stored_form; exact Hc).
  destruct (output_rnames cfg); [reflexivity |].
  rewrite clear_attach_comm. reflexivity.
Qed.

Lemma store_foldl_attach_comm cfg (c : @svcand Payload) es : forall (blks : gmap Z block),
  svtype c <> "_COVERAGE" ->
  store_blocks TYPES cfg c (foldl (attach TYPES (snf_block_size cfg)) blks es)
  = foldl (attach TYPES (snf_block_size cfg)) (store_blocks TYPES cfg c blks) es.
Proof.
  induction es as [|e es IH]; intros blks Hc; [reflexivity |].
  cbn [foldl]. rewrite IH by exact Hc. rewrite store_attach_comm by exact Hc. reflexivity.
Qed.

(** X21.  Storing a candidate and annotating the coverage can be done in
    either order: with non-zero sizes, blocks of the regular shape and a
    candidate whose tag is one of [TYPES], both orders succeed and leave the
    same object. *)
Theorem store_annotate_commute (c : @svcand Payload) (lp : lead_provider_t)
    (resolution : Z) (o : snfile) :
  coverage_binsize (config o) <> 0 -> coverage_binsize_combine (config o) <> 0 ->
  snf_block_size (config o) <> 0 -> blocks_typed TYPES (blocks o) ->
  svtype c ∈ TYPES -> svtype c <> "_COVERAGE" ->
  exists o',
    (_ <- store TYPES c ;; annotate_block_coverages TYPES lp resolution) o = (Ok tt, o') /\
    (_ <- annotate_block_coverages TYPES lp resolution ;; store TYPES c) o = (Ok tt, o').
Proof.
  intros Hbin HR Hbs Hb Hin Hc.
  destruct (store_typed TYPES c o Hb) as (r1 & blks1 & Hs1 & Hb1).
  rewrite store_run in Hs1 by assumption. injection Hs1 as <- Hblks1.
  destruct (annotate_frame TYPES lp resolution o) as (r2 & blks2 & Ha2 & Hb2 & _).
  rewrite annotate_run in Ha2 by (try assumption; apply blocks_typed_wf; exact Hb).
  injection Ha2 as <- Hblks2.
  eexists. split.
  - unfold mbind. rewrite store_run by assumption.
    rewrite annotate_run; try assumption.
    + reflexivity.
    + cbn [blocks set_blocks]. apply blocks_typed_wf. rewrite Hblks1. exact Hb1.
  - unfold mbind. rewrite annotate_run by (try assumption; apply blocks_typed_wf; exact Hb).
    rewrite store_run; try assumption.
    + cbn [blocks config set_blocks]. rewrite store_foldl_attach_comm by exact Hc.
      reflexivity.
    + cbn [blocks set_blocks]. rewrite Hblks2. apply Hb2, Hb.
Qed.

End AnnotateAlgebra.

(** * More facts about the writer *)

Section WriterEdgeFacts.

Context {Payload Meta : Type}.
Variable pickle_dumps : gmap string (@bval Payload) -> bytes.
Variable gzip_compress : bytes -> bytes.

Local Abbreviation block := (gmap string (@bval Payload)).
Local Abbreviation snfile := (@snfile Payload Meta).
Local Abbreviation world := (@world Payload Meta).

Ltac mstep :=
  unfold mbind, mret, mraise, mget, mput, mmodify, mwhen, mtry in *; simpl in *.

Lemma sorted_block_ids_empty (blks : gmap Z block) :
  sorted_block_ids blks = [] <-> blks = ∅.
Proof.
  split.
  - intros Hs. apply map_empty. intros i.
    destruct (blks !! i) as [blk|] eqn:Hblk; [| reflexivity].
    assert (Hin : i ∈ sorted_block_ids blks) by (apply sorted_block_ids_elem; eauto).
    rewrite Hs in Hin. inversion Hin.
  - intros ->. reflexivity.
Qed.

(** The first block of the loop on a read-only file object. *)
Lemma write_block_read_only self (w : world) block_id offset d :
  handle (heap w self) = Some d -> dev_mode d = RB ->
  is_Some (blocks (heap w self) !! block_id) ->
  write_block pickle_dumps gzip_compress self block_id offset w
  = (Raise UnsupportedOperation, w).
Proof.
  intros Hh Hm [blk Hblk].
  unfold write_block, serialize_block, handle_write, get_self. mstep.
  rewrite Hblk. mstep. rewrite Hh. mstep. rewrite Hm. reflexivity.
Qed.

(** X6.  [write_and_index] needs a handle that is open for writing.  On a
    closed handle it opens the file for reading (line 104), and so, like on
    any read-only handle, it fails with [UnsupportedOperation] at the first
    block: nothing is written, indexed or counted, and the handle is left
    open whatever [combine_close_handles] says.  Only an object without
    blocks gets through, writing nothing. *)
Theorem write_and_index_read_only self (w : world) d :
  opened_device w (heap w self) = Some d -> dev_mode d = RB ->
  let o := heap w self in
  exists w',
    write_and_index pickle_dumps gzip_compress self w
    = (if decide (blocks o = ∅) then Ok tt else Raise UnsupportedOperation, w') /\
    fs w' = fs w /\
    heap w' self
    = set_handle (if decide (blocks o = ∅)
                  then (if combine_close_handles (config o) then None else Some d)
                  else Some d) o /\
    frame self w w'.
Proof.
  intros Hd Hm o.
  destruct (ensure_open_spec self w d Hd) as (w0 & Hrun0 & Hfs0 & Hheap0 & Hfr0).
  unfold write_and_index. unfold mbind at 1. rewrite Hrun0.
  unfold mbind at 1. unfold get_self at 1. rewrite Hheap0. cbn [blocks set_handle].
  fold o. destruct (decide (blocks o = ∅)) as [He|Hne].
  - rewrite He. change (sorted_block_ids ∅) with (@nil Z). cbn [mfor]. unfold mbind, mret.
    destruct (close_if_configured_spec self w0) as (w1 & Hrun1 & Hfs1 & Hheap1 & Hfr1).
    exists w1. split; [exact Hrun1 |]. split; [congruence |]. split.
    + rewrite Hheap1, Hheap0. subst o. simpl.
      destruct (combine_close_handles (config (heap w self))); reflexivity.
    + eapply frame_trans; eassumption.
  - destruct (sorted_block_ids (blocks o)) as [|i ids] eqn:Hs.
    { apply sorted_block_ids_empty in Hs. contradiction. }
    cbn [mfor]. unfold mbind at 1 2.
    rewrite (write_block_read_only self w0 i 0 d).
    + exists w0. split; [reflexivity |]. split; [exact Hfs0 |]. split; [exact Hheap0 |].
      exact Hfr0.
    + rewrite Hheap0. reflexivity.
    + exact Hm.
    + rewrite Hheap0. cbn [blocks set_handle]. fold o.
      apply sorted_block_ids_elem. rewrite Hs. left.
Qed.

(** X7.  A successful [write_and_index] raises [total_length], which
    [get_total_length] returns, by exactly the number of bytes it has
    appended to the file; that number is the sum of the lengths the index
    records for the blocks. *)
Theorem write_and_index_total_length self (w : world) d content idx :
  handle (heap w self) = Some d -> dev_mode d = WB ->
  fs w !! dev_path d = Some content -> dev_pos d = length content ->
  _index (heap w self) = Some idx ->
  let o := heap w self in
  let ids := sorted_block_ids (blocks o) in
  exists w' appended,
    write_and_index pickle_dumps gzip_compress self w = (Ok tt, w') /\
    fs w' !! dev_path d = Some (content ++ appended) /\
    get_total_length self w'
    = (Ok (total_length o + Z.of_nat (length appended)), w') /\
    Z.of_nat (length appended)
    = sum_Z (payload_len pickle_dumps gzip_compress (blocks o) <$> ids).
Proof.
  intros Hh Hm Hfs Hpos Hidx o ids.
  destruct (write_and_index_run pickle_dumps gzip_compress self w d content idx
              Hh Hm Hfs Hpos Hidx) as (w' & Hrun & Hfs' & Hheap' & _).
  exists w', (body_of pickle_dumps gzip_compress (blocks o) ids).
  split; [exact Hrun |]. split; [rewrite Hfs'; apply lookup_insert_eq |]. split.
  - unfold get_total_length, get_self, mbind, mret. rewrite Hheap'. reflexivity.
  - apply body_of_length.
Qed.


(** Recording entries is a union, later entries winning. *)
Lemma record_entries_union (idx : gmap pyval ival) (es : list (Z * (Z * Z))) :
  record_entries idx es
  = list_to_map (rev ((fun e => (PInt e.1, IRange e.2)) <$> es)) ∪ idx.
Proof.
  unfold record_entries. revert idx. induction es as [|e es IH]; intros idx.
  - simpl. rewrite (left_id_L ∅ (∪)). reflexivity.
  - cbn [foldl fmap list_fmap rev]. rewrite IH.
    rewrite list_to_map_app. cbn [list_to_map foldr]. cbn [fst snd].
    rewrite insert_empty, <- (assoc_L (∪)), <- insert_union_singleton_l. reflexivity.
Qed.

Lemma record_entries_twice (idx : gmap pyval ival) (es : list (Z * (Z * Z))) :
  record_entries (record_entries idx es) es = record_entries idx es.
Proof.
  rewrite !record_entries_union. rewrite (assoc_L (∪)), (idemp_L (∪)). reflexivity.
Qed.

(** X8.  [write_and_index] does not clear what it has written.  Called a
    second time on the handle it has left open, it appends every block once
    more and raises [total_length] once more, while the index is the one of
    the first pass: each pass counts its offsets from 0. *)
Theorem write_and_index_twice self (w : world) d content idx :
  handle (heap w self) = Some d -> dev_mode d = WB ->
  fs w !! dev_path d = Some content -> dev_pos d = length content ->
  _index (heap w self) = Some idx ->
  combine_close_handles (config (heap w self)) = false ->
  let o := heap w self in
  let body := body_of pickle_dumps gzip_compress (blocks o) (sorted_block_ids (blocks o)) in
  exists w1 w2,
    write_and_index pickle_dumps gzip_compress self w = (Ok tt, w1) /\
    write_and_index pickle_dumps gzip_compress self w1 = (Ok tt, w2) /\
    fs w1 !! dev_path d = Some (content ++ body) /\
    fs w2 !! dev_path d = Some (content ++ body ++ body) /\
    _index (heap w2 self) = _index (heap w1 self) /\
    total_length (heap w1 self) = total_length o + Z.of_nat (length body) /\
    total_length (heap w2 self) = total_length o + 2 * Z.of_nat (length body).
Proof.
  intros Hh Hm Hfs Hpos Hidx Hc o body.
  destruct (write_and_index_run pickle_dumps gzip_compress self w d content idx
              Hh Hm Hfs Hpos Hidx) as (w1 & Hrun1 & Hfs1 & Hheap1 & _).
  rewrite Hc in Hheap1. fold o in Hheap1. fold body in Hfs1, Hheap1.
  assert (Hb1 : blocks (heap w1 self) = blocks o) by (rewrite Hheap1; reflexivity).
  destruct (write_and_index_run pickle_dumps gzip_compress self w1
              (set_pos (length (content ++ body)) d) (content ++ body)
              (record_entries idx
                 (index_entries pickle_dumps gzip_compress (blocks o)
                    (sorted_block_ids (blocks o)) 0)))
    as (w2 & Hrun2 & Hfs2 & Hheap2 & _).
  { rewrite Hheap1. reflexivity. }
  { exact Hm. }
  { rewrite Hfs1. apply lookup_insert_eq. }
  { reflexivity. }
  { rewrite Hheap1. reflexivity. }
  rewrite Hb1 in Hfs2, Hheap2. fold body in Hfs2, Hheap2.
  exists w1, w2. split; [exact Hrun1 |]. split; [exact Hrun2 |].
  split; [rewrite Hfs1; apply lookup_insert_eq |].
  split; [rewrite Hfs2; cbn [dev_path set_pos]; rewrite lookup_insert_eq, <- app_assoc;
          reflexivity |].
  split; [rewrite Hheap2, Hheap1; cbn; rewrite record_entries_twice; reflexivity |].
  split; [rewrite Hheap1; reflexivity |].
  rewrite Hheap2, Hheap1. cbn. lia.
Qed.

End WriterEdgeFacts.

(** * More facts about the reader *)

Section ReaderEdgeFacts.

Context {Payload Meta : Type}.
Variable pickle_loads : bytes -> option (gmap string (@bval Payload)).
Variable gzip_decompress : bytes -> option bytes.
Variable json_loads : bytes -> option (@header_t Meta).

Local Abbreviation block := (gmap string (@bval Payload)).
Local Abbreviation snfile := (@snfile Payload Meta).
Local Abbreviation world := (@world Payload Meta).

Ltac mstep :=
  unfold mbind, mret, mraise, mget, mput, mmodify, mwhen, mtry in *; simpl in *.

(** [SNFile.read_header] when the line it reads does not parse. *)
Lemma SNFile_read_header_unparsed self (w : world) d :
  opened_device w (heap w self) = Some d -> dev_mode d = RB ->
  let o := heap w self in
  let line := take_line (drop (dev_pos d) (file_content w d)) in
  json_loads (strip line) = None ->
  exists w',
    SNFile_read_header json_loads self w = (Raise DecodeError, w') /\
    stdout w' = stdout w ++ [HeaderError (filename o) DecodeError] /\
    heap w' self
    = set_header_length (Some (Z.of_nat (length line)))
        (set_handle (Some (set_pos (dev_pos d + length line) d)) o).
Proof.
  intros Hd Hm o line Hjson.
  destruct (ensure_open_spec self w d Hd) as (w0 & Hrun0 & Hfs0 & Hheap0 & Hout0 & _).
  assert (Hline : take_line (drop (dev_pos d) (file_content w0 d)) = line)
    by (unfold file_content; rewrite Hfs0; reflexivity).
  eexists. split; [| split].
  - unfold SNFile_read_header. unfold mbind at 1. rewrite Hrun0.
    unfold handle_readline, get_self, upd_self, print. mstep.
    rewrite Hheap0. simpl. rewrite Hm. simpl. rewrite Hline, Hjson. simpl.
    reflexivity.
  - simpl. rewrite !fn_lookup_insert. rewrite Hout0, Hheap0. reflexivity.
  - simpl. rewrite !fn_lookup_insert. rewrite Hheap0. reflexivity.
Qed.

(** X9.  How [SNFile.read_header] fails once the file is open.  A first
    line that does not parse is reported on standard output and the error
    raised again; [header_length] has been set to the length of that line
    all the same, while header and index are as before.  A line that parses
    to a header without the key ["index"] raises [KeyError] without a
    report, and the header has been replaced all the same, the index not.
    A file object that is not readable is reported like a line that does not
    parse, and nothing changes.  In none of the three cases is the handle
    closed, whatever [combine_close_handles] says. *)
Theorem read_header_failures self (w : world) d :
  opened_device w (heap w self) = Some d ->
  let o := heap w self in
  let line := take_line (drop (dev_pos d) (file_content w d)) in
  let read := set_header_length (Some (Z.of_nat (length line)))
                (set_handle (Some (set_pos (dev_pos d + length line) d)) o) in
  (dev_mode d = RB -> json_loads (strip line) = None ->
   exists w',
     SNFile_read_header json_loads self w = (Raise DecodeError, w') /\
     stdout w' = stdout w ++ [HeaderError (filename o) DecodeError] /\
     heap w' self = read) /\
  (forall h, dev_mode d = RB -> json_loads (strip line) = Some h -> index_entry h = None ->
   exists w',
     SNFile_read_header json_loads self w = (Raise KeyError, w') /\
     stdout w' = stdout w /\
     heap w' self = set_header (Some h) read) /\
  (dev_mode d = WB ->
   exists w',
     SNFile_read_header json_loads self w = (Raise UnsupportedOperation, w') /\
     stdout w' = stdout w ++ [HeaderError (filename o) UnsupportedOperation] /\
     heap w' self = set_handle (Some d) o).
Proof.
  intros Hd o line read.
  destruct (ensure_open_spec self w d Hd) as (w0 & Hrun0 & Hfs0 & Hheap0 & Hout0 & _).
  assert (Hline : take_line (drop (dev_pos d) (file_content w0 d)) = line)
    by (unfold file_content; rewrite Hfs0; reflexivity).
  split; [| split].
  - intros Hm Hjson. exact (SNFile_read_header_unparsed self w d Hd Hm Hjson).
  - intros h Hm Hjson Hidx. eexists. split; [| split].
    + unfold SNFile_read_header. unfold mbind at 1. rewrite Hrun0.
      unfold handle_readline, get_self, upd_self, print. mstep.
      rewrite Hheap0. simpl. rewrite Hm. simpl. rewrite Hline, Hjson. simpl.
      rewrite !fn_lookup_insert. simpl. rewrite Hidx. simpl. reflexivity.
    + simpl. exact Hout0.
    + simpl. rewrite !fn_lookup_insert. rewrite Hheap0. reflexivity.
  - intros Hm. eexists. split; [| split].
    + unfold SNFile_read_header. unfold mbind at 1. rewrite Hrun0.
      unfold handle_readline, get_self, upd_self, print. mstep.
      rewrite Hheap0. simpl. rewrite Hm. simpl. reflexivity.
    + simpl. rewrite Hout0, Hheap0. reflexivity.
    + simpl. exact Hheap0.
Qed.


(** [LazySNFile.read_header] on a readable device whose first line parses
    to a header with an index: what it does to the object, to storage and to
    standard output. *)
Lemma lazy_read_header_load self (w : world) d h idx :
  NoDup (_ACTIVE w) ->
  opened_device w (heap w self) = Some d -> dev_mode d = RB ->
  let line := take_line (file_content w d) in
  json_loads (strip line) = Some h -> index_entry h = Some idx ->
  exists w',
    LazySNFile_read_header json_loads self w = (Ok tt, w') /\
    fs w' = fs w /\ stdout w' = stdout w /\
    heap w' self
    = set_handle (if combine_close_handles (config (heap w self)) then None
                  else Some (set_pos (length line) d))
        (set_index (Some idx)
           (set_header (Some h)
              (set_header_length (Some (Z.of_nat (length line))) (heap w self)))).
Proof.
  intros Hnd Hd Hm line Hjson Hidx.
  destruct (registry_touch_spec self w Hnd) as (w1 & Hrun1 & Hfs1 & Hout1 & Hcase).
  assert (Hself1 : heap w1 self = heap w self).
  { destruct (decide _); [apply Hcase |].
    destruct Hcase as (oldest & rest & _ & Hne & _ & _ & Hothers).
    apply Hothers. congruence. }
  assert (Hseek : exists w2,
             (_ <- mwhen (is_open (heap w1 self)) (handle_seek self 0) ;;
              SNFile_read_header json_loads self) w1
             = SNFile_read_header json_loads self w2 /\
             fs w2 = fs w /\ stdout w2 = stdout w /\
             opened_device w2 (heap w2 self) = Some (set_pos 0 d) /\
             set_handle None (heap w2 self) = set_handle None (heap w self)).
  { unfold opened_device in Hd. unfold is_open. rewrite Hself1.
    destruct (handle (heap w self)) as [d0|] eqn:Hh.
    - injection Hd as ->. eexists. split; [| split; [| split; [| split]]].
      + unfold mwhen, handle_seek, get_self, upd_self, mbind. rewrite Hself1, Hh. simpl.
        reflexivity.
      + exact Hfs1.
      + exact Hout1.
      + unfold opened_device. simpl. rewrite fn_lookup_insert. reflexivity.
      + simpl. rewrite fn_lookup_insert, Hself1. reflexivity.
    - exists w1. split; [reflexivity |]. split; [exact Hfs1 |]. split; [exact Hout1 |].
      split; [| rewrite Hself1; reflexivity].
      unfold opened_device. rewrite Hself1, Hh, Hfs1.
      destruct (filename (heap w self)) as [name|]; [| discriminate].
      destruct (fs w !! name); [| discriminate].
      injection Hd as <-. reflexivity. }
  destruct Hseek as (w2 & Hrun2 & Hfs2 & Hout2 & Hd2 & Hself2).
  destruct (SNFile_read_header_ok json_loads self w2 (set_pos 0 d) h idx Hd2 Hm)
    as (w3 & Hrun3 & Hfs3 & Hheap3 & Hout3 & _).
  { unfold file_content. simpl. rewrite Hfs2. exact Hjson. }
  { exact Hidx. }
  exists w3. split; [| split; [| split]].
  - unfold LazySNFile_read_header. unfold mbind at 1. rewrite Hrun1.
    unfold mbind at 1. unfold get_self at 1. rewrite Hrun2. exact Hrun3.
  - congruence.
  - congruence.
  - rewrite Hheap3. unfold file_content. simpl. rewrite Hfs2. fold (file_content w d).
    fold line.
    assert (Hcfg : config (heap w2 self) = config (heap w self))
      by (apply (f_equal config) in Hself2; exact Hself2).
    rewrite Hcfg.
    destruct (heap w2 self), (heap w self). simpl in *.
    injection Hself2 as -> -> -> -> -> -> -> ->. reflexivity.
Qed.







(** X17.  [SNFile.read_header] reads the header from wherever the handle
    stands.  On a plain [SNFile] whose handle is left open, a second call
    does not read the header again but the line after it, the start of the
    first block.  When that line does not parse the call raises, and
    [header_length], which [read_blocks] adds to every offset, is from then
    on the length of that line and no longer the length of the header. *)
Theorem read_header_again_reads_on self (w : world) d h idx :
  handle (heap w self) = Some d -> dev_mode d = RB ->
  combine_close_handles (config (heap w self)) = false ->
  let content := file_content w d in
  let line1 := take_line (drop (dev_pos d) content) in
  let line2 := take_line (drop (dev_pos d + length line1) content) in
  json_loads (strip line1) = Some h -> index_entry h = Some idx ->
  json_loads (strip line2) = None ->
  exists w1 w2,
    SNFile_read_header json_loads self w = (Ok tt, w1) /\
    header_length (heap w1 self) = Some (Z.of_nat (length line1)) /\
    SNFile_read_header json_loads self w1 = (Raise DecodeError, w2) /\
    header_length (heap w2 self) = Some (Z.of_nat (length line2)) /\
    _header (heap w2 self) = Some h /\ _index (heap w2 self) = Some idx.
Proof.
  intros Hh Hm Hcch content line1 line2 Hj1 Hidx Hj2.
  assert (Hd : opened_device w (heap w self) = Some d)
    by (unfold opened_device; rewrite Hh; reflexivity).
  destruct (SNFile_read_header_ok json_loads self w d h idx Hd Hm Hj1 Hidx)
    as (w1 & Hrun1 & Hfs1 & Hheap1 & _).
  rewrite Hcch in Hheap1. fold content line1 in Hheap1.
  set (d1 := set_pos (dev_pos d + length line1) d) in *.
  assert (Hd1 : opened_device w1 (heap w1 self) = Some d1)
    by (unfold opened_device; rewrite Hheap1; reflexivity).
  destruct (SNFile_read_header_unparsed self w1 d1 Hd1 Hm) as (w2 & Hrun2 & _ & Hheap2).
  { unfold file_content. rewrite Hfs1. exact Hj2. }
  exists w1, w2. split; [exact Hrun1 |].
  split; [rewrite Hheap1; reflexivity |]. split; [exact Hrun2 |].
  rewrite Hheap2, Hheap1. unfold file_content. rewrite Hfs1. auto.
Qed.

(** X18.  [LazySNFile.read_header] can be repeated: it rewinds an open
    handle and opens a closed one, so every call reads the first line of the
    file.  A second call leaves the object exactly as the first one has left
    it. *)
Theorem lazy_read_header_repeatable self (w : world) path content h idx :
  registry_inv w ->
  handle (heap w self) = None ->
  filename (heap w self) = Some path -> fs w !! path = Some content ->
  json_loads (strip (take_line content)) = Some h -> index_entry h = Some idx ->
  exists w1 w2,
    LazySNFile_read_header json_loads self w = (Ok tt, w1) /\
    LazySNFile_read_header json_loads self w1 = (Ok tt, w2) /\
    heap w2 self = heap w1 self /\
    _header (heap w1 self) = Some h /\ _index (heap w1 self) = Some idx /\
    header_length (heap w1 self) = Some (Z.of_nat (length (take_line content))).
Proof.
  intros Hinv Hclosed Hname Hfile Hjson Hidx.
  set (d := {| dev_mode := RB; dev_path := path; dev_pos := 0 |}).
  assert (Hd : opened_device w (heap w self) = Some d).
  { unfold opened_device. rewrite Hclosed, Hname, Hfile. reflexivity. }
  assert (Hcontent : file_content w d = content).
  { unfold file_content. simpl. rewrite Hfile. reflexivity. }
  pose proof Hinv as (_ & Hnd & _).
  destruct (lazy_read_header_load self w d h idx Hnd Hd eq_refl) as (w1 & Hrun1 & Hfs1 & _ & Hheap1).
  { rewrite Hcontent. exact Hjson. }
  { exact Hidx. }
  rewrite Hcontent in Hheap1.
  pose proof (lazy_read_header_inv json_loads self w Hinv) as Hinv1.
  rewrite Hrun1 in Hinv1. cbn [snd] in Hinv1. destruct Hinv1 as (_ & Hnd1 & _).
  set (L := length (take_line content)) in *.
  set (d1 := if combine_close_handles (config (heap w self)) then d else set_pos L d).
  assert (Hd1 : opened_device w1 (heap w1 self) = Some d1).
  { unfold opened_device, d1. rewrite Hheap1, Hfs1.
    destruct (combine_close_handles (config (heap w self))); simpl; [| reflexivity].
    rewrite Hname, Hfile. reflexivity. }
  assert (Hm1 : dev_mode d1 = RB) by (unfold d1; destruct (combine_close_handles _); reflexivity).
  assert (Hcontent1 : file_content w1 d1 = content).
  { unfold file_content, d1. rewrite Hfs1.
    destruct (combine_close_handles _); simpl; rewrite Hfile; reflexivity. }
  destruct (lazy_read_header_load self w1 d1 h idx Hnd1 Hd1 Hm1) as (w2 & Hrun2 & _ & _ & Hheap2).
  { rewrite Hcontent1. exact Hjson. }
  { exact Hidx. }
  rewrite Hcontent1 in Hheap2. fold L in Hheap2.
  exists w1, w2. split; [exact Hrun1 |]. split; [exact Hrun2 |].
  split; [| rewrite Hheap1; auto].
  rewrite Hheap2, Hheap1. unfold d1. cbn [config set_handle set_index set_header
                                            set_header_length].
  destruct (combine_close_handles (config (heap w self))); reflexivity.
Qed.

End ReaderEdgeFacts.

(** * Facts about reading every block of a contig *)

Section AccessorFacts.

Context {Payload Meta : Type}.
Variable pickle_loads : bytes -> option (gmap string (@bval Payload)).
Variable gzip_decompress : bytes -> option bytes.
Variable json_loads : bytes -> option (@header_t Meta).
Variable dict_keys : gmap pyval (list (Z * Z)) -> list pyval.

Local Abbreviation block := (gmap string (@bval Payload)).
Local Abbreviation snfile := (@snfile Payload Meta).
Local Abbreviation world := (@world Payload Meta).

Ltac mstep :=
  unfold mbind, mret, mraise, mget, mput, mmodify, mwhen, mtry in *; simpl in *.

(** The loop over the ranges leaves a reader that has read them all ready
    for the next read. *)
Lemma read_loop_ready self contig block_index path hl ranges :
  forall (w : world) acc,
    reader_ready self w path hl ->
    let content := default [] (fs w !! path) in
    let res := decode_all pickle_loads gzip_decompress content hl ranges acc in
    exists w',
      mfor ranges (read_blocks_body pickle_loads gzip_decompress self contig block_index)
           acc w = (res, w') /\
      fs w' = fs w /\
      stdout w' = stdout w ++ failure_report contig block_index (filename (heap w self)) res /\
      (exists h, heap w' self = set_handle h (heap w self)) /\
      (forall found, res = Ok found -> reader_ready self w' path hl).
Proof.
  induction ranges as [|r ranges IH]; intros w acc Hready; cbv zeta.
  - exists w. simpl. rewrite app_nil_r. repeat split; [| auto].
    exists (handle (heap w self)). destruct (heap w self); reflexivity.
  - destruct (read_blocks_body_spec pickle_loads gzip_decompress self w contig block_index
                path hl r acc Hready)
      as (w1 & Hrun & Hfs1 & Hout1 & [h1 Hheap1] & Hready1).
    cbn [mfor decode_all]. unfold mbind. rewrite Hrun.
    destruct (decode_range pickle_loads gzip_decompress (default [] (fs w !! path)) hl r)
      as [blk|e] eqn:Hres.
    + destruct (IH w1 (acc ++ [blk]) (Hready1 blk eq_refl))
        as (w2 & Hrun2 & Hfs2 & Hout2 & [h2 Hheap2] & Hready2).
      rewrite Hfs1 in Hrun2, Hout2, Hready2.
      exists w2. split; [exact Hrun2 |]. split; [congruence |].
      split; [| split].
      * rewrite Hout2, Hout1. simpl. rewrite app_nil_r, Hheap1. reflexivity.
      * exists h2. rewrite Hheap2, Hheap1. reflexivity.
      * exact Hready2.
    + exists w1. split; [reflexivity |]. split; [exact Hfs1 |].
      split; [exact Hout1 |]. split; [eauto | discriminate].
Qed.

Lemma reader_state_opened self (w : world) path hl idx :
  reader_state self w path hl idx ->
  exists d, opened_device w (heap w self) = Some d /\ dev_mode d = RB /\ dev_path d = path.
Proof.
  intros (_ & _ & _ & Hname & [content Hfile] & [Hclosed | (d & Hh & Hm & Hp)]).
  - exists {| dev_mode := RB; dev_path := path; dev_pos := 0 |}.
    unfold opened_device. rewrite Hclosed, Hname, Hfile. auto.
  - exists d. unfold opened_device. rewrite Hh. auto.
Qed.

Lemma reader_state_set_handle self (w w' : world) path hl idx h :
  reader_state self w path hl idx ->
  fs w' = fs w -> heap w' self = set_handle h (heap w self) ->
  (h = None \/ exists d, h = Some d /\ dev_mode d = RB /\ dev_path d = path) ->
  reader_state self w' path hl idx.
Proof.
  intros (Hres & Hidx & Hhl & Hname & Hfile & _) Hfs Hheap Hh.
  unfold reader_state. rewrite Hheap, Hfs. simpl.
  split; [exact Hres |]. auto.
Qed.

(** [read_blocks] for a contig the index holds, on a reader in order: the
    outcome, and the state the reader is left in. *)
Lemma read_blocks_reader self (w : world) contig block_index path hl idx sub :
  reader_state self w path hl idx ->
  idx !! contig = Some (ISub sub) ->
  let content := default [] (fs w !! path) in
  let res :=
    match sub !! PStr (py_str block_index) with
    | None => Ok None
    | Some ranges =>
        match decode_all pickle_loads gzip_decompress content hl ranges [] with
        | Ok found => Ok (Some found)
        | Raise e => Raise e
        end
    end in
  exists w',
    read_blocks pickle_loads gzip_decompress json_loads self contig block_index w
    = (res, w') /\
    fs w' = fs w /\
    stdout w' = stdout w ++ failure_report contig (py_str block_index) (Some path) res /\
    (forall v, res = Ok v -> reader_state self w' path hl idx).
Proof.
  intros Hst Hc content res.
  destruct (reader_state_opened self w path hl idx Hst) as (d & Hd & Hm & Hp).
  pose proof Hst as (Hres & Hidx & Hhl & Hname & Hfile & _).
  destruct (sub !! PStr (py_str block_index)) as [ranges|] eqn:Hs.
  - destruct (ensure_open_spec self w d Hd) as (w0 & Hrun0 & Hfs0 & Hheap0 & Hout0 & _).
    assert (Hres0 : resident (heap w0 self)) by (rewrite Hheap0; exact Hres).
    assert (Hidx0 : _index (heap w0 self) = Some idx) by (rewrite Hheap0; exact Hidx).
    assert (Hready : reader_ready self w0 path hl).
    { exists d. rewrite Hheap0. simpl. auto. }
    destruct (read_loop_ready self contig (py_str block_index) path hl ranges w0 [] Hready)
      as (w1 & Hrun1 & Hfs1 & Hout1 & [h1 Hheap1] & Hready1).
    rewrite Hfs0 in Hrun1, Hout1, Hready1. fold content in Hrun1, Hout1, Hready1.
    assert (Hfn : filename (heap w0 self) = Some path)
      by (rewrite Hheap0; exact Hname).
    rewrite Hfn in Hout1.
    assert (Hstart :
              forall k : unit -> M world (option (list block)),
                read_blocks pickle_loads gzip_decompress json_loads self contig block_index w
                = (blocks0 <- mfor ranges
                                (read_blocks_body pickle_loads gzip_decompress self contig
                                   (py_str block_index)) [] ;;
                   _ <- close_if_configured self ;;
                   mret (Some blocks0)) w0).
    { intros _. unfold read_blocks. unfold mbind at 1. rewrite Hrun0.
      unfold mbind at 1. rewrite (index_resident json_loads) by exact Hres0. rewrite Hidx0.
      rewrite bool_decide_eq_false_2 by (rewrite Hc; discriminate).
      unfold mbind at 1. rewrite (index_getitem_resident json_loads self w0 contig idx _
                                    Hres0 Hidx0 Hc).
      rewrite bool_decide_eq_false_2 by (rewrite Hs; discriminate).
      unfold mbind at 1. rewrite (index_getitem_resident json_loads self w0 contig idx _
                                    Hres0 Hidx0 Hc).
      rewrite Hs. reflexivity. }
    rewrite (Hstart (fun _ => mret None)). unfold mbind at 1. rewrite Hrun1. subst res.
    destruct (decode_all pickle_loads gzip_decompress content hl ranges []) as [found|e].
    + specialize (Hready1 found eq_refl).
      destruct (close_if_configured_spec self w1) as (w2 & Hrun2 & Hfs2 & Hheap2 & Hout2 & _).
      unfold mbind, mret. rewrite Hrun2. exists w2.
      split; [reflexivity |]. split; [congruence |].
      split; [rewrite Hout2, Hout1, Hout0; reflexivity |].
      intros _ _.
      destruct Hready1 as (d1 & Hh1 & Hm1 & Hp1 & _).
      apply (reader_state_set_handle self w w2 path hl idx
               (if combine_close_handles (config (heap w1 self)) then None
                else handle (heap w1 self))); [exact Hst | congruence | |].
      * rewrite Hheap2, Hheap1, Hheap0. reflexivity.
      * destruct (combine_close_handles (config (heap w1 self)));
          [left; reflexivity | right].
        exists d1. auto.
    + exists w1. split; [reflexivity |]. split; [congruence |].
      split; [rewrite Hout1, Hout0; reflexivity | discriminate].
  - destruct (read_blocks_absent_run pickle_loads gzip_decompress json_loads self w contig
                block_index d idx Hd Hres Hidx)
      as (w' & Hrun & Hout & Hfs & [h Hheap]).
    { unfold index_lacks. rewrite Hc. exact Hs. }
    (* the handle the call leaves *)
    assert (Hh : handle (heap w' self) = None \/
                 exists d', handle (heap w' self) = Some d' /\ dev_mode d' = RB /\
                            dev_path d' = path).
    { destruct (ensure_open_spec self w d Hd) as (w0 & Hrun0 & Hfs0 & Hheap0 & _).
      destruct (close_if_configured_spec self w0) as (w1 & Hrun1 & _ & Hheap1 & _).
      assert (Hw : w' = w1).
      { cut ((Ok None : result (option (list block)), w') = (Ok None, w1));
          [intros [= ->]; reflexivity |].
        rewrite <- Hrun. unfold read_blocks. unfold mbind at 1. rewrite Hrun0.
        assert (Hres0 : resident (heap w0 self)) by (rewrite Hheap0; exact Hres).
        assert (Hidx0 : _index (heap w0 self) = Some idx) by (rewrite Hheap0; exact Hidx).
        unfold mbind at 1. rewrite (index_resident json_loads) by exact Hres0. rewrite Hidx0.
        rewrite bool_decide_eq_false_2 by (rewrite Hc; discriminate).
        unfold mbind at 1. rewrite (index_getitem_resident json_loads self w0 contig idx _
                                      Hres0 Hidx0 Hc).
        rewrite bool_decide_eq_true_2 by exact Hs.
        unfold mbind, mret. rewrite Hrun1. reflexivity. }
      subst w'. rewrite Hheap1, Hheap0. simpl.
      destruct (combine_close_handles (config (heap w self)));
        [left; reflexivity | right; eauto]. }
    exists w'. split; [exact Hrun |]. split; [exact Hfs |].
    split; [simpl; rewrite app_nil_r; exact Hout |].
    intros _ _. apply (reader_state_set_handle self w w' path hl idx (handle (heap w' self)));
      [exact Hst | exact Hfs | | exact Hh].
    rewrite Hheap. reflexivity.
Qed.


(** The loop of [get_all_blocks]. *)
Lemma get_all_blocks_loop self contig path hl idx sub keys :
  idx !! contig = Some (ISub sub) ->
  forall (w : world) acc,
    reader_state self w path hl idx ->
    let content := default [] (fs w !! path) in
    let res := first_blocks pickle_loads gzip_decompress content hl sub keys acc in
    exists w',
      mfor keys (get_all_blocks_body pickle_loads gzip_decompress json_loads self contig)
           acc w = (res, w') /\
      fs w' = fs w /\
      (forall v, res = Ok v -> stdout w' = stdout w /\ reader_state self w' path hl idx).
Proof.
  intros Hc. induction keys as [|k keys IH]; intros w acc Hst; cbv zeta.
  - exists w. cbn [mfor first_blocks]. unfold mret. auto.
  - destruct (read_blocks_reader self w contig k path hl idx sub Hst Hc)
      as (w1 & Hrun1 & Hfs1 & Hout1 & Hst1).
    cbn [mfor first_blocks]. unfold mbind at 1. unfold get_all_blocks_body at 1.
    unfold mbind at 1. rewrite Hrun1.
    destruct (sub !! PStr (py_str k)) as [ranges|].
    + destruct (decode_all pickle_loads gzip_decompress (default [] (fs w !! path)) hl
                  ranges []) as [[|blk found]|e].
      * exists w1. split; [reflexivity |]. split; [exact Hfs1 | discriminate].
      * specialize (Hst1 _ eq_refl). simpl in Hout1. rewrite app_nil_r in Hout1.
        destruct (IH w1 (dict_setitem k blk acc) Hst1) as (w2 & Hrun2 & Hfs2 & Hok2).
        rewrite Hfs1 in Hrun2, Hok2.
        exists w2. split; [exact Hrun2 |]. split; [congruence |].
        intros v Hv. destruct (Hok2 v Hv) as [Hout2 Hst2].
        split; [congruence | exact Hst2].
      * exists w1. split; [reflexivity |]. split; [exact Hfs1 | discriminate].
    + exists w1. split; [reflexivity |]. split; [exact Hfs1 | discriminate].
Qed.

(** [get_all_blocks] on a reader in order, for a contig of the index. *)
Lemma get_all_blocks_run self (w : world) contig path hl idx sub :
  reader_state self w path hl idx ->
  idx !! contig = Some (ISub sub) ->
  let content := default [] (fs w !! path) in
  let res := first_blocks pickle_loads gzip_decompress content hl sub (dict_keys sub) [] in
  exists w',
    get_all_blocks pickle_loads gzip_decompress json_loads dict_keys self contig w
    = (res, w') /\
    fs w' = fs w /\
    (forall v, res = Ok v -> stdout w' = stdout w /\ reader_state self w' path hl idx).
Proof.
  intros Hst Hc content res.
  pose proof Hst as (Hres & Hidx & _).
  unfold get_all_blocks. unfold mbind at 1.
  rewrite (index_getitem_resident json_loads self w contig idx _ Hres Hidx Hc).
  apply get_all_blocks_loop; assumption.
Qed.

Lemma decode_all_acc content hl ranges : forall acc found,
  decode_all pickle_loads gzip_decompress content hl ranges acc = Ok found ->
  exists rest, found = acc ++ rest.
Proof.
  induction ranges as [|r ranges IH]; intros acc found; cbn [decode_all].
  - intros [= <-]. exists []. rewrite app_nil_r. reflexivity.
  - destruct (decode_range pickle_loads gzip_decompress content hl r) as [blk|e];
      [| discriminate].
    intros Hd. apply IH in Hd as [rest ->]. exists (blk :: rest).
    rewrite <- app_assoc. reflexivity.
Qed.

Lemma decode_all_ok content hl ranges : forall acc,
  Forall (fun r => exists blk, decode_range pickle_loads gzip_decompress content hl r = Ok blk)
         ranges ->
  exists found, decode_all pickle_loads gzip_decompress content hl ranges acc = Ok found.
Proof.
  induction ranges as [|r ranges IH]; intros acc Hall; cbn [decode_all]; [eauto |].
  apply Forall_cons in Hall as [[blk ->] Hall]. apply IH. exact Hall.
Qed.

(** The first of the decoded blocks is the block of the first range. *)
Lemma decode_all_first content hl r ranges :
  Forall (fun r => exists blk, decode_range pickle_loads gzip_decompress content hl r = Ok blk)
         (r :: ranges) ->
  exists blk rest,
    decode_all pickle_loads gzip_decompress content hl (r :: ranges) [] = Ok (blk :: rest) /\
    decode_range pickle_loads gzip_decompress content hl r = Ok blk.
Proof.
  intros Hall. apply Forall_cons in Hall as [[blk Hr] Hall].
  destruct (decode_all_ok content hl ranges [blk] Hall) as [found Hd].
  pose proof (decode_all_acc content hl ranges [blk] found Hd) as [rest ->].
  exists blk, rest. split; [| exact Hr].
  cbn [decode_all]. rewrite Hr. exact Hd.
Qed.





(** Keys that are in order do not stop the loop. *)
Lemma first_blocks_prefix content hl (sub : gmap pyval (list (Z * Z))) pre rest :
  (forall k, k ∈ pre ->
             exists r rs,
               sub !! PStr (py_str k) = Some (r :: rs) /\
               Forall (fun r' => exists blk,
                           decode_range pickle_loads gzip_decompress content hl r' = Ok blk)
                      (r :: rs)) ->
  forall acc, exists acc',
    first_blocks pickle_loads gzip_decompress content hl sub (pre ++ rest) acc
    = first_blocks pickle_loads gzip_decompress content hl sub rest acc'.
Proof.
  induction pre as [|k pre IH]; intros Hall acc; [eauto |].
  destruct (Hall k) as (r & rs & Hs & Hdec); [left |].
  destruct (decode_all_first content hl r rs Hdec) as (blk & found & Hd & _).
  cbn [app first_blocks]. rewrite Hs, Hd. apply IH.
  intros k' Hk'. apply Hall. right. exact Hk'.
Qed.

(** X13.  How [get_all_blocks] fails on a reader in order.  A contig the
    index lacks raises [KeyError].  An index as [write_and_index] builds it
    cannot be used: its entries are tuples, which have no [keys], so the
    call raises [AttributeError].  In both cases nothing has happened yet.
    Once the keys are walked, the first key that is out of order stops the
    call: a key whose string form is no key of the contig (an integer key)
    makes [read_blocks] return [None], and subscripting it raises
    [TypeError]; a key with an empty list of ranges raises [IndexError]; and
    an error in any range of the key, be it not the first one, is raised as
    it is. *)
Theorem get_all_blocks_failures self (w : world) contig idx :
  resident (heap w self) -> _index (heap w self) = Some idx ->
  let run := get_all_blocks pickle_loads gzip_decompress json_loads dict_keys self contig w in
  (idx !! contig = None -> run = (Raise KeyError, w)) /\
  (forall r, idx !! contig = Some (IRange r) -> run = (Raise AttributeError, w)) /\
  (forall path hl sub pre k post,
      reader_state self w path hl idx ->
      idx !! contig = Some (ISub sub) ->
      dict_keys sub = pre ++ k :: post ->
      let content := default [] (fs w !! path) in
      (forall k', k' ∈ pre ->
                  exists r rs,
                    sub !! PStr (py_str k') = Some (r :: rs) /\
                    Forall (fun r' => exists blk,
                                decode_range pickle_loads gzip_decompress content hl r'
                                = Ok blk)
                           (r :: rs)) ->
      (sub !! PStr (py_str k) = None -> fst run = Raise TypeError) /\
      (sub !! PStr (py_str k) = Some [] -> fst run = Raise IndexError) /\
      (forall ranges e,
          sub !! PStr (py_str k) = Some ranges ->
          decode_all pickle_loads gzip_decompress content hl ranges [] = Raise e ->
          fst run = Raise e)).
Proof.
  intros Hres Hidx run.
  split; [| split].
  - intros Hc. subst run. unfold get_all_blocks, index_getitem. unfold mbind at 1 2.
    rewrite (index_resident json_loads) by exact Hres. rewrite Hidx, Hc. reflexivity.
  - intros r Hc. subst run. unfold get_all_blocks. unfold mbind at 1.
    rewrite (index_getitem_resident json_loads self w contig idx _ Hres Hidx Hc).
    reflexivity.
  - intros path hl sub pre k post Hst Hc Hkeys content Hpre.
    destruct (get_all_blocks_run self w contig path hl idx sub Hst Hc)
      as (w' & Hrun & _).
    fold run content in Hrun. rewrite Hrun, Hkeys. cbn [fst].
    destruct (first_blocks_prefix content hl sub pre (k :: post) Hpre []) as [acc' ->].
    cbn [first_blocks]. split; [| split].
    + intros ->. reflexivity.
    + intros ->. reflexivity.
    + intros ranges e -> ->. reflexivity.
Qed.

(** The loop of [get_full_coverage] over blocks that carry their coverage
    dict. *)
Lemma coverage_loop (blks : list block) : forall covs acc (w : world),
  Forall2 (fun (b : block) m => b !! "_COVERAGE" = Some (BCov m)) blks covs ->
  mfor blks coverage_update acc w = (Ok (foldl (fun a m => m ∪ a) acc covs), w).
Proof.
  induction blks as [|b blks IH]; intros covs acc w Hall.
  - apply Forall2_nil_inv_l in Hall as ->. reflexivity.
  - apply Forall2_cons_inv_l in Hall as (m & covs' & Hb & Hall & ->).
    cbn [mfor foldl]. unfold mbind, coverage_update at 1. rewrite Hb. unfold mret.
    apply IH. exact Hall.
Qed.

Lemma merge_coverage_snoc (covs : list (gmap Z Z)) m :
  merge_coverage (covs ++ [m]) = m ∪ merge_coverage covs.
Proof. unfold merge_coverage. rewrite foldl_app. reflexivity. Qed.

(** An entry of the merged coverage is the entry of the last dict that has
    the bin. *)
Lemma merge_coverage_lookup (covs : list (gmap Z Z)) bin v :
  merge_coverage covs !! bin = Some v <->
  exists i m, covs !! i = Some m /\ m !! bin = Some v /\
              forall j m', (i < j)%nat -> covs !! j = Some m' -> m' !! bin = None.
Proof.
  induction covs as [|m covs IH] using rev_ind.
  - unfold merge_coverage. simpl. rewrite lookup_empty. split; [discriminate |].
    intros (i & m & Hi & _). rewrite lookup_nil in Hi. discriminate.
  - rewrite merge_coverage_snoc, lookup_union_Some_raw, IH. split.
    + intros [Hm | [Hm (i & m0 & Hi & Hv & Hlast)]].
      * exists (length covs), m. split; [| split; [exact Hm |]].
        -- rewrite lookup_app_r by lia. rewrite Nat.sub_diag. reflexivity.
        -- intros j m' Hj Hlk. apply lookup_lt_Some in Hlk.
           rewrite length_app in Hlk. simpl in Hlk. lia.
      * exists i, m0. split; [| split; [exact Hv |]].
        -- apply lookup_app_l_Some. exact Hi.
        -- intros j m' Hj Hlk.
           destruct (decide (j < length covs)%nat) as [Hlt|Hge].
           ++ rewrite lookup_app_l in Hlk by exact Hlt. eapply Hlast; eassumption.
           ++ pose proof (lookup_lt_Some _ _ _ Hlk) as Hb.
              rewrite length_app in Hb. simpl in Hb.
              assert (j = length covs) as -> by lia.
              rewrite lookup_app_r, Nat.sub_diag in Hlk by lia.
              injection Hlk as <-. exact Hm.
    + intros (i & m0 & Hi & Hv & Hlast).
      destruct (decide (i < length covs)%nat) as [Hlt|Hge].
      * right. rewrite lookup_app_l in Hi by exact Hlt. split.
        -- apply (Hlast (length covs) m); [exact Hlt |].
           rewrite lookup_app_r, Nat.sub_diag by lia. reflexivity.
        -- exists i, m0. split; [exact Hi |]. split; [exact Hv |].
           intros j m' Hj Hlk. apply (Hlast j m' Hj). apply lookup_app_l_Some. exact Hlk.
      * left. pose proof (lookup_lt_Some _ _ _ Hi) as Hb.
        rewrite length_app in Hb. simpl in Hb.
        assert (i = length covs) as -> by lia.
        rewrite lookup_app_r, Nat.sub_diag in Hi by lia.
        injection Hi as <-. exact Hv.
Qed.

(** X14.  [get_full_coverage] merges the coverage dicts of the blocks
    [get_all_blocks] returns, in the order it returns them: the depth the
    result gives for a bin is the one of the last block that has the bin.
    It does nothing else to the world than [get_all_blocks] does.  A block
    without the key ["_COVERAGE"] raises [KeyError]. *)
Theorem get_full_coverage_merges self (w w' : world) contig kbs :
  get_all_blocks pickle_loads gzip_decompress json_loads dict_keys self contig w
  = (Ok kbs, w') ->
  (forall covs,
      Forall2 (fun (b : block) m => b !! "_COVERAGE" = Some (BCov m)) (kbs.*2) covs ->
      get_full_coverage pickle_loads gzip_decompress json_loads dict_keys self contig w
      = (Ok (merge_coverage covs), w') /\
      forall bin v,
        merge_coverage covs !! bin = Some v <->
        exists i m, covs !! i = Some m /\ m !! bin = Some v /\
                    forall j m', (i < j)%nat -> covs !! j = Some m' -> m' !! bin = None) /\
  (forall pre b post covs,
      kbs.*2 = pre ++ b :: post ->
      Forall2 (fun (b : block) m => b !! "_COVERAGE" = Some (BCov m)) pre covs ->
      b !! "_COVERAGE" = None ->
      get_full_coverage pickle_loads gzip_decompress json_loads dict_keys self contig w
      = (Raise KeyError, w')).
Proof.
  intros Hrun. split.
  - intros covs Hall. split; [| intros bin v; apply merge_coverage_lookup].
    unfold get_full_coverage. unfold mbind at 1. rewrite Hrun.
    apply coverage_loop. exact Hall.
  - intros pre b post covs Hsplit Hpre Hb.
    unfold get_full_coverage. unfold mbind at 1. rewrite Hrun, Hsplit.
    clear Hsplit Hrun. revert covs Hpre. generalize (∅ : gmap Z Z).
    induction pre as [|b0 pre IH]; intros acc covs Hpre.
    + cbn [app mfor]. unfold mbind, coverage_update at 1. rewrite Hb. reflexivity.
    + apply Forall2_cons_inv_l in Hpre as (m & covs' & Hb0 & Hpre & ->).
      cbn [app mfor]. unfold mbind at 1. unfold coverage_update at 1. rewrite Hb0.
      unfold mret. apply (IH _ covs'). exact Hpre.
Qed.

End AccessorFacts.

Section ReadSuccessFacts.

Context {Payload Meta : Type}.
Variable pickle_loads : bytes -> option (gmap string (@bval Payload)).
Variable gzip_decompress : bytes -> option bytes.
Variable json_loads : bytes -> option (@header_t Meta).

Local Abbreviation block := (gmap string (@bval Payload)).
Local Abbreviation snfile := (@snfile Payload Meta).
Local Abbreviation world := (@world Payload Meta).



End ReadSuccessFacts.

(** * More facts about handles and the registry *)

Section HandleFacts.

Context {Payload Meta : Type}.
Variable json_loads : bytes -> option (@header_t Meta).

Local Abbreviation block := (gmap string (@bval Payload)).
Local Abbreviation snfile := (@snfile Payload Meta).
Local Abbreviation world := (@world Payload Meta).

Ltac mstep :=
  unfold mbind, mret, mraise, mget, mput, mmodify, mwhen, mtry in *; simpl in *.

(** X15.  [open] always ends with a read-only file object on [filename],
    positioned at the start, whatever handle the object held: a handle that
    was open for writing is closed and replaced.  When the file cannot be
    opened (no file name, or no such file) the call raises and the object is
    left closed: the handle it held is gone all the same, because line 47
    closes it before line 48 opens the file. *)
Theorem open_replaces_handle self (w : world) :
  let o := heap w self in
  (forall name content,
      filename o = Some name -> fs w !! name = Some content ->
      exists w',
        open self w = (Ok tt, w') /\
        heap w' self
        = set_handle (Some {| dev_mode := RB; dev_path := name; dev_pos := 0 |}) o /\
        fs w' = fs w /\ frame self w w') /\
  (filename o = None \/ (exists name, filename o = Some name /\ fs w !! name = None) ->
   exists e w',
     open self w = (Raise e, w') /\
     heap w' self = set_handle None o /\
     fs w' = fs w /\ frame self w w').
Proof.
  intros o. subst o. split.
  - intros name content Hname Hfile.
    unfold open, close, get_self, upd_self, is_open. mstep.
    destruct (handle (heap w self)) as [d|] eqn:Hh; simpl.
    + rewrite Hh. simpl. rewrite Hname. simpl. rewrite Hfile.
      eexists. split; [reflexivity |]. simpl. rewrite !fn_lookup_insert.
      split; [reflexivity |]. split; [reflexivity |].
      repeat split. intros i Hi. simpl. rewrite !fn_lookup_insert_ne by congruence.
      reflexivity.
    + rewrite Hname. simpl. rewrite Hfile.
      eexists. split; [reflexivity |]. simpl. rewrite !fn_lookup_insert.
      split; [reflexivity |]. split; [reflexivity |].
      repeat split. intros i Hi. simpl. rewrite !fn_lookup_insert_ne by congruence.
      reflexivity.
  - intros [Hnone | (name & Hname & Hfile)];
      unfold open, close, get_self, upd_self, is_open; mstep;
      destruct (handle (heap w self)) as [d|] eqn:Hh; simpl.
    + rewrite Hh. simpl. rewrite Hnone.
      eexists _, _. split; [reflexivity |]. simpl. rewrite !fn_lookup_insert.
      split; [reflexivity |]. split; [reflexivity |].
      repeat split. intros i Hi. simpl. rewrite !fn_lookup_insert_ne by congruence.
      reflexivity.
    + rewrite Hnone. exists TypeError, w. split; [reflexivity |].
      split; [destruct (heap w self); simpl in *; subst; reflexivity |].
      repeat split.
    + rewrite Hh. simpl. rewrite Hname. simpl. rewrite Hfile.
      eexists _, _. split; [reflexivity |]. simpl. rewrite !fn_lookup_insert.
      split; [reflexivity |]. split; [reflexivity |].
      repeat split. intros i Hi. simpl. rewrite !fn_lookup_insert_ne by congruence.
      reflexivity.
    + rewrite Hname. simpl. rewrite Hfile. exists FileNotFoundError, w. split; [reflexivity |].
      split; [destruct (heap w self); simpl in *; subst; reflexivity |].
      repeat split.
Qed.

(** X16.  The registry is ordered by load, not by use.  [get_index] on a
    handle whose header is loaded answers from memory and leaves the world,
    the registry included, as it is.  So when the
    registry is full, the handle loaded longest ago is the one the next load
    evicts, however recently it has been used. *)
Theorem registry_orders_by_load self oldest rest (w : world) :
  NoDup (_ACTIVE w) -> _ACTIVE w = oldest :: rest ->
  length (_ACTIVE w) = _MAX_ACTIVE -> self ∉ _ACTIVE w ->
  lazy (heap w oldest) = true -> is_Some (_header (heap w oldest)) ->
  get_index json_loads oldest w = (Ok (_index (heap w oldest)), w) /\
  exists r w',
    LazySNFile_read_header json_loads self w = (r, w') /\
    _ACTIVE w' = rest ++ [self] /\
    heap w' oldest = unloaded (heap w oldest).
Proof.
  intros Hnd Hact Hfull Hnotin Hlazy Hloaded.
  split; [unfold get_index; apply index_resident; right; exact Hloaded |].
  destruct (lazy_read_header_spec json_loads self w Hnd) as (r & w' & Hrun & Hcase).
  exists r, w'. split; [exact Hrun |].
  unfold move_to_end in Hcase. rewrite filter_ne_notin in Hcase by exact Hnotin.
  rewrite length_app, Hfull in Hcase. cbn [length] in Hcase.
  destruct (decide _) as [Hle|_]; [unfold _MAX_ACTIVE in Hle; lia |].
  destruct Hcase as (oldest' & rest' & Hsplit & _ & Hact' & Hold & _).
  rewrite Hact in Hsplit. cbn [app] in Hsplit. injection Hsplit as <- <-.
  split; [exact Hact' | exact Hold].
Qed.

End HandleFacts.

(** * Instances at concrete inputs *)

Lemma blocks_wf_empty {Payload : Type} : @blocks_wf Payload ∅.
Proof. intros i blk H. rewrite lookup_empty in H. discriminate. Qed.




Lemma ex_expected_ids b blk :
  expected_block ex_TYPES ex_cfg ex_cands b = Some blk ->
  (b = 0 /\ blk = ex_block0) \/ (b = 1000 /\ blk = ex_block1000).
Proof.
  unfold expected_block. destruct (decide _) as [Hex|]; [| discriminate].
  intros [= <-]. unfold ex_cands in Hex.
  repeat (apply Exists_cons in Hex as [Hex|Hex]; [vm_compute in Hex; subst b; auto |]).
  inversion Hex.
Qed.

Lemma ex_cands_valid :
  Forall (fun c : @svcand unit =>
            0 <= pos c < 2 ^ 53 /\ svtype c ∈ ex_TYPES /\ svtype c <> "_COVERAGE")
         ex_cands.
Proof.
  unfold ex_cands, ex_TYPES.
  repeat constructor; simpl; try lia; try discriminate; set_solver.
Qed.

Lemma toy_codec_exact b blk :
  expected_block ex_TYPES ex_cfg ex_cands b = Some blk ->
  toy_decompress (toy_compress (toy_dumps blk)) = Some (toy_dumps blk) /\
  exists blk', toy_loads (toy_dumps blk) = Some blk' /\ same_block blk blk'.
Proof.
  intros H. apply ex_expected_ids in H as [[-> ->] | [-> ->]];
    (split; [vm_compute; reflexivity |]);
    eexists; (split; [vm_compute; reflexivity | apply same_block_refl]).
Qed.

Lemma toy_json_no_newline : newline ∉ toy_json_dumps ex_header.
Proof.
  unfold toy_json_dumps, newline. intros H.
  repeat (apply elem_of_cons in H as [H|H]; [discriminate |]). inversion H.
Qed.

Lemma ex_part_empty : fs ex_world !! "part.snf" = Some [].
Proof. vm_compute. reflexivity. Qed.

(** C2, as amended, at the example of the three candidates: block 0 holds
    the first two under A, in order; block 1000 holds the third under B;
    read names are absent. *)
Lemma store_write_read_round_trip_witness :
  (exists w' blk,
     round_trip ex_TYPES toy_dumps toy_loads toy_compress toy_decompress
       toy_json_loads toy_json_dumps 0 1 ex_contig tt "out.snf" ex_cands
       (PInt 0) ex_world = (Ok (Some [blk]), w') /\
     same_block ex_block0 blk) /\
  (exists w' blk,
     round_trip ex_TYPES toy_dumps toy_loads toy_compress toy_decompress
       toy_json_loads toy_json_dumps 0 1 ex_contig tt "out.snf" ex_cands
       (PInt 1000) ex_world = (Ok (Some [blk]), w') /\
     same_block ex_block1000 blk) /\
  ex_block0 !! "A"
  = Some (BCands [ {| oid := 100; pos := 100; svtype := "A"; rnames := None;
                      payload := tt |};
                   {| oid := 250; pos := 250; svtype := "A"; rnames := None;
                      payload := tt |} ]) /\
  ex_block0 !! "B" = Some (BCands []) /\
  ex_block1000 !! "A" = Some (BCands []) /\
  ex_block1000 !! "B"
  = Some (BCands [ {| oid := 1100; pos := 1100; svtype := "B"; rnames := None;
                      payload := tt |} ]).
Proof.
  split; [| split].
  - destruct (store_write_read_round_trip ex_TYPES toy_dumps toy_loads toy_compress
                toy_decompress toy_json_loads toy_json_dumps 0%nat 1%nat ex_world ex_cfg
                "part.snf" "out.snf" ex_contig tt ex_cands 0
                ltac:(discriminate) ltac:(discriminate) eq_refl eq_refl ex_part_empty
                ltac:(simpl; lia) ex_cands_valid toy_codec_exact
                toy_json_no_newline eq_refl) as (w' & res & Hrun & Hres).
    unfold expected_block in Hres.
    rewrite decide_True in Hres by (left; reflexivity).
    destruct Hres as (blk & -> & Hsame). exists w', blk. split; [exact Hrun | exact Hsame].
  - destruct (store_write_read_round_trip ex_TYPES toy_dumps toy_loads toy_compress
                toy_decompress toy_json_loads toy_json_dumps 0%nat 1%nat ex_world ex_cfg
                "part.snf" "out.snf" ex_contig tt ex_cands 1000
                ltac:(discriminate) ltac:(discriminate) eq_refl eq_refl ex_part_empty
                ltac:(simpl; lia) ex_cands_valid toy_codec_exact
                toy_json_no_newline eq_refl) as (w' & res & Hrun & Hres).
    unfold expected_block in Hres.
    rewrite decide_True in Hres by (right; right; left; reflexivity).
    destruct Hres as (blk & -> & Hsame). exists w', blk. split; [exact Hrun | exact Hsame].
  - vm_compute. auto.
Defined.

(** C2 as stated fails for a negative position: with block size 1000 the
    candidate at position -1 has [floor(-1 / 1000) * 1000 = -1000], but
    line 51 truncates the quotient -0.001 to 0.  After the round trip block
    -1000 is absent, and the candidate is read back from block 0. *)
Lemma block_id_counterexample :
  block_id_of 1000 (-1) = -1000 /\
  (exists w',
     round_trip ex_TYPES toy_dumps neg_loads toy_compress toy_decompress
       neg_json_loads toy_json_dumps 0 1 ex_contig tt "out.snf" neg_cands
       (PInt (-1000)) ex_world = (Ok None, w')) /\
  (exists w',
     round_trip ex_TYPES toy_dumps neg_loads toy_compress toy_decompress
       neg_json_loads toy_json_dumps 0 1 ex_contig tt "out.snf" neg_cands
       (PInt 0) ex_world = (Ok (Some [neg_block]), w')) /\
  neg_block !! "A"
  = Some (BCands [ {| oid := 0; pos := -1; svtype := "A"; rnames := None;
                      payload := tt |} ]).
Proof.
  split; [reflexivity |].
  split; [eexists; vm_compute; reflexivity |].
  split; [eexists; vm_compute; reflexivity |].
  vm_compute. reflexivity.
Qed.

Lemma ex_stored_handle : handle (heap ex_stored 0) = Some ex_wdev.
Proof. vm_compute; reflexivity. Qed.
Lemma ex_stored_file : fs ex_stored !! dev_path ex_wdev = Some [].
Proof. vm_compute; reflexivity. Qed.
Lemma ex_stored_index : _index (heap ex_stored 0) = Some ∅.
Proof. vm_compute; reflexivity. Qed.
Lemma ex_stored_block0 : blocks (heap ex_stored 0) !! 0 = Some ex_block0.
Proof. vm_compute; reflexivity. Qed.
Lemma ex_stored_block1000 : blocks (heap ex_stored 0) !! 1000 = Some ex_block1000.
Proof. vm_compute; reflexivity. Qed.

(** C7 at the example: two payloads of three bytes each, at offsets 0 and 3. *)
Lemma write_and_index_offsets_witness :
  exists w' idx',
    write_and_index toy_dumps toy_compress 0 ex_stored = (Ok tt, w') /\
    fs w' !! "part.snf" = Some ex_body /\
    _index (heap w' 0) = Some idx' /\
    idx' !! PInt 0 = Some (IRange (0, 3)) /\
    idx' !! PInt 1000 = Some (IRange (3, 3)).
Proof.
  destruct (write_and_index_offsets toy_dumps toy_compress 0%nat ex_stored ex_wdev [] ∅
              ex_stored_handle eq_refl ex_stored_file eq_refl ex_stored_index)
    as (w' & idx' & Hrun & _ & _ & Hfs & Hidx & Hent).
  change (dev_path ex_wdev) with "part.snf" in Hfs.
  exists w', idx'. split; [exact Hrun |].
  split; [rewrite Hfs; vm_compute; reflexivity |].
  split; [exact Hidx |].
  destruct (Hent 0 ex_block0 ex_stored_block0) as (H0 & _ & _).
  destruct (Hent 1000 ex_block1000 ex_stored_block1000) as (H1 & _ & _).
  split; [rewrite H0 | rewrite H1]; vm_compute; reflexivity.
Defined.

(** C4, as amended, at the example: the file is the two payloads and no
    header is held. *)
Lemma write_and_index_writes_body_only_witness :
  exists w',
    write_and_index toy_dumps toy_compress 0 ex_stored = (Ok tt, w') /\
    fs w' !! "part.snf" = Some ex_body /\
    _header (heap w' 0) = None /\
    stdout w' = [].
Proof.
  destruct (write_and_index_writes_body_only toy_dumps toy_compress 0%nat ex_stored ex_wdev
              [] ∅ ex_stored_handle eq_refl ex_stored_file eq_refl ex_stored_index)
    as (w' & Hrun & _ & Hfs & _ & Hhdr & _ & Hout).
  change (dev_path ex_wdev) with "part.snf" in Hfs.
  exists w'. split; [exact Hrun |].
  split; [rewrite (Hfs eq_refl); vm_compute; reflexivity |].
  split; [rewrite Hhdr; vm_compute; reflexivity |].
  rewrite Hout. vm_compute. reflexivity.
Defined.

(** C4 as stated fails at the example: the file [write_and_index] leaves is
    the body itself, so it does not start with a header record followed by
    the body, whatever the header parser. *)
Lemma header_first_counterexample :
  exists w',
    write_and_index toy_dumps toy_compress 0 ex_stored = (Ok tt, w') /\
    fs w' !! "part.snf" = Some ex_body /\
    ex_body = body_of toy_dumps toy_compress (blocks (heap ex_stored 0))
                (sorted_block_ids (blocks (heap ex_stored 0))) /\
    forall json_loads : bytes -> option (@header_t unit),
      begins_with_header json_loads ex_body ex_body -> False.
Proof.
  destruct (write_and_index_run toy_dumps toy_compress 0%nat ex_stored ex_wdev [] ∅
              ex_stored_handle eq_refl ex_stored_file eq_refl ex_stored_index)
    as (w' & Hrun & Hfs & _).
  change (dev_path ex_wdev) with "part.snf" in Hfs.
  exists w'. split; [exact Hrun |].
  split; [rewrite Hfs, lookup_insert_eq; vm_compute; reflexivity |].
  split; [vm_compute; reflexivity |].
  intros json_loads (header_text & h & idx & Heq & Hlast & _).
  assert (Hlen : length ex_body = length (header_text ++ ex_body)) by (rewrite <- Heq; reflexivity).
  rewrite length_app in Hlen.
  destruct header_text; [discriminate | simpl in Hlen; lia].
Qed.

(** C5 at the example: the writer after [write_and_index] (its index holds
    tuples under integer keys), and the reader of the assembled file asked
    for another contig and for a block id that was never written. *)
Lemma read_blocks_absent_witness :
  (exists w', read_blocks toy_loads toy_decompress toy_json_loads 0 ex_contig (PInt 0)
                ex_written = (Ok None, w')) /\
  (exists w', read_blocks toy_loads toy_decompress toy_json_loads 1 (PStr "chr2") (PInt 0)
                ex_reopened = (Ok None, w')) /\
  (exists w', read_blocks toy_loads toy_decompress toy_json_loads 1 ex_contig (PInt 500)
                ex_reopened = (Ok None, w')).
Proof.
  split; [| split].
  - destruct (read_blocks_absent toy_loads toy_decompress toy_json_loads 0%nat ex_written
                ex_contig (PInt 0) (ex_rdev "part.snf")
                (flat_index toy_dumps toy_compress (blocks (heap ex_stored 0))))
      as (w' & Hrun & _).
    + vm_compute. reflexivity.
    + left. vm_compute. reflexivity.
    + vm_compute. reflexivity.
    + left. vm_compute. reflexivity.
    + exists w'. exact Hrun.
  - destruct (read_blocks_absent toy_loads toy_decompress toy_json_loads 1%nat ex_reopened
                (PStr "chr2") (PInt 0) (ex_rdev "out.snf")
                (nested_index ex_contig
                   (flat_index toy_dumps toy_compress (blocks (heap ex_stored 0)))))
      as (w' & Hrun & _).
    + vm_compute. reflexivity.
    + left. vm_compute. reflexivity.
    + vm_compute. reflexivity.
    + left. vm_compute. reflexivity.
    + exists w'. exact Hrun.
  - destruct (read_blocks_absent toy_loads toy_decompress toy_json_loads 1%nat ex_reopened
                ex_contig (PInt 500) (ex_rdev "out.snf")
                (nested_index ex_contig
                   (flat_index toy_dumps toy_compress (blocks (heap ex_stored 0)))))
      as (w' & Hrun & _).
    + vm_compute. reflexivity.
    + left. vm_compute. reflexivity.
    + vm_compute. reflexivity.
    + right. left. eexists. split; vm_compute; reflexivity.
    + exists w'. exact Hrun.
Defined.

(** C6 at a file whose second range is not a gzip stream: the first range
    decodes, the call raises and reports once. *)
Lemma read_blocks_failure_witness :
  exists w',
    read_blocks toy_loads toy_decompress toy_json_loads 0 ex_contig (PInt 0) bad_world
    = (Raise DecodeError, w') /\
    stdout w' = [BlockError ex_contig "0" (Some "bad.snf") DecodeError].
Proof.
  destruct (read_blocks_failure toy_loads toy_decompress toy_json_loads 0%nat bad_world
              ex_contig (PInt 0) (ex_rdev "bad.snf") bad_index
              {[ PStr "0" := [(0, 3); (3, 2)] ]} 3 [(0, 3)] (3, 2) [] DecodeError)
    as (w' & Hrun & Hout).
  - vm_compute. reflexivity.
  - reflexivity.
  - left. reflexivity.
  - reflexivity.
  - vm_compute. reflexivity.
  - vm_compute. reflexivity.
  - reflexivity.
  - constructor; [| constructor]. eexists. vm_compute. reflexivity.
  - vm_compute. reflexivity.
  - exists w'. split; [exact Hrun |]. rewrite Hout. reflexivity.
Defined.

Lemma lazy_world_inv : registry_inv lazy_world.
Proof.
  split; [| split].
  - vm_compute. lia.
  - apply NoDup_seq.
  - intros i _ [[h Hh] | (idx & Hidx & Hne)]; simpl in *; [discriminate |].
    injection Hidx as <-. contradiction.
Qed.

Lemma lazy_world_full : length (_ACTIVE (run_ops toy_json_loads [GetIndex 7] lazy_world)) = 50%nat.
Proof. vm_compute. reflexivity. Qed.

Lemma lazy_world_50 : 50%nat ∉ _ACTIVE (run_ops toy_json_loads [GetIndex 7] lazy_world).
Proof.
  vm_compute. intros H.
  repeat (apply elem_of_cons in H as [H|H]; [discriminate |]). inversion H.
Qed.

(** C3 at a full registry (objects 0 to 49) after object 7 has been accessed:
    loading object 50 evicts object 0, the least recently registered, and
    registers 50 last. *)
Lemma registry_bound_and_eviction_witness :
  (length (_ACTIVE (run_ops toy_json_loads [GetIndex 7] lazy_world)) <= 50)%nat /\
  exists r w',
    LazySNFile_read_header toy_json_loads 50 (run_ops toy_json_loads [GetIndex 7] lazy_world)
    = (r, w') /\
    last (_ACTIVE w') = Some 50%nat /\
    head (_ACTIVE w') = Some 1%nat /\
    length (_ACTIVE w') = 50%nat /\
    _header (heap w' 0) = None /\ _index (heap w' 0) = None.
Proof.
  destruct (registry_bound_and_eviction toy_json_loads [GetIndex 7] lazy_world lazy_world_inv)
    as (_ & Hlen & Hstep).
  split; [exact Hlen |].
  destruct (Hstep 50%nat) as (r & w' & Hrun & Hlast & Hevict & _).
  destruct (Hevict lazy_world_50 lazy_world_full)
    as (oldest & rest & Hact & _ & Hact' & _ & Hh & Hi & _).
  assert (Hact0 : _ACTIVE (run_ops toy_json_loads [GetIndex 7] lazy_world)
                  = 0%nat :: (seq 1 6 ++ seq 8 42 ++ [7%nat]))
    by (vm_compute; reflexivity).
  rewrite Hact0 in Hact. injection Hact as <- <-.
  exists r, w'. split; [exact Hrun |]. split; [exact Hlast |].
  rewrite Hact'. split; [reflexivity |]. split; [reflexivity |].
  split; [exact Hh | exact Hi].
Defined.

(** C8 at a registered lazy handle: unloaded, then reloaded by the next
    access to [index]. *)
Lemma unload_frame_and_reload_witness :
  exists w' w'',
    unload 3 lazy_world = (Ok tt, w') /\
    _header (heap w' 3) = None /\ _index (heap w' 3) = None /\
    _ACTIVE w' = seq 0 3 ++ seq 4 46 /\
    index toy_json_loads 3 w' = (Ok (index_entry ex_header), w'') /\
    _header (heap w'' 3) = Some ex_header.
Proof.
  destruct (unload_frame_and_reload toy_json_loads 3%nat lazy_world)
    as (w' & Hrun & _ & _ & _ & Hh & Hi & Hact & _ & _ & _ & Hreload).
  destruct (Hreload (ex_rdev "lazy.snf") ex_header
              (nested_index ex_contig
                 (flat_index toy_dumps toy_compress (@buffered unit unit ex_TYPES ex_cfg ex_cands))))
    as ((w'' & Hidx & Hhdr & _) & _).
  - reflexivity.
  - apply NoDup_seq.
  - vm_compute. reflexivity.
  - reflexivity.
  - vm_compute. reflexivity.
  - reflexivity.
  - exists w', w''. split; [exact Hrun |]. split; [exact Hh |]. split; [exact Hi |].
    split; [rewrite Hact; vm_compute; reflexivity |].
    split; [exact Hidx | exact Hhdr].
Defined.

(** C10 after one iteration of the loop on the single-entry depth source. *)
Lemma annotate_bin_count_positive_witness :
  exists loc o1,
    mfor [0] (annotate_body sv_TYPES cov_lp 500 1000) cov_init cov_obj = (Ok loc, o1) /\
    1 <= bin_count (cov_accumulate cov_lp 100 loc).
Proof.
  eexists _, _. split; [vm_compute; reflexivity |].
  eapply (proj2 (annotate_bin_count_positive sv_TYPES cov_lp 500 cov_obj) 500 1000 [0] 100).
  vm_compute. reflexivity.
Defined.

(** C9 at a header whose block 0 is keyed by the string ["0"]: the call with
    the integer 0 finds it. *)
Lemma read_blocks_str_coercion_witness :
  exists w' idx sub ranges,
    read_blocks toy_loads toy_decompress toy_json_loads 0 ex_contig (PInt 0) good_world
    = (Ok (Some [ex_block0]), w') /\
    _index (heap good_world 0) = Some idx /\
    idx !! ex_contig = Some (ISub sub) /\
    sub !! PStr (pretty 0) = Some ranges.
Proof.
  assert (Hrun : exists w',
             read_blocks toy_loads toy_decompress toy_json_loads 0 ex_contig (PInt 0)
               good_world = (Ok (Some [ex_block0]), w')).
  { eexists. vm_compute; reflexivity. }
  destruct Hrun as [w' Hrun].
  destruct (proj2 (read_blocks_str_coercion toy_loads toy_decompress toy_json_loads
                     0%nat ex_contig) 0 good_world [ex_block0] w')
    as (idx & sub & ranges & Hidx & Hc & Hs).
  - left. reflexivity.
  - exact Hrun.
  - exists w', idx, sub, ranges. auto.
Defined.

(** ** The divisions beyond 2^53 *)

(** The model of the two divisions gives the values of CPython. *)
Lemma double_vectors_ok :
  forallb (fun v => match v with
                    | (a, b, t, c) => (truediv_int a b =? t) && (truediv_ceil a b =? c)
                    end) double_vectors = true.
Proof. vm_compute. reflexivity. Qed.

(** 2^53 + 1 is no double: line 51 puts a candidate at that position, with
    block size 1, into block 2^53. *)
Lemma store_block_id_rounded :
  block_id_of 1 (2 ^ 53 + 1) = 2 ^ 53 + 1 /\
  blocks (snd (store ex_TYPES big_cand
                 (SNFile unit_cfg None None : @snfile unit unit))) !! (2 ^ 53 + 1) = None /\
  is_Some (blocks (snd (store ex_TYPES big_cand
                          (SNFile unit_cfg None None : @snfile unit unit))) !! (2 ^ 53)).
Proof.
  split; [reflexivity |]. split; [vm_compute; reflexivity |].
  eexists. vm_compute. reflexivity.
Qed.

(** Line 62 rounds the end of the depth source down to 2^53: no bin is
    walked, and the zero combine size raises nothing. *)
Lemma walked_bins_rounded :
  walked_bins unit_cfg big_lp = [] /\
  annotate_block_coverages ex_TYPES big_lp 0 (SNFile unit_cfg None None : @snfile unit unit)
  = (Ok tt, SNFile unit_cfg None None).
Proof. split; vm_compute; reflexivity. Qed.

(** Line 85 on a window of one bin whose running total is 2^53 + 1: the
    value is 2^53, one below the ceiling. *)
Lemma window_value_rounded :
  window_value [(0, 2 ^ 53 + 1)] = 2 ^ 53 /\ ceil_div (2 ^ 53 + 1) 1 = 2 ^ 53 + 1.
Proof. split; vm_compute; reflexivity. Qed.

(** ** Ranges that cannot be read *)

(** A length below -1 is refused by [read], a start before the beginning of
    the file by [seek]; the length -1 reads to the end of the file. *)
Lemma decode_range_refused :
  decode_range toy_loads toy_decompress [x7b; x7d; x0a; x1f; x8b; x00] 3 (0, -2)
  = Raise ValueError /\
  decode_range toy_loads toy_decompress [x7b; x7d; x0a; x1f; x8b; x00] 3 (-4, 3)
  = Raise OSError /\
  decode_range toy_loads toy_decompress [x7b; x7d; x0a; x1f; x8b; x00] 3 (0, -1)
  = Ok ex_block0.
Proof. repeat split; vm_compute; reflexivity. Qed.

(** * More instances at concrete inputs *)

Lemma aggregator_keeps_block_shape_witness :
  let ops := [Store (ex_cand 100 "A"); Annotate cov_lp 0; Store (ex_cand 5 "Z")] in
  blocks_typed ex_TYPES (blocks (run_agg ex_TYPES ops cov_obj)) /\
  run_agg ex_TYPES ops cov_obj = set_blocks (blocks (run_agg ex_TYPES ops cov_obj)) cov_obj.
Proof.
  exact (aggregator_keeps_block_shape ex_TYPES _ cov_obj (blocks_typed_empty ex_TYPES)).
Defined.

Lemma INS_not_coverage : "INS" <> "_COVERAGE".
Proof. discriminate. Qed.

Lemma annotate_keeps_candidates_witness :
  entry_at sv_TYPES (blocks (snd (annotate_block_coverages sv_TYPES cov_lp 0 cov_obj))) 0 "INS"
  = entry_at sv_TYPES (blocks cov_obj) 0 "INS".
Proof.
  exact (annotate_keeps_candidates sv_TYPES cov_lp 0 cov_obj 0 "INS" INS_not_coverage).
Defined.

Lemma coverage_not_A : "_COVERAGE" <> "A".
Proof. discriminate. Qed.

Lemma alias_obj_block :
  (100 : Z) <> truediv_int (pos (ex_cand 100 "A")) (snf_block_size (config alias_obj))
               * snf_block_size (config alias_obj).
Proof. vm_compute. discriminate. Qed.

(** X3 at an object held twice: storing the candidate again, into block 0,
    clears the read names of the entry in block 100, which is the same
    object; the coverage dict of block 0 stays as it is. *)
Lemma store_touches_one_list_witness :
  entry_at ex_TYPES (blocks alias_obj) 100 "A"
  = Some (BCands [ {| oid := 100; pos := 100; svtype := "A"; rnames := Some ["read1"];
                      payload := tt |} ]) /\
  entry_at ex_TYPES (blocks (snd (store ex_TYPES (ex_cand 100 "A") alias_obj))) 100 "A"
  = Some (BCands [ {| oid := 100; pos := 100; svtype := "A"; rnames := None;
                      payload := tt |} ]) /\
  entry_at ex_TYPES (blocks (snd (store ex_TYPES (ex_cand 100 "A") alias_obj))) 0 "_COVERAGE"
  = entry_at ex_TYPES (blocks alias_obj) 0 "_COVERAGE".
Proof.
  split; [reflexivity |]. split.
  - rewrite (store_touches_one_list ex_TYPES (ex_cand 100 "A") alias_obj 100 "A").
    + reflexivity.
    + left. exact alias_obj_block.
  - rewrite (store_touches_one_list ex_TYPES (ex_cand 100 "A") alias_obj 0 "_COVERAGE").
    + reflexivity.
    + right. exact coverage_not_A.
Defined.

(** X4 at a candidate with a tag that is no SV type: refused, its block
    left behind. *)
Lemma store_outcome_witness :
  fst (store ex_TYPES (ex_cand 5 "Z") cov_obj) = Raise KeyError /\
  blocks (snd (store ex_TYPES (ex_cand 5 "Z") cov_obj)) !! 0 = Some (new_block ex_TYPES).
Proof.
  destruct (store_outcome ex_TYPES (ex_cand 5 "Z") cov_obj (blocks_typed_empty ex_TYPES))
    as (Hr & _ & Hs).
  split; [exact Hr |].
  rewrite (Hs ltac:(discriminate) ltac:(rewrite Hr; discriminate)). reflexivity.
Defined.

(** X5 at a zero block size: bin 0 is divisible by 500, the call stops
    there. *)
Lemma annotate_zero_division_witness :
  annotate_block_coverages sv_TYPES cov_lp 0 (SNFile no_block_cfg None None : @snfile unit unit)
  = (Raise (ZeroDivisionError 83), SNFile no_block_cfg None None).
Proof.
  apply (annotate_zero_division sv_TYPES cov_lp 0
           (SNFile no_block_cfg None None : @snfile unit unit));
    [discriminate | discriminate | reflexivity].
Defined.

Lemma one_block_not_empty cfg h : blocks (one_block_writer cfg h) <> ∅.
Proof.
  intros He.
  assert (H : blocks (one_block_writer cfg h) !! 0 = Some (new_block ex_TYPES))
    by apply lookup_singleton_eq.
  rewrite He, lookup_empty in H. discriminate.
Qed.

(** X6 at a closed writer that holds a block. *)
Lemma write_and_index_read_only_witness :
  exists w',
    write_and_index toy_dumps toy_compress 0 (writer_world ex_cfg None)
    = (Raise UnsupportedOperation, w') /\
    fs w' = fs (writer_world ex_cfg None) /\
    handle (heap w' 0) = Some (ex_rdev "part.snf").
Proof.
  destruct (write_and_index_read_only toy_dumps toy_compress 0%nat (writer_world ex_cfg None)
              (ex_rdev "part.snf") eq_refl eq_refl) as (w' & Hrun & Hfs & Hheap & _).
  rewrite decide_False in Hrun by apply one_block_not_empty.
  rewrite decide_False in Hheap by apply one_block_not_empty.
  exists w'. split; [exact Hrun |]. split; [exact Hfs |]. rewrite Hheap. reflexivity.
Defined.

(** X7 at an open writer that holds a block: three bytes. *)
Lemma write_and_index_total_length_witness :
  exists w' appended,
    write_and_index toy_dumps toy_compress 0 (writer_world cov_cfg (Some ex_wdev)) = (Ok tt, w') /\
    fs w' !! "part.snf" = Some ([] ++ appended) /\
    get_total_length 0 w' = (Ok (0 + Z.of_nat (length appended)), w') /\
    Z.of_nat (length appended) = 3.
Proof.
  destruct (write_and_index_total_length toy_dumps toy_compress 0%nat
              (writer_world cov_cfg (Some ex_wdev)) ex_wdev [] ∅
              eq_refl eq_refl eq_refl eq_refl eq_refl)
    as (w' & appended & Hrun & Hfs & Hlen & Hsum).
  exists w', appended. split; [exact Hrun |]. split; [exact Hfs |]. split; [exact Hlen |].
  rewrite Hsum. vm_compute. reflexivity.
Defined.

(** X8 at the same writer: the payload is in the file twice, the index has
    it at offset 0. *)
Lemma write_and_index_twice_witness :
  exists w1 w2,
    write_and_index toy_dumps toy_compress 0 (writer_world cov_cfg (Some ex_wdev)) = (Ok tt, w1) /\
    write_and_index toy_dumps toy_compress 0 w1 = (Ok tt, w2) /\
    fs w2 !! "part.snf" = Some (new_payload ++ new_payload) /\
    _index (heap w2 0) = _index (heap w1 0) /\
    total_length (heap w2 0) = 6.
Proof.
  destruct (write_and_index_twice toy_dumps toy_compress 0%nat
              (writer_world cov_cfg (Some ex_wdev)) ex_wdev [] ∅
              eq_refl eq_refl eq_refl eq_refl eq_refl eq_refl)
    as (w1 & w2 & Hrun1 & Hrun2 & _ & Hfs2 & Hidx & _ & Htot).
  exists w1, w2. split; [exact Hrun1 |]. split; [exact Hrun2 |].
  split; [exact Hfs2 |]. split; [exact Hidx | exact Htot].
Defined.

(** X9 at a file whose first line is no header. *)
Lemma read_header_failures_witness :
  exists w',
    SNFile_read_header toy_json_loads 0 junk_world = (Raise DecodeError, w') /\
    stdout w' = [HeaderError (Some "junk.snf") DecodeError] /\
    header_length (heap w' 0) = Some 2 /\
    handle (heap w' 0) = Some (set_pos 2 (ex_rdev "junk.snf")).
Proof.
  destruct (proj1 (read_header_failures toy_json_loads 0%nat junk_world (ex_rdev "junk.snf")
                     eq_refl) eq_refl eq_refl) as (w' & Hrun & Hout & Hheap).
  exists w'. split; [exact Hrun |]. split; [exact Hout |]. rewrite Hheap. split; reflexivity.
Defined.





(** X20 at the single-entry depth source. *)
Lemma annotate_idempotent_witness :
  exists o1,
    annotate_block_coverages sv_TYPES cov_lp 500 cov_obj = (Ok tt, o1) /\
    annotate_block_coverages sv_TYPES cov_lp 500 o1 = (Ok tt, o1).
Proof.
  exact (annotate_idempotent sv_TYPES cov_lp 500 500 cov_obj
           ltac:(discriminate) ltac:(discriminate) ltac:(discriminate) blocks_wf_empty).
Defined.

Lemma A_in_ex_TYPES : "A" ∈ ex_TYPES.
Proof. left. Qed.

Lemma A_not_coverage : "A" <> "_COVERAGE".
Proof. discriminate. Qed.

(** X21 at the single-entry depth source and a candidate of block 0. *)
Lemma store_annotate_commute_witness :
  exists o',
    (_ <- store ex_TYPES (ex_cand 100 "A") ;; annotate_block_coverages ex_TYPES cov_lp 500)
      cov_obj = (Ok tt, o') /\
    (_ <- annotate_block_coverages ex_TYPES cov_lp 500 ;; store ex_TYPES (ex_cand 100 "A"))
      cov_obj = (Ok tt, o').
Proof.
  exact (store_annotate_commute ex_TYPES (ex_cand 100 "A") cov_lp 500 cov_obj
           ltac:(discriminate) ltac:(discriminate) ltac:(discriminate)
           (blocks_typed_empty ex_TYPES) A_in_ex_TYPES A_not_coverage).
Defined.

Lemma two_range_state : reader_state 0 two_range_world "full.snf" 3 two_range_index.
Proof.
  unfold reader_state. simpl. split; [left; reflexivity |].
  repeat split; [eexists; apply lookup_singleton_eq | left; reflexivity].
Qed.

Lemma two_range_contig : two_range_index !! ex_contig = Some (ISub two_range_sub).
Proof. apply lookup_singleton_eq. Qed.




(** X13 at an index as [write_and_index] builds it. *)
Lemma get_all_blocks_failures_witness :
  get_all_blocks toy_loads toy_decompress toy_json_loads map_keys 0 (PInt 0) flat_world
  = (Raise AttributeError, flat_world) /\
  get_all_blocks toy_loads toy_decompress toy_json_loads map_keys 0 ex_contig flat_world
  = (Raise KeyError, flat_world).
Proof.
  split.
  - apply (proj1 (proj2 (get_all_blocks_failures toy_loads toy_decompress toy_json_loads
                           map_keys 0%nat flat_world (PInt 0)
                           {[ PInt 0 := IRange (0, 3); PInt 1000 := IRange (3, 3) ]}
                           (or_introl eq_refl) eq_refl)) (0, 3)).
    vm_compute. reflexivity.
  - apply (proj1 (get_all_blocks_failures toy_loads toy_decompress toy_json_loads
                    map_keys 0%nat flat_world ex_contig
                    {[ PInt 0 := IRange (0, 3); PInt 1000 := IRange (3, 3) ]}
                    (or_introl eq_refl) eq_refl)).
    vm_compute. reflexivity.
Defined.

Lemma two_range_coverage :
  Forall2 (fun (b : gmap string (@bval unit)) m => b !! "_COVERAGE" = Some (BCov m))
          [ex_block1000; ex_block0] [∅; ∅].
Proof. repeat constructor. Qed.

Lemma two_range_all_blocks :
  exists w',
    get_all_blocks toy_loads toy_decompress toy_json_loads map_keys 0 ex_contig
      two_range_world
    = (Ok [(PStr "1000", ex_block1000); (PStr "0", ex_block0)], w').
Proof.
  destruct (get_all_blocks_run toy_loads toy_decompress toy_json_loads map_keys 0%nat
              two_range_world ex_contig "full.snf" 3 two_range_index two_range_sub
              two_range_state two_range_contig) as (w' & Hrun & _).
  exists w'. rewrite Hrun. f_equal.
Qed.

(** X14 at the same contig. *)
Lemma get_full_coverage_merges_witness :
  exists w',
    get_full_coverage toy_loads toy_decompress toy_json_loads map_keys 0 ex_contig
      two_range_world = (Ok (merge_coverage [∅; ∅]), w').
Proof.
  destruct two_range_all_blocks as [w' Hrun]. exists w'.
  apply (proj1 (get_full_coverage_merges toy_loads toy_decompress toy_json_loads map_keys
                  0%nat two_range_world w' ex_contig _ Hrun) [∅; ∅]).
  exact two_range_coverage.
Defined.

Lemma loaded_world_50 : 50%nat ∉ _ACTIVE loaded_world.
Proof. change (50%nat ∉ seq 0 50). rewrite elem_of_seq. lia. Qed.

(** X16 at a full registry: object 0 answers from memory, and is unloaded
    when object 50 is loaded. *)
Lemma registry_orders_by_load_witness :
  get_index toy_json_loads 0 loaded_world = (Ok (index_entry ex_header), loaded_world) /\
  exists r w',
    LazySNFile_read_header toy_json_loads 50 loaded_world = (r, w') /\
    _ACTIVE w' = seq 1 49 ++ [50%nat] /\
    _header (heap w' 0) = None.
Proof.
  destruct (registry_orders_by_load toy_json_loads 50%nat 0%nat (seq 1 49) loaded_world
              (NoDup_seq 0 50) eq_refl eq_refl loaded_world_50 eq_refl
              (ex_intro _ ex_header eq_refl))
    as (Hidx & r & w' & Hrun & Hact & Hold).
  split; [exact Hidx |]. exists r, w'. split; [exact Hrun |]. split; [exact Hact |].
  rewrite Hold. reflexivity.
Defined.

(** X17 at a reader whose handle stays open: the second call takes the
    first payload for a header. *)
Lemma read_header_again_reads_on_witness :
  exists w1 w2,
    SNFile_read_header toy_json_loads 0 open_reader_world = (Ok tt, w1) /\
    header_length (heap w1 0) = Some 3 /\
    SNFile_read_header toy_json_loads 0 w1 = (Raise DecodeError, w2) /\
    header_length (heap w2 0) = Some 6.
Proof.
  destruct (read_header_again_reads_on toy_json_loads 0%nat open_reader_world
              (ex_rdev "full.snf") ex_header ex_index
              eq_refl eq_refl eq_refl eq_refl eq_refl eq_refl)
    as (w1 & w2 & Hrun1 & Hhl1 & Hrun2 & Hhl2 & _).
  exists w1, w2. split; [exact Hrun1 |]. split; [exact Hhl1 |]. split; [exact Hrun2 |].
  exact Hhl2.
Defined.

(** X18 at a registered lazy handle. *)
Lemma lazy_read_header_repeatable_witness :
  exists w1 w2,
    LazySNFile_read_header toy_json_loads 3 lazy_world = (Ok tt, w1) /\
    LazySNFile_read_header toy_json_loads 3 w1 = (Ok tt, w2) /\
    heap w2 3 = heap w1 3 /\
    _header (heap w1 3) = Some ex_header.
Proof.
  destruct (lazy_read_header_repeatable toy_json_loads 3%nat lazy_world "lazy.snf"
              [x7b; x7d; x0a] ex_header ex_index lazy_world_inv
              eq_refl eq_refl eq_refl eq_refl eq_refl)
    as (w1 & w2 & Hrun1 & Hrun2 & Hsame & Hh & _).
  exists w1, w2. split; [exact Hrun1 |]. split; [exact Hrun2 |]. split; [exact Hsame |].
  exact Hh.
Defined.



